(** * A shallow embedding of the SAP B1 multi-agent workflow server

    The development follows the layout of the TypeScript sources:

    - [JS]            the few ECMAScript built-ins the code relies on
                      ([Math.round], [Math.max], [Array.prototype.sort], ...);
    - [Base]          [agents/base.ts]: [BaseAgent.calculateConfidence];
    - [Types]         [types/index.ts]: the rows of the data model;
    - [Orchestrator]  [agents/orchestrator.ts]: the fan-out and the synthesis
                      of recommendations;
    - [Database]      [database/service.ts]: the queries issued to the store;
    - [Context]       [utils/context.ts]: the [ContextManager] and its cache;
    - [Processor]     [commands/processor.ts]: the workflow commands
                      [handleExecute], [handleConfirm] and [handleError];
    - [Service]       [database/service.ts]: the other queries;
    - [Manager]       [utils/context.ts]: the history, the clean-up and the
                      summaries of the [ContextManager];
    - [Commands]      [commands/processor.ts]: [handleCreate],
                      [handleContinue] and [handleStatus];
    - [Quality]       [agents/orchestrator.ts]: [validateAnalysisQuality];
    - [Header]        the header pattern of [generateConsensus];
    - [Logger]        [utils/logger.ts]: the log buffer.

    JavaScript numbers are IEEE 754 binary64 values.  Where the code does
    arithmetic on fractions (confidence, progress) the embedding uses Rocq's
    primitive floats, which are the same binary64 values with the same
    rounding; identifiers, sequence numbers and counters are natural numbers. *)

From Stdlib Require Import ZArith QArith Qround Qminmax List String Ascii Bool Lia Floats Uint63.
From stdpp Require Import gmap strings list pretty.

Set Warnings "-inexact-float".
Local Open Scope string_scope.
Local Open Scope list_scope.

(* ===================================================================== *)
(** ** ECMAScript built-ins *)
(* ===================================================================== *)

Module JS.

(** The binary64 value of an integer (exact below 2^53). *)
Definition of_Z (z : Z) : float :=
  if (z <? 0)%Z then PrimFloat.opp (PrimFloat.of_uint63 (Uint63.of_Z (- z)))
  else PrimFloat.of_uint63 (Uint63.of_Z z).

Definition of_nat (n : nat) : float := of_Z (Z.of_nat n).

(** [Math.round]: the integral number closest to [x], ties towards +infinity;
    NaN, the infinities and the zeros are returned unchanged, and a result
    that rounds to zero from below is -0.  A finite [x] is [(-1)^s * m * 2^e];
    when [e < 0] the result is [floor (x + 1/2)], computed on integers. *)
Definition Math_round (x : float) : float :=
  match Prim2SF x with
  | S754_finite s m e =>
      if (0 <=? e)%Z then x
      else
        let k := (- e)%Z in
        let sm := if s then Z.neg m else Z.pos m in
        let n := ((2 * sm + 2 ^ k) / 2 ^ (k + 1))%Z in
        if (n =? 0)%Z then (if s then (-0)%float else 0%float) else of_Z n
  | _ => x
  end.

(** [Math.max] and [Math.min] of two numbers: NaN if either is NaN, and +0
    is larger than -0. *)
Definition Math_max (a b : float) : float :=
  if PrimFloat.is_nan a || PrimFloat.is_nan b then nan
  else if PrimFloat.ltb a b then b
  else if PrimFloat.ltb b a then a
  else match PrimFloat.classify a with
       | NZero => b
       | _ => a
       end.

Definition Math_min (a b : float) : float :=
  if PrimFloat.is_nan a || PrimFloat.is_nan b then nan
  else if PrimFloat.ltb b a then b
  else if PrimFloat.ltb a b then a
  else match PrimFloat.classify a with
       | PZero => b
       | _ => a
       end.

(** Truthiness of an optional string ([undefined] and [''] are falsy) and of
    an optional number ([undefined] and [0] are falsy). *)
Definition truthy_string (s : option string) : bool :=
  match s with
  | Some EmptyString | None => false
  | Some _ => true
  end.

Definition truthy_number (n : option nat) : bool :=
  match n with
  | Some (S _) => true
  | _ => false
  end.

(** [String.prototype.includes]. *)
Fixpoint includes (s sub : string) : bool :=
  if String.prefix sub s then true
  else match s with
       | EmptyString => false
       | String _ s' => includes s' sub
       end.

(** [Array.from(new Set(xs))]: a [Set] keeps its elements in insertion
    order, and adding an element that is already a member does nothing. *)
Definition Set_add (s : list string) (x : string) : list string :=
  if existsb (String.eqb x) s then s else s ++ [x].

Definition Set_from (xs : list string) : list string :=
  fold_left Set_add xs [].

(** [Array.prototype.sort(cmp)].  The sort is stable (ECMAScript 2019), so
    for a consistent comparator the result is determined: it is the one
    computed by insertion from the right, where an element is placed before
    the first element it does not compare greater than. *)
Section Sort.
Context {A : Type} (cmp : A → A → Z).

Fixpoint sort_insert (x : A) (l : list A) : list A :=
  match l with
  | [] => [x]
  | y :: l' => if (cmp x y <=? 0)%Z then x :: y :: l' else y :: sort_insert x l'
  end.

Definition sort (l : list A) : list A := foldr sort_insert [] l.
End Sort.

(** [xs.slice(0, n)]. *)
Definition slice0 {A} (n : nat) (xs : list A) : list A := take n xs.

(** [xs.join(', ')] on numbers. *)
Definition join_numbers (xs : list nat) : string :=
  String.concat ", " (map (λ n, pretty n) xs).

(** The line feed of a template literal. *)
Definition nl : string := String (ascii_of_nat 10) EmptyString.

(** The text built-ins whose results depend on Unicode tables, on the
    regular-expression engine or on the printing of numbers: the lower-case
    conversion, the removal of the decorated agent header that
    [generateConsensus] asks for, the keyword search of [extractKeywords]
    ([None] when nothing matches), and [toFixed(1)].  The code is verified
    for any implementation of them. *)
Class Runtime := {
  toLowerCase : string → string;
  replaceHeader : string → string;
  matchKeywords : string → option (list string);
  toFixed1 : float → string;
}.

(** An implementation for texts in lower-case ASCII, on which
    [toLowerCase] does nothing; its other operations are trivial. *)
Definition lower_ascii_runtime : Runtime :=
  {| toLowerCase := λ s, s; replaceHeader := λ s, s;
     matchKeywords := λ _, None; toFixed1 := λ _, "" |}.

End JS.

(* ===================================================================== *)
(** ** agents/base.ts *)
(* ===================================================================== *)

Module Base.

Record Factors := {
  complexity : float;   (* 1-5 (1=simples, 5=complexo) *)
  familiarity : float;  (* 1-5 (1=desconhecido, 5=familiar) *)
  riskLevel : float;    (* 1-5 (1=baixo, 5=alto) *)
  dataQuality : float;  (* 1-5 (1=ruim, 5=boa) *)
}.

(** [BaseAgent.calculateConfidence]. *)
Definition calculateConfidence (factors : Factors) : float :=
  let baseConfidence := ((familiarity factors + dataQuality factors) / 2)%float in
  let complexityPenalty := ((complexity factors - 1) * 0.1)%float in
  let riskPenalty := ((riskLevel factors - 1) * 0.15)%float in
  let confidence :=
    JS.Math_max 0.1 (JS.Math_min 1.0
      ((baseConfidence / 5) - complexityPenalty - riskPenalty)%float) in
  (JS.Math_round (confidence * 100) / 100)%float.

(** The factor record for four integer factors. *)
Definition factors_of (c f r d : Z) : Factors :=
  {| complexity := JS.of_Z c; familiarity := JS.of_Z f;
     riskLevel := JS.of_Z r; dataQuality := JS.of_Z d |}.

(** The scoring rule as the specification words it, in exact rational
    arithmetic: [base = (familiarity + dataQuality) / 2], [complexityPenalty =
    (complexity - 1) * 0.10], [riskPenalty = (riskLevel - 1) * 0.15], [raw =
    base / 5 - complexityPenalty - riskPenalty], clamped to [0.10, 1.00] and
    rounded to two decimal places. *)
Definition spec_clamp (lo hi q : Q) : Q := Qmax lo (Qmin hi q).

Definition spec_round2 (q : Q) : Q := (Qfloor (q * 100 + (1 # 2)) # 100)%Q.

Definition spec_confidence (c f r d : Z) : Q :=
  let base := ((inject_Z f + inject_Z d) / 2)%Q in
  let complexityPenalty := ((inject_Z c - 1) * (10 # 100))%Q in
  let riskPenalty := ((inject_Z r - 1) * (15 # 100))%Q in
  let raw := (base / 5 - complexityPenalty - riskPenalty)%Q in
  spec_round2 (spec_clamp (10 # 100) 1 raw).

(** The binary64 number closest to a rational with a small numerator and
    denominator: the correctly rounded quotient of the two integers. *)
Definition nearest_double (q : Q) : float :=
  (JS.of_Z (Qnum q) / JS.of_Z (Z.pos (Qden q)))%float.

Definition factor_range : list Z := [1; 2; 3; 4; 5]%Z.

End Base.

(* ===================================================================== *)
(** ** types/index.ts *)
(* ===================================================================== *)

Module Types.

Inductive TodoType := feature | bug | analysis | architecture | optimization | refactor.
Inductive Priority := critical | high | medium | low.
Inductive TodoStatus :=
  todo_pending | todo_in_progress | todo_completed | todo_cancelled | todo_blocked.
Inductive TaskStatus := pending | in_progress | completed | failed | skipped.
Inductive AgentType := architect | developer | dba | qa | business | po.

#[global] Instance TaskStatus_eq_dec : EqDecision TaskStatus.
Proof. solve_decision. Defined.
#[global] Instance TodoStatus_eq_dec : EqDecision TodoStatus.
Proof. solve_decision. Defined.
#[global] Instance AgentType_eq_dec : EqDecision AgentType.
Proof. solve_decision. Defined.

(** The name of an agent type, as it is interpolated into messages. *)
Definition agent_name (a : AgentType) : string :=
  match a with
  | architect => "architect" | developer => "developer" | dba => "dba"
  | qa => "qa" | business => "business" | po => "po"
  end.

(** [AgentConsensusSchema]: one optional text per agent type. *)
Record AgentConsensus := {
  cons_architect : option string;
  cons_developer : option string;
  cons_dba : option string;
  cons_qa : option string;
  cons_business : option string;
  cons_po : option string;
}.

Definition empty_consensus : AgentConsensus :=
  {| cons_architect := None; cons_developer := None; cons_dba := None;
     cons_qa := None; cons_business := None; cons_po := None |}.

(** [consensus[agent] = text]. *)
Definition consensus_set (c : AgentConsensus) (a : AgentType) (text : string)
  : AgentConsensus :=
  match a with
  | architect => {| cons_architect := Some text; cons_developer := cons_developer c;
      cons_dba := cons_dba c; cons_qa := cons_qa c; cons_business := cons_business c;
      cons_po := cons_po c |}
  | developer => {| cons_architect := cons_architect c; cons_developer := Some text;
      cons_dba := cons_dba c; cons_qa := cons_qa c; cons_business := cons_business c;
      cons_po := cons_po c |}
  | dba => {| cons_architect := cons_architect c; cons_developer := cons_developer c;
      cons_dba := Some text; cons_qa := cons_qa c; cons_business := cons_business c;
      cons_po := cons_po c |}
  | qa => {| cons_architect := cons_architect c; cons_developer := cons_developer c;
      cons_dba := cons_dba c; cons_qa := Some text; cons_business := cons_business c;
      cons_po := cons_po c |}
  | business => {| cons_architect := cons_architect c; cons_developer := cons_developer c;
      cons_dba := cons_dba c; cons_qa := cons_qa c; cons_business := Some text;
      cons_po := cons_po c |}
  | po => {| cons_architect := cons_architect c; cons_developer := cons_developer c;
      cons_dba := cons_dba c; cons_qa := cons_qa c; cons_business := cons_business c;
      cons_po := Some text |}
  end.

(** [TodoSchema].  Dates are instants of the clock. *)
Record Todo := {
  todo_ident : string;                       (* id *)
  todo_project_id : string;
  todo_title : string;
  todo_description : option string;
  todo_type : TodoType;
  todo_priority : Priority;
  agent_consensus : AgentConsensus;
  todo_status : TodoStatus;                  (* status *)
  progress_percentage : float;
  current_task_index : nat;
  parent_todo_id : option string;
  related_analysis_id : option string;
  todo_created_at : nat;
  todo_started_at : option nat;
  todo_completed_at : option nat;
  estimated_hours : option float;
  actual_hours : option float;
  created_by : string;
  assigned_to : option string;
  tags : list string;
}.

(** An entry of [corrections_applied]. *)
Record Correction := {
  corr_timestamp : nat;
  corr_error : string;
  corr_analysis : string;
}.

(** [TaskSchema].  [id] is optional in the type: the store assigns it. *)
Record Task := {
  task_ident : option nat;                   (* id *)
  todo_id : string;
  sequence_number : nat;
  title : string;
  description : option string;
  owner_agent : AgentType;
  status : TaskStatus;
  code_snippet : option string;
  code_language : string;
  test_scenarios : list string;
  started_at : option nat;
  completed_at : option nat;
  execution_time_seconds : option nat;
  error_count : nat;
  last_error : option string;
  corrections_applied : list Correction;
  requires_confirmation : bool;
  auto_confirmed : bool;
  confirmed_by : option string;
  confirmed_at : option nat;
  dependencies : list nat;
  completion_criteria : list string;
}.

(** [BugSchema], the scalar fields the commands fill in ([reported_at] is
    the store's). *)
Record Bug := {
  bug_ident : string;
  bug_project_id : string;
  bug_todo_id : option string;
  bug_title : string;
  bug_description : string;
  error_message : option string;
  stack_trace : option string;
  severity : string;
  category : option string;
  bug_status : string;
  reported_by : option string;
  caused_by_todo : option string;
}.

(** [ContextStackSchema].  [session_data] and [open_files] are free-form. *)
Record ContextStack := {
  ctx_ident : option nat;                    (* id *)
  project_id : string;
  ctx_todo_id : option string;
  task_id : option nat;
  file_path : option string;
  line_number : option nat;
  cursor_position : option nat;
  working_directory : option string;
  open_files : list string;
  terminal_output : option string;
  session_data : list (string * string);
  next_action : option string;
  notes : option string;
  saved_at : nat;
  resumed_at : option nat;
  is_active : bool;
  stack_depth : nat;
  parent_context_id : option nat;
}.

Record CommandContext := {
  projectId : string;
  userId : option string;
  sessionId : option string;
}.

Record AgentResponse := {
  agent : AgentType;
  response : string;
  confidence : float;
  suggestions : option (list string);
}.

Record MultiAgentAnalysis := {
  consensus : AgentConsensus;
  responses : list AgentResponse;
  summary : string;
  recommendations : list string;
}.

End Types.

(* ===================================================================== *)
(** ** Exceptions *)
(* ===================================================================== *)

(** An [async] call either returns a value or throws an [Error] carrying a
    message. *)
Inductive outcome (A : Type) : Type :=
  | Return (a : A)
  | Throw (message : string).
Arguments Return {A} a.
Arguments Throw {A} message.

(** The value of a call that returned. *)
Definition returned {A} (r : outcome A) : option A :=
  match r with
  | Return a => Some a
  | Throw _ => None
  end.

(** [try { body } catch (error) { handler(error) }]. *)
Definition try_catch {A} (body : outcome A) (handler : string → outcome A) : outcome A :=
  match body with
  | Return a => Return a
  | Throw message => handler message
  end.

(* ===================================================================== *)
(** ** agents/orchestrator.ts *)
(* ===================================================================== *)

Module Orchestrator.
Import Types.

Inductive RequestType := req_create | req_analyze | req_execute | req_review.

Record AnalysisRequest := {
  req_projectId : string;
  req_description : string;
  req_type : option RequestType;
  req_todo : option Todo;
  req_task : option Task;
  req_codeContext : option string;
  req_businessRules : list (string * string);
  req_previousAnalyses : list string;
}.

(** [AgentContext] of agents/base.ts. *)
Record AgentContext := {
  ac_projectId : string;
  ac_todo : option Todo;
  ac_task : option Task;
  ac_description : string;
  ac_codeContext : option string;
  ac_previousAnalyses : list string;
  ac_businessRules : list (string * string);
}.

(** The context object both entry points build from the request. *)
Definition context_of (request : AnalysisRequest) : AgentContext :=
  {| ac_projectId := req_projectId request;
     ac_description := req_description request;
     ac_todo := req_todo request;
     ac_task := req_task request;
     ac_codeContext := req_codeContext request;
     ac_businessRules := req_businessRules request;
     ac_previousAnalyses := req_previousAnalyses request |}.

(** An evaluator: its [analyze] method, which may throw. *)
Definition Agent := AgentContext → outcome AgentResponse.

Section WithAgents.
Context {runtime : JS.Runtime}.
(** The [analyze] method of the agent registered for each type.  The six
    agent classes are content templates; the orchestrator only relies on
    their signature. *)
Variable analyze : AgentType → Agent.

(** [initializeAgents]: the registry, in insertion order. *)
Definition initializeAgents : list (AgentType * Agent) :=
  [ (architect, analyze architect); (developer, analyze developer);
    (dba, analyze dba); (qa, analyze qa);
    (business, analyze business); (po, analyze po) ].

(** [this.agents.get(agentType)]. *)
Definition agents_get (agentType : AgentType) : option Agent :=
  snd <$> List.find (λ entry, bool_decide (fst entry = agentType)) initializeAgents.

(** The response substituted for an agent whose [analyze] threw. *)
Definition degraded (type : AgentType) : AgentResponse :=
  {| agent := type;
     response := "❌ Erro na análise do agente " +:+ agent_name type;
     confidence := 0.1%float;
     suggestions := Some ["Revisar manualmente"] |}.

(** One arm of the fan-out: [try { return await agent.analyze(context) }
    catch (error) { return degraded }]. *)
Definition guarded (type : AgentType) (agent : Agent) (context : AgentContext)
  : outcome AgentResponse :=
  try_catch (agent context) (λ _, Return (degraded type)).

(** [await Promise.all(promises)]: the values in the order of the
    promises, or the first rejection. *)
Fixpoint Promise_all {A} (promises : list (outcome A)) : outcome (list A) :=
  match promises with
  | [] => Return []
  | p :: rest =>
      match p with
      | Throw e => Throw e
      | Return a =>
          match Promise_all rest with
          | Throw e => Throw e
          | Return l => Return (a :: l)
          end
      end
  end.

Definition generateConsensus (responses : list AgentResponse) : AgentConsensus :=
  foldl (λ consensus resp,
           consensus_set consensus (agent resp) (JS.replaceHeader (response resp)))
        empty_consensus responses.

Definition extractKeywords (text : string) : list string :=
  default [] (JS.matchKeywords (JS.toLowerCase text)).

Definition checkAlignment (view1 view2 : string) : bool :=
  (* Verificação simples de alinhamento baseada em palavras-chave *)
  let keywords1 := extractKeywords view1 in
  let keywords2 := extractKeywords view2 in
  let commonKeywords :=
    List.filter (λ k, existsb (String.eqb k) keywords2) keywords1 in
  (2 <=? length commonKeywords)%nat.

Definition generateSummary (responses : list AgentResponse) (consensus : AgentConsensus)
  : string :=
  let avgConfidence :=
    (foldl (λ sum r, sum + confidence r) 0 responses
     / JS.of_nat (length responses))%float in
  let highConfidenceResponses :=
    List.filter (λ r, (0.7 <=? confidence r)%float) responses in
  let lowConfidenceResponses :=
    List.filter (λ r, (confidence r <? 0.5)%float) responses in
  let summary := "## 📋 Resumo da Análise Multi-Agente" +:+ JS.nl +:+ JS.nl in
  let summary :=
    summary +:+ "**Confiança Média:** "
    +:+ JS.toFixed1 (avgConfidence * 100)%float +:+ "%" +:+ JS.nl in
  let summary :=
    summary +:+ "**Agentes com Alta Confiança:** "
    +:+ pretty (length highConfidenceResponses) +:+ "/"
    +:+ pretty (length responses) +:+ JS.nl +:+ JS.nl in
  let summary :=
    if (0 <? length lowConfidenceResponses)%nat then
      summary +:+ "⚠️ **Atenção:** " +:+ pretty (length lowConfidenceResponses)
      +:+ " agente(s) com baixa confiança:" +:+ JS.nl
      +:+ String.concat ""
            (map (λ r, "- " +:+ agent_name (agent r) +:+ ": "
                       +:+ JS.toFixed1 (confidence r * 100)%float +:+ "%" +:+ JS.nl)
                 lowConfidenceResponses)
      +:+ JS.nl
    else summary in
  (* Identificar consensos e divergências *)
  let architectView := cons_architect consensus in
  let developerView := cons_developer consensus in
  let dbaView := cons_dba consensus in
  let summary :=
    if JS.truthy_string architectView && JS.truthy_string developerView then
      if checkAlignment (default "" architectView) (default "" developerView)
      then summary
           +:+ "✅ **Alinhamento Técnico:** Arquiteto e Desenvolvedor estão alinhados"
           +:+ JS.nl
      else summary
           +:+ "⚠️ **Divergência Técnica:** Revisar alinhamento entre Arquiteto e Desenvolvedor"
           +:+ JS.nl
    else summary in
  let summary :=
    if JS.truthy_string dbaView
       && (JS.includes (default "" dbaView) "ATENÇÃO"
           || JS.includes (default "" dbaView) "performance")
    then summary
         +:+ "🗄️ **Alerta de Performance:** DBA identificou possíveis impactos"
         +:+ JS.nl
    else summary in
  summary.

Definition priorityKeywords : list string :=
  ["crítico"; "urgente"; "atenção"; "impacto"].

(** [priorityKeywords.some(keyword => a.toLowerCase().includes(keyword))]. *)
Definition hasPriority (a : string) : bool :=
  existsb (λ keyword, JS.includes (JS.toLowerCase a) keyword) priorityKeywords.

Definition priority (a : string) : Z := if hasPriority a then 1%Z else 0%Z.

Definition generateRecommendations (responses : list AgentResponse) : list string :=
  let allSuggestions :=
    foldl (λ all resp,
             match suggestions resp with
             | Some s => all ++ s
             | None => all
             end) [] responses in
  let uniqueSuggestions := JS.Set_from allSuggestions in
  let prioritizedSuggestions :=
    JS.sort (λ a b, (priority b - priority a)%Z) uniqueSuggestions in
  JS.slice0 10 prioritizedSuggestions.

Definition synthesize (responses : list AgentResponse) : MultiAgentAnalysis :=
  let consensus := generateConsensus responses in
  {| consensus := consensus;
     responses := responses;
     summary := generateSummary responses consensus;
     recommendations := generateRecommendations responses |}.

Definition analyzeWithAllAgents (request : AnalysisRequest) : outcome MultiAgentAnalysis :=
  try_catch
    (let context := context_of request in
     let agentPromises :=
       map (λ '(type, agent), guarded type agent context) initializeAgents in
     match Promise_all agentPromises with
     | Throw e => Throw e
     | Return responses => Return (synthesize responses)
     end)
    (λ message, Throw ("Falha na análise multi-agente: " +:+ message)).

(** The loop of [analyzeWithSpecificAgents]: a type without a registered
    agent is skipped. *)
Fixpoint collect (context : AgentContext) (agentTypes : list AgentType)
    (responses : list AgentResponse) : outcome (list AgentResponse) :=
  match agentTypes with
  | [] => Return responses
  | agentType :: rest =>
      match agents_get agentType with
      | Some agent =>
          match guarded agentType agent context with
          | Return resp => collect context rest (responses ++ [resp])
          | Throw e => Throw e
          end
      | None => collect context rest responses
      end
  end.

Definition analyzeWithSpecificAgents (request : AnalysisRequest)
    (agentTypes : list AgentType) : outcome MultiAgentAnalysis :=
  let context := context_of request in
  match collect context agentTypes [] with
  | Throw e => Throw e
  | Return responses => Return (synthesize responses)
  end.

Definition getAgentSpecificAnalysis (request : AnalysisRequest) (agentType : AgentType)
  : outcome (option AgentResponse) :=
  match agents_get agentType with
  | None => Return None
  | Some agent =>
      match agent (context_of request) with
      | Return resp => Return (Some resp)
      | Throw message =>
          Return (Some
            {| agent := agentType;
               response := "❌ Erro na análise do agente " +:+ agent_name agentType
                           +:+ ": " +:+ message;
               confidence := 0.1%float;
               suggestions := Some ["Revisar manualmente";
                                    "Verificar logs para mais detalhes"] |})
      end
  end.

(** What the fan-out yields for one evaluator, in the specification's
    words: the evaluator's own response, or the degraded one if it threw. *)
Definition spec_entry (context : AgentContext) (type : AgentType) : AgentResponse :=
  match analyze type context with
  | Return r => r
  | Throw _ => degraded type
  end.

(** De-duplication by exact text equality, keeping first occurrences. *)
Fixpoint spec_dedupe (l : list string) : list string :=
  match l with
  | [] => []
  | x :: l' => x :: List.filter (λ y, negb (String.eqb x y)) (spec_dedupe l')
  end.

(** A stable arrangement with the urgent suggestions first. *)
Definition spec_urgent_first (l : list string) : list string :=
  List.filter hasPriority l ++ List.filter (λ a, negb (hasPriority a)) l.

End WithAgents.

(** The six agent types, in the order of the registry. *)
Definition all_types : list AgentType := [architect; developer; dba; qa; business; po].

End Orchestrator.

(* ===================================================================== *)
(** ** database/service.ts *)
(* ===================================================================== *)

(** The store is an external PostgREST service.  A table is the list of its
    rows in insertion order; a query is the filter, ordering and limit the
    code sends.  [.single()] yields the row when the result has exactly one
    row and the error PGRST116 otherwise; an update that was asked for a
    single row and did not match exactly one is rejected as a whole.  The
    connection itself is assumed to work: the only errors are those of
    [.single()]. *)

Module Database.
Import Types.

Record Store := {
  todos : list Todo;
  tasks : list Task;
  next_task_id : nat;
  bugs : list Bug;
  context_stack : list ContextStack;
  next_context_id : nat;
}.

(** [.order(column, { ascending })] on a numeric column, as a stable sort. *)
Definition order_asc {A} (key : A → nat) (rows : list A) : list A :=
  JS.sort (λ a b, (Z.of_nat (key a) - Z.of_nat (key b))%Z) rows.

Definition order_desc {A} (key : A → nat) (rows : list A) : list A :=
  JS.sort (λ a b, (Z.of_nat (key b) - Z.of_nat (key a))%Z) rows.

(** The message of the error PGRST116. *)
Definition PGRST116 : string := "JSON object requested, multiple (or no) rows returned".

(** [.single()]. *)
Definition single {A} (rows : list A) : option A :=
  match rows with
  | [row] => Some row
  | _ => None
  end.

(** [.limit(1).single()]. *)
Definition limit1_single {A} (rows : list A) : option A := head rows.

(** *** Partial updates *)

(** [Partial<Todo>], the keys the commands send. *)
Record TodoUpdates := {
  upd_todo_status : option TodoStatus;
  upd_todo_completed_at : option nat;
  upd_progress_percentage : option float;
  upd_current_task_index : option nat;
}.

Definition apply_todo (u : TodoUpdates) (t : Todo) : Todo :=
  {| todo_ident := todo_ident t;
     todo_project_id := todo_project_id t;
     todo_title := todo_title t;
     todo_description := todo_description t;
     todo_type := todo_type t;
     todo_priority := todo_priority t;
     agent_consensus := agent_consensus t;
     todo_status := default (todo_status t) (upd_todo_status u);
     progress_percentage := default (progress_percentage t) (upd_progress_percentage u);
     current_task_index := default (current_task_index t) (upd_current_task_index u);
     parent_todo_id := parent_todo_id t;
     related_analysis_id := related_analysis_id t;
     todo_created_at := todo_created_at t;
     todo_started_at := todo_started_at t;
     todo_completed_at :=
       match upd_todo_completed_at u with
       | Some d => Some d
       | None => todo_completed_at t
       end;
     estimated_hours := estimated_hours t;
     actual_hours := actual_hours t;
     created_by := created_by t;
     assigned_to := assigned_to t;
     tags := tags t |}.

(** [Partial<Task>], the keys the commands send. *)
Record TaskUpdates := {
  upd_status : option TaskStatus;
  upd_started_at : option nat;
  upd_completed_at : option nat;
  upd_confirmed_by : option string;
  upd_confirmed_at : option nat;
  upd_code_snippet : option string;
  upd_execution_time_seconds : option nat;
  upd_error_count : option nat;
  upd_last_error : option string;
  upd_corrections_applied : option (list Correction);
}.

(** A key that is present replaces the column; an absent key keeps it. *)
Definition patch {A} (new : option A) (old : option A) : option A :=
  match new with
  | Some a => Some a
  | None => old
  end.

Definition apply_task (u : TaskUpdates) (t : Task) : Task :=
  {| task_ident := task_ident t;
     todo_id := todo_id t;
     sequence_number := sequence_number t;
     title := title t;
     description := description t;
     owner_agent := owner_agent t;
     status := default (status t) (upd_status u);
     code_snippet := patch (upd_code_snippet u) (code_snippet t);
     code_language := code_language t;
     test_scenarios := test_scenarios t;
     started_at := patch (upd_started_at u) (started_at t);
     completed_at := patch (upd_completed_at u) (completed_at t);
     execution_time_seconds :=
       patch (upd_execution_time_seconds u) (execution_time_seconds t);
     error_count := default (error_count t) (upd_error_count u);
     last_error := patch (upd_last_error u) (last_error t);
     corrections_applied := default (corrections_applied t) (upd_corrections_applied u);
     requires_confirmation := requires_confirmation t;
     auto_confirmed := auto_confirmed t;
     confirmed_by := patch (upd_confirmed_by u) (confirmed_by t);
     confirmed_at := patch (upd_confirmed_at u) (confirmed_at t);
     dependencies := dependencies t;
     completion_criteria := completion_criteria t |}.

(** [Partial<Omit<ContextStack, 'id' | 'saved_at'>>]. *)
Record ContextUpdates := {
  upd_project_id : option string;
  upd_ctx_todo_id : option string;
  upd_task_id : option nat;
  upd_file_path : option string;
  upd_line_number : option nat;
  upd_cursor_position : option nat;
  upd_working_directory : option string;
  upd_open_files : option (list string);
  upd_terminal_output : option string;
  upd_session_data : option (list (string * string));
  upd_next_action : option string;
  upd_notes : option string;
  upd_resumed_at : option nat;
  upd_is_active : option bool;
  upd_stack_depth : option nat;
  upd_parent_context_id : option nat;
}.

Definition apply_context (u : ContextUpdates) (c : ContextStack) : ContextStack :=
  {| ctx_ident := ctx_ident c;
     project_id := default (project_id c) (upd_project_id u);
     ctx_todo_id := patch (upd_ctx_todo_id u) (ctx_todo_id c);
     task_id := patch (upd_task_id u) (task_id c);
     file_path := patch (upd_file_path u) (file_path c);
     line_number := patch (upd_line_number u) (line_number c);
     cursor_position := patch (upd_cursor_position u) (cursor_position c);
     working_directory := patch (upd_working_directory u) (working_directory c);
     open_files := default (open_files c) (upd_open_files u);
     terminal_output := patch (upd_terminal_output u) (terminal_output c);
     session_data := default (session_data c) (upd_session_data u);
     next_action := patch (upd_next_action u) (next_action c);
     notes := patch (upd_notes u) (notes c);
     saved_at := saved_at c;
     resumed_at := patch (upd_resumed_at u) (resumed_at c);
     is_active := default (is_active c) (upd_is_active u);
     stack_depth := default (stack_depth c) (upd_stack_depth u);
     parent_context_id := patch (upd_parent_context_id u) (parent_context_id c) |}.

(** *** Row predicates and table writers *)

Definition has_id {A} (ident : A → option nat) (id : nat) (row : A) : bool :=
  bool_decide (ident row = Some id).

Definition is_completed (t : Task) : bool := bool_decide (status t = completed).

Definition with_todos (s : Store) (rows : list Todo) : Store :=
  {| todos := rows; tasks := tasks s; next_task_id := next_task_id s;
     bugs := bugs s; context_stack := context_stack s;
     next_context_id := next_context_id s |}.

Definition with_tasks (s : Store) (rows : list Task) (next : nat) : Store :=
  {| todos := todos s; tasks := rows; next_task_id := next;
     bugs := bugs s; context_stack := context_stack s;
     next_context_id := next_context_id s |}.

Definition with_bugs (s : Store) (rows : list Bug) : Store :=
  {| todos := todos s; tasks := tasks s; next_task_id := next_task_id s;
     bugs := rows; context_stack := context_stack s;
     next_context_id := next_context_id s |}.

Definition with_contexts (s : Store) (rows : list ContextStack) (next : nat) : Store :=
  {| todos := todos s; tasks := tasks s; next_task_id := next_task_id s;
     bugs := bugs s; context_stack := rows; next_context_id := next |}.

(** [.update(updates).eq(column, value)] on a list of rows. *)
Definition update_where {A} (p : A → bool) (f : A → A) (rows : list A) : list A :=
  map (λ row, if p row then f row else row) rows.

(** *** TODOs *)

Definition getTodo (id : string) (s : Store) : option Todo :=
  single (List.filter (λ t, String.eqb (todo_ident t) id) (todos s)).

Definition updateTodo (id : string) (updates : TodoUpdates) (s : Store)
  : outcome Todo * Store :=
  match single (List.filter (λ t, String.eqb (todo_ident t) id) (todos s)) with
  | Some row =>
      (Return (apply_todo updates row),
       with_todos s (update_where (λ t, String.eqb (todo_ident t) id)
                                  (apply_todo updates) (todos s)))
  | None => (Throw ("Erro ao atualizar TODO: " +:+ PGRST116), s)
  end.

Definition getActiveTodo (projectId : string) (s : Store) : option Todo :=
  limit1_single
    (order_desc todo_created_at
       (List.filter (λ t, String.eqb (todo_project_id t) projectId
                          && bool_decide (todo_status t = todo_in_progress))
                    (todos s))).

(** *** Tasks *)

Definition getTask (id : nat) (s : Store) : option Task :=
  single (List.filter (has_id task_ident id) (tasks s)).

(** [createTask]: the store assigns the next identifier. *)
Definition createTask (task : Task) (s : Store) : Task * Store :=
  let row :=
    {| task_ident := Some (next_task_id s);
       todo_id := todo_id task; sequence_number := sequence_number task;
       title := title task; description := description task;
       owner_agent := owner_agent task; status := status task;
       code_snippet := code_snippet task; code_language := code_language task;
       test_scenarios := test_scenarios task; started_at := started_at task;
       completed_at := completed_at task;
       execution_time_seconds := execution_time_seconds task;
       error_count := error_count task; last_error := last_error task;
       corrections_applied := corrections_applied task;
       requires_confirmation := requires_confirmation task;
       auto_confirmed := auto_confirmed task; confirmed_by := confirmed_by task;
       confirmed_at := confirmed_at task; dependencies := dependencies task;
       completion_criteria := completion_criteria task |} in
  (row, with_tasks s (tasks s ++ [row]) (S (next_task_id s))).

(** [updateTask(task.id!, updates)]: an absent identifier matches no row. *)
Definition updateTask (id : option nat) (updates : TaskUpdates) (s : Store)
  : outcome Task * Store :=
  match id with
  | None => (Throw ("Erro ao atualizar task: " +:+ PGRST116), s)
  | Some id =>
      match single (List.filter (has_id task_ident id) (tasks s)) with
      | Some row =>
          (Return (apply_task updates row),
           with_tasks s (update_where (has_id task_ident id) (apply_task updates) (tasks s))
                      (next_task_id s))
      | None => (Throw ("Erro ao atualizar task: " +:+ PGRST116), s)
      end
  end.

Definition listTasks (todoId : string) (s : Store) : list Task :=
  order_asc sequence_number
    (List.filter (λ t, String.eqb (todo_id t) todoId) (tasks s)).

Definition getNextTask (todoId : string) (currentSequence : nat) (s : Store)
  : option Task :=
  limit1_single
    (order_asc sequence_number
       (List.filter (λ t, String.eqb (todo_id t) todoId
                          && bool_decide (status t = pending)
                          && (currentSequence <? sequence_number t)%nat)
                    (tasks s))).

(** *** Bugs *)

Definition createBug (bug : Bug) (s : Store) : Bug * Store :=
  (bug, with_bugs s (bugs s ++ [bug])).

(** *** Contexts *)

(** The row inserted by [saveContext]: [{ ...context, is_active: true }] with
    the identifier and [saved_at] filled in by the store. *)
Definition inserted_context (context : ContextStack) (id now : nat) : ContextStack :=
  {| ctx_ident := Some id;
     project_id := project_id context;
     ctx_todo_id := ctx_todo_id context;
     task_id := task_id context;
     file_path := file_path context;
     line_number := line_number context;
     cursor_position := cursor_position context;
     working_directory := working_directory context;
     open_files := open_files context;
     terminal_output := terminal_output context;
     session_data := session_data context;
     next_action := next_action context;
     notes := notes context;
     saved_at := now;
     resumed_at := resumed_at context;
     is_active := true;
     stack_depth := stack_depth context;
     parent_context_id := parent_context_id context |}.

Definition deactivate (c : ContextStack) : ContextStack :=
  apply_context
    {| upd_project_id := None; upd_ctx_todo_id := None; upd_task_id := None;
       upd_file_path := None; upd_line_number := None; upd_cursor_position := None;
       upd_working_directory := None; upd_open_files := None;
       upd_terminal_output := None; upd_session_data := None;
       upd_next_action := None; upd_notes := None; upd_resumed_at := None;
       upd_is_active := Some false; upd_stack_depth := None;
       upd_parent_context_id := None |} c.

(** [saveContext]: deactivate the project's contexts, then insert. *)
Definition saveContext (context : ContextStack) (now : nat) (s : Store)
  : ContextStack * Store :=
  (* Desativar contextos anteriores *)
  let rows :=
    update_where (λ c, String.eqb (project_id c) (project_id context))
                 deactivate (context_stack s) in
  let data := inserted_context context (next_context_id s) now in
  (data, with_contexts s (rows ++ [data]) (S (next_context_id s))).

Definition getActiveContext (projectId : string) (s : Store) : option ContextStack :=
  limit1_single
    (order_desc saved_at
       (List.filter (λ c, String.eqb (project_id c) projectId && is_active c)
                    (context_stack s))).

Definition updateContext (id : option nat) (updates : ContextUpdates) (s : Store)
  : outcome ContextStack * Store :=
  match id with
  | None => (Throw ("Erro ao atualizar contexto: " +:+ PGRST116), s)
  | Some id =>
      match single (List.filter (has_id ctx_ident id) (context_stack s)) with
      | Some row =>
          (Return (apply_context updates row),
           with_contexts s
             (update_where (has_id ctx_ident id) (apply_context updates) (context_stack s))
             (next_context_id s))
      | None => (Throw ("Erro ao atualizar contexto: " +:+ PGRST116), s)
      end
  end.

Definition getContext (id : nat) (s : Store) : option ContextStack :=
  single (List.filter (has_id ctx_ident id) (context_stack s)).

(** The rows of a project that are marked active. *)
Definition active_rows (projectId : string) (s : Store) : list ContextStack :=
  List.filter (λ c, String.eqb (project_id c) projectId && is_active c)
              (context_stack s).

End Database.

(* ===================================================================== *)
(** ** The state of the server and its effects *)
(* ===================================================================== *)

(** The server holds the store connection, the [ContextManager]'s cache
    ([contextStack : Map<string, ContextStack[]>]) and reads the clock.  The
    objects kept in the cache are never mutated in place: an entry changes
    only when the array slot is assigned. *)
Record World := {
  db : Database.Store;
  contextStack : gmap string (list Types.ContextStack);
  clock : nat;
}.

(** A command is a function of the state that returns or throws; what it
    wrote before throwing stays written. *)
Definition M (A : Type) : Type := World → outcome A * World.

Definition ret {A} (a : A) : M A := λ w, (Return a, w).

Definition throw {A} (message : string) : M A := λ w, (Throw message, w).

Definition bind {A B} (m : M A) (k : A → M B) : M B :=
  λ w, match m w with
       | (Return a, w') => k a w'
       | (Throw message, w') => (Throw message, w')
       end.

Notation "'do' x <- m ; k" := (bind m (λ x, k))
  (at level 10, x name, m at level 100, k at level 200).

(** [try { body } catch (error) { handler(error.message) }]. *)
Definition catch {A} (body : M A) (handler : string → M A) : M A :=
  λ w, match body w with
       | (Return a, w') => (Return a, w')
       | (Throw message, w') => handler message w'
       end.

(** [new Date()] / [Date.now()]: the clock advances with every reading. *)
Definition Date_now : M nat :=
  λ w, (Return (clock w),
        {| db := db w; contextStack := contextStack w; clock := S (clock w) |}).

(** A query on the store. *)
Definition query {A} (q : Database.Store → A) : M A := λ w, (Return (q (db w)), w).

(** A write that cannot fail. *)
Definition write {A} (f : Database.Store → A * Database.Store) : M A :=
  λ w, let '(a, s) := f (db w) in
       (Return a, {| db := s; contextStack := contextStack w; clock := clock w |}).

(** A write that may be rejected. *)
Definition write_or_throw {A} (f : Database.Store → outcome A * Database.Store) : M A :=
  λ w, let '(r, s) := f (db w) in
       (r, {| db := s; contextStack := contextStack w; clock := clock w |}).

(** An awaited call that does not touch the state. *)
Definition await {A} (r : outcome A) : M A := λ w, (r, w).

Definition get_cache : M (gmap string (list Types.ContextStack)) :=
  λ w, (Return (contextStack w), w).

Definition set_cache (c : gmap string (list Types.ContextStack)) : M unit :=
  λ w, (Return tt, {| db := db w; contextStack := c; clock := clock w |}).

(* ===================================================================== *)
(** ** utils/context.ts *)
(* ===================================================================== *)

Module Context.
Import Types.

Record ContextData := {
  cd_project_id : string;
  cd_todo_id : option string;
  cd_task_id : option nat;
  cd_file_path : option string;
  cd_line_number : option nat;
  cd_cursor_position : option nat;
  cd_working_directory : option string;
  cd_open_files : option (list string);
  cd_terminal_output : option string;
  cd_session_data : option (list (string * string));
  cd_next_action : option string;
  cd_notes : option string;
  cd_stack_depth : option nat;
  cd_parent_context_id : option nat;
}.

(** [Partial<ContextData>]: a key is present ([Some]) or absent. *)
Record PartialContextData := {
  pcd_project_id : option string;
  pcd_todo_id : option string;
  pcd_task_id : option nat;
  pcd_file_path : option string;
  pcd_line_number : option nat;
  pcd_cursor_position : option nat;
  pcd_working_directory : option string;
  pcd_open_files : option (list string);
  pcd_terminal_output : option string;
  pcd_session_data : option (list (string * string));
  pcd_next_action : option string;
  pcd_notes : option string;
  pcd_stack_depth : option nat;
  pcd_parent_context_id : option nat;
}.

(** The object [saveContext] hands to the store. *)
Definition contextToSave (data : ContextData) : ContextStack :=
  {| ctx_ident := None;
     project_id := cd_project_id data;
     open_files := default [] (cd_open_files data);
     session_data := default [] (cd_session_data data);
     is_active := true;
     stack_depth := default 0 (cd_stack_depth data);
     ctx_todo_id := cd_todo_id data;
     task_id := cd_task_id data;
     file_path := cd_file_path data;
     line_number := cd_line_number data;
     cursor_position := cd_cursor_position data;
     working_directory := cd_working_directory data;
     terminal_output := cd_terminal_output data;
     next_action := cd_next_action data;
     notes := cd_notes data;
     parent_context_id := cd_parent_context_id data;
     saved_at := 0;
     resumed_at := None |}.

Definition saveContext (data : ContextData) : M ContextStack :=
  catch
    (do now <- Date_now;
     do context <- write (Database.saveContext (contextToSave data) now);
     (* Atualizar cache local *)
     do cache <- get_cache;
     let projectContexts := default [] (cache !! cd_project_id data) in
     do _ <- set_cache (<[cd_project_id data := projectContexts ++ [context]]> cache);
     ret context)
    (λ error, throw error).

(** [projectContexts[existingIndex] = context] when an entry has the same
    id, [projectContexts.push(context)] otherwise. *)
Fixpoint replace_or_push (context : ContextStack) (projectContexts : list ContextStack)
  : list ContextStack :=
  match projectContexts with
  | [] => [context]
  | c :: rest =>
      if bool_decide (ctx_ident c = ctx_ident context) then context :: rest
      else c :: replace_or_push context rest
  end.

Definition updateContextCache (projectId : string) (context : ContextStack) : M unit :=
  do cache <- get_cache;
  let projectContexts := default [] (cache !! projectId) in
  set_cache (<[projectId := replace_or_push context projectContexts]> cache).

Definition getActiveContext (projectId : string) : M (option ContextStack) :=
  catch
    (do cache <- get_cache;
     (* Tentar buscar do cache primeiro *)
     match List.find is_active (default [] (cache !! projectId)) with
     | Some activeContext => ret (Some activeContext)
     | None =>
         (* Buscar do banco de dados *)
         do context <- query (Database.getActiveContext projectId);
         match context with
         | Some found =>
             do _ <- updateContextCache projectId found;
             ret (Some found)
         | None => ret None
         end
     end)
    (λ _, ret None).

(** [{ project_id: projectId, stack_depth: stackDepth,
       parent_context_id: currentContext?.id, ...data }]:
    a key present in [data] overrides the computed one. *)
Definition newContextData (projectId : string) (stackDepth : nat)
    (parent : option nat) (data : PartialContextData) : ContextData :=
  {| cd_project_id := default projectId (pcd_project_id data);
     cd_stack_depth := Some (default stackDepth (pcd_stack_depth data));
     cd_parent_context_id := Database.patch (pcd_parent_context_id data) parent;
     cd_todo_id := pcd_todo_id data;
     cd_task_id := pcd_task_id data;
     cd_file_path := pcd_file_path data;
     cd_line_number := pcd_line_number data;
     cd_cursor_position := pcd_cursor_position data;
     cd_working_directory := pcd_working_directory data;
     cd_open_files := pcd_open_files data;
     cd_terminal_output := pcd_terminal_output data;
     cd_session_data := pcd_session_data data;
     cd_next_action := pcd_next_action data;
     cd_notes := pcd_notes data |}.

Definition pushContext (projectId : string) (data : PartialContextData) : M ContextStack :=
  catch
    (do currentContext <- getActiveContext projectId;
     let stackDepth :=
       match currentContext with
       | Some current => stack_depth current + 1
       | None => 0
       end in
     saveContext
       (newContextData projectId stackDepth (currentContext ≫= ctx_ident) data))
    (λ error, throw error).

Definition set_active (active : bool) (resumed : option nat) : Database.ContextUpdates :=
  {| Database.upd_project_id := None; Database.upd_ctx_todo_id := None;
     Database.upd_task_id := None; Database.upd_file_path := None;
     Database.upd_line_number := None; Database.upd_cursor_position := None;
     Database.upd_working_directory := None; Database.upd_open_files := None;
     Database.upd_terminal_output := None; Database.upd_session_data := None;
     Database.upd_next_action := None; Database.upd_notes := None;
     Database.upd_resumed_at := resumed; Database.upd_is_active := Some active;
     Database.upd_stack_depth := None; Database.upd_parent_context_id := None |}.

Definition popContext (projectId : string) : M (option ContextStack) :=
  catch
    (do currentContext <- getActiveContext projectId;
     match currentContext with
     | None => ret None
     | Some current =>
         match parent_context_id current with
         | Some (S _ as parentId) =>
             (* Desativar contexto atual *)
             do _ <- write_or_throw
                       (Database.updateContext (ctx_ident current) (set_active false None));
             (* Ativar contexto pai *)
             do parentContext <- query (Database.getContext parentId);
             match parentContext with
             | Some parent =>
                 do now <- Date_now;
                 do _ <- write_or_throw
                           (Database.updateContext (ctx_ident parent)
                              (set_active true (Some now)));
                 (* Atualizar cache *)
                 do _ <- updateContextCache projectId parent;
                 ret (Some parent)
             | None => ret None
             end
         | _ =>
             (* Nenhum contexto pai para retornar *)
             ret None
         end
     end)
    (λ error, throw error).

(** The keys of [Partial<ContextData>] as an update of the row. *)
Definition updates_of (updates : PartialContextData) : Database.ContextUpdates :=
  {| Database.upd_project_id := pcd_project_id updates;
     Database.upd_ctx_todo_id := pcd_todo_id updates;
     Database.upd_task_id := pcd_task_id updates;
     Database.upd_file_path := pcd_file_path updates;
     Database.upd_line_number := pcd_line_number updates;
     Database.upd_cursor_position := pcd_cursor_position updates;
     Database.upd_working_directory := pcd_working_directory updates;
     Database.upd_open_files := pcd_open_files updates;
     Database.upd_terminal_output := pcd_terminal_output updates;
     Database.upd_session_data := pcd_session_data updates;
     Database.upd_next_action := pcd_next_action updates;
     Database.upd_notes := pcd_notes updates;
     Database.upd_resumed_at := None;
     Database.upd_is_active := None;
     Database.upd_stack_depth := pcd_stack_depth updates;
     Database.upd_parent_context_id := pcd_parent_context_id updates |}.

Definition updateCurrentContext (projectId : string) (updates : PartialContextData)
  : M (option ContextStack) :=
  catch
    (do currentContext <- getActiveContext projectId;
     match currentContext with
     | None => ret None
     | Some current =>
         do updatedContext <-
           write_or_throw (Database.updateContext (ctx_ident current) (updates_of updates));
         (* Atualizar cache *)
         do _ <- updateContextCache projectId updatedContext;
         ret (Some updatedContext)
     end)
    (λ error, throw error).

(** [clearCache(projectId?)]. *)
Definition clearCache (projectId : option string) : M unit :=
  do cache <- get_cache;
  match projectId with
  | Some p => set_cache (delete p cache)
  | None => set_cache ∅
  end.

End Context.

(* ===================================================================== *)
(** ** commands/processor.ts *)
(* ===================================================================== *)

Module Processor.
Import Types.

Record ExecutionResult := {
  exec_agent : AgentType;
  exec_analysis : option AgentResponse;
  exec_code : string;
  exec_timestamp : nat;
}.

(** The [data] of a result, without its [formatted] rendering. *)
Inductive ResultData :=
  | ExecuteData (task : Task) (execution : ExecutionResult) (progress : float)
  | ConfirmData (confirmedTask : Task) (nextTask : option Task) (nextAction : string)
  | ErrorData (bug : Bug) (analysis : MultiAgentAnalysis) (task : option Task).

Record CommandResult := {
  success : bool;
  message : string;
  data : option ResultData;
  error : option string;
}.

Definition failure (message error : string) : CommandResult :=
  {| success := false; message := message; data := None; error := Some error |}.

Record ExecuteArgs := { taskNumber : option nat; force : option bool }.
Record ConfirmArgs := { arg_notes : option string }.
Record ErrorArgs := {
  arg_description : option string;
  stackTrace : option string;
  screenshot : option string;
}.

(** The template of a generated task. *)
Definition new_task (todo : Todo) (seq : nat) (title : string)
    (description : option string) (owner : AgentType) (language : string)
    (deps : list nat) (criteria : list string) : Task :=
  {| task_ident := None;
     todo_id := todo_ident todo;
     sequence_number := seq;
     title := title;
     description := description;
     owner_agent := owner;
     status := pending;
     code_snippet := None;
     code_language := language;
     test_scenarios := [];
     started_at := None;
     completed_at := None;
     execution_time_seconds := None;
     error_count := 0;
     last_error := None;
     corrections_applied := [];
     requires_confirmation := true;
     auto_confirmed := false;
     confirmed_by := None;
     confirmed_at := None;
     dependencies := deps;
     completion_criteria := criteria |}.

Definition generateTasksFromAnalysis (todo : Todo) (analysis : MultiAgentAnalysis)
  : list Task :=
  let consensus := consensus analysis in
  (* Task 1: Análise e planejamento (sempre presente) *)
  let tasks :=
    [ new_task todo 1 "Análise detalhada e planejamento"
        (Some "Revisar análise multi-agente e definir abordagem técnica")
        architect "markdown" [] ["Análise revisada"; "Abordagem definida"] ] in
  (* Task 2: Implementação (baseada no desenvolvedor) *)
  let tasks :=
    if JS.truthy_string (cons_developer consensus)
    then tasks ++ [ new_task todo 2 "Implementação da solução"
                      (cons_developer consensus) developer "csharp" [1]
                      ["Código implementado"; "Compilação sem erros"] ]
    else tasks in
  (* Task 3: Testes (baseada no QA) *)
  let tasks :=
    if JS.truthy_string (cons_qa consensus)
    then tasks ++ [ new_task todo 3 "Testes e validação"
                      (cons_qa consensus) qa "csharp" [2]
                      ["Testes executados"; "Validação concluída"] ]
    else tasks in
  tasks.

(** [checkTaskDependencies]: each entry of [dependencies] is looked up with
    [getTask], that is by row identifier. *)
Fixpoint pending_dependencies (deps : list nat) (s : Database.Store) : list nat :=
  match deps with
  | [] => []
  | depId :: rest =>
      match Database.getTask depId s with
      | Some depTask =>
          if bool_decide (status depTask = completed)
          then pending_dependencies rest s
          else depId :: pending_dependencies rest s
      | None => depId :: pending_dependencies rest s
      end
  end.

Definition checkTaskDependencies (task : Task) : M (list nat) :=
  query (pending_dependencies (dependencies task)).

Section WithAgents.
Context {runtime : JS.Runtime}.
Variable analyze : AgentType → Orchestrator.Agent.

Definition executeTask (task : Task) (todo : Todo) (context : CommandContext)
  : M ExecutionResult :=
  (* Marcar task como em execução *)
  do started <- Date_now;
  do _ <- write_or_throw
            (Database.updateTask (task_ident task)
               {| Database.upd_status := Some in_progress;
                  Database.upd_started_at := Some started;
                  Database.upd_completed_at := None;
                  Database.upd_confirmed_by := None;
                  Database.upd_confirmed_at := None;
                  Database.upd_code_snippet := None;
                  Database.upd_execution_time_seconds := None;
                  Database.upd_error_count := None;
                  Database.upd_last_error := None;
                  Database.upd_corrections_applied := None |});
  (* Executar análise específica do agente responsável *)
  let analysisRequest :=
    {| Orchestrator.req_projectId := projectId context;
       Orchestrator.req_description :=
         if JS.truthy_string (description task)
         then default "" (description task) else title task;
       Orchestrator.req_type := Some Orchestrator.req_execute;
       Orchestrator.req_todo := Some todo;
       Orchestrator.req_task := Some task;
       Orchestrator.req_codeContext := None;
       Orchestrator.req_businessRules := [];
       Orchestrator.req_previousAnalyses := [] |} in
  do agentAnalysis <-
    await (Orchestrator.getAgentSpecificAnalysis analyze analysisRequest
             (owner_agent task));
  do timestamp <- Date_now;
  let executionResult :=
    {| exec_agent := owner_agent task;
       exec_analysis := agentAnalysis;
       exec_code :=
         if JS.truthy_string (response <$> agentAnalysis)
         then default "" (response <$> agentAnalysis)
         else "Código a ser implementado";
       exec_timestamp := timestamp |} in
  (* Atualizar task com resultado *)
  do _ <- write_or_throw
            (Database.updateTask (task_ident task)
               {| Database.upd_status := None;
                  Database.upd_started_at := None;
                  Database.upd_completed_at := None;
                  Database.upd_confirmed_by := None;
                  Database.upd_confirmed_at := None;
                  Database.upd_code_snippet := Some (exec_code executionResult);
                  Database.upd_execution_time_seconds := Some 1;
                  Database.upd_error_count := None;
                  Database.upd_last_error := None;
                  Database.upd_corrections_applied := None |});
  ret executionResult.

(** [Math.round((completedTasks / tasks.length) * 100)]. *)
Definition progress_of (tasks : list Task) : float :=
  let completedTasks := length (List.filter Database.is_completed tasks) in
  JS.Math_round ((JS.of_nat completedTasks / JS.of_nat (length tasks)) * 100)%float.

Definition handleExecute (args : ExecuteArgs) (context : CommandContext)
  : M CommandResult :=
  catch
    (match taskNumber args with
     | Some (S _ as taskNumber) =>
         let force := default false (force args) in
         (* Buscar TODO ativo *)
         do activeTodo <- query (Database.getActiveTodo (projectId context));
         match activeTodo with
         | None =>
             ret (failure "Nenhum TODO ativo encontrado"
                    "Execute /continuar para retomar ou /criar para novo TODO")
         | Some activeTodo =>
             (* Buscar tasks do TODO *)
             do tasks <- query (Database.listTasks (todo_ident activeTodo));
             match List.find (λ t, sequence_number t =? taskNumber)%nat tasks with
             | None =>
                 ret (failure ("Task " +:+ pretty taskNumber +:+ " não encontrada")
                        ("TODO " +:+ todo_ident activeTodo +:+ " possui "
                         +:+ pretty (length tasks) +:+ " tasks"))
             | Some targetTask =>
                 (* Verificar dependências *)
                 do pendingDependencies <-
                   (if negb force && (0 <? length (dependencies targetTask))%nat
                    then checkTaskDependencies targetTask
                    else ret []);
                 if (0 <? length pendingDependencies)%nat then
                   ret (failure
                          ("Task " +:+ pretty taskNumber
                           +:+ " possui dependências pendentes")
                          ("Dependências: " +:+ JS.join_numbers pendingDependencies))
                 else
                   (* Executar task *)
                   do executionResult <- executeTask targetTask activeTodo context;
                   (* Atualizar progresso do TODO *)
                   let progressPercentage := progress_of tasks in
                   do _ <- write_or_throw
                             (Database.updateTodo (todo_ident activeTodo)
                                {| Database.upd_todo_status := None;
                                   Database.upd_todo_completed_at := None;
                                   Database.upd_progress_percentage :=
                                     Some progressPercentage;
                                   Database.upd_current_task_index := Some taskNumber |});
                   ret {| success := true;
                          message := "Task " +:+ pretty taskNumber +:+ " executada";
                          data := Some (ExecuteData targetTask executionResult
                                          progressPercentage);
                          error := None |}
             end
         end
     | _ =>
         ret (failure "Número da task é obrigatório"
                "Parâmetro taskNumber não fornecido")
     end)
    (λ error, ret (failure "Erro ao executar task" error)).

Definition status_name (st : TaskStatus) : string :=
  match st with
  | pending => "pending" | in_progress => "in_progress"
  | completed => "completed" | failed => "failed" | skipped => "skipped"
  end.

Definition handleConfirm (args : ConfirmArgs) (context : CommandContext)
  : M CommandResult :=
  catch
    ((* Buscar task atual em execução *)
     do activeContext <- Context.getActiveContext (projectId context);
     match activeContext ≫= task_id with
     | Some (S _ as taskId) =>
         do task <- query (Database.getTask taskId);
         match task with
         | None =>
             ret (failure "Task não encontrada" ("Task ID: " +:+ pretty taskId))
         | Some task =>
             if negb (bool_decide (status task = in_progress)) then
               ret (failure "Task não está em execução"
                      ("Status atual: " +:+ status_name (status task)))
             else
               (* Confirmar task *)
               do completedAt <- Date_now;
               do confirmedAt <- Date_now;
               do _ <- write_or_throw
                         (Database.updateTask (task_ident task)
                            {| Database.upd_status := Some completed;
                               Database.upd_started_at := None;
                               Database.upd_completed_at := Some completedAt;
                               Database.upd_confirmed_by := userId context;
                               Database.upd_confirmed_at := Some confirmedAt;
                               Database.upd_code_snippet := None;
                               Database.upd_execution_time_seconds := None;
                               Database.upd_error_count := None;
                               Database.upd_last_error := None;
                               Database.upd_corrections_applied := None |});
               (* Buscar próxima task *)
               do todo <- query (Database.getTodo (todo_id task));
               do nextTask <-
                 query (Database.getNextTask (todo_id task) (sequence_number task));
               do nextAction <-
                 match nextTask, todo with
                 | Some next, _ =>
                     ret ("Próxima task: " +:+ pretty (sequence_number next)
                          +:+ " - " +:+ title next)
                 | None, Some todo =>
                     (* Verificar se TODO está completo *)
                     do allTasks <- query (Database.listTasks (todo_ident todo));
                     let completedTasks := List.filter Database.is_completed allTasks in
                     if (length completedTasks =? length allTasks)%nat then
                       do finishedAt <- Date_now;
                       do _ <- write_or_throw
                                 (Database.updateTodo (todo_ident todo)
                                    {| Database.upd_todo_status := Some todo_completed;
                                       Database.upd_todo_completed_at := Some finishedAt;
                                       Database.upd_progress_percentage := Some 100%float;
                                       Database.upd_current_task_index := None |});
                       ret "TODO concluído com sucesso! 🎉"
                     else ret "TODO concluído!"
                 | None, None => ret "TODO concluído!"
                 end;
               (* Atualizar contexto *)
               do stamp <- Date_now;
               do _ <- Context.saveContext
                         {| Context.cd_project_id := projectId context;
                            Context.cd_todo_id := Some (todo_id task);
                            Context.cd_task_id := nextTask ≫= task_ident;
                            Context.cd_next_action := Some nextAction;
                            Context.cd_notes :=
                              Some (if JS.truthy_string (arg_notes args)
                                    then default "" (arg_notes args)
                                    else "Task confirmada pelo usuário");
                            Context.cd_session_data :=
                              Some [("confirmedAt", pretty stamp);
                                    ("confirmedBy", default "" (userId context))];
                            Context.cd_file_path := None;
                            Context.cd_line_number := None;
                            Context.cd_cursor_position := None;
                            Context.cd_working_directory := None;
                            Context.cd_open_files := None;
                            Context.cd_terminal_output := None;
                            Context.cd_stack_depth := None;
                            Context.cd_parent_context_id := None |};
               ret {| success := true;
                      message := "Task confirmada com sucesso";
                      data := Some (ConfirmData task nextTask nextAction);
                      error := None |}
         end
     | _ =>
         ret (failure "Nenhuma task ativa para confirmar"
                "Execute uma task primeiro com /executar")
     end)
    (λ error, ret (failure "Erro ao confirmar task" error)).

Definition handleError (args : ErrorArgs) (context : CommandContext)
  : M CommandResult :=
  catch
    (if negb (JS.truthy_string (arg_description args)) then
       ret (failure "Descrição do erro é obrigatória"
              "Parâmetro description não fornecido")
     else
       let description := default "" (arg_description args) in
       (* Buscar task atual *)
       do activeContext <- Context.getActiveContext (projectId context);
       do currentTask <-
         match activeContext ≫= task_id with
         | Some (S _ as taskId) => query (Database.getTask taskId)
         | _ => ret None
         end;
       (* Criar bug report *)
       do now <- Date_now;
       let bugId := "BUG-" +:+ pretty now in
       do _ <- Date_now;
       do savedBug <-
         write (Database.createBug
                  {| bug_ident := bugId;
                     bug_project_id := projectId context;
                     bug_todo_id := todo_id <$> currentTask;
                     bug_title := String.substring 0 300 description;
                     bug_description := description;
                     error_message := stackTrace args;
                     stack_trace := stackTrace args;
                     severity := "medium";
                     category := Some "Logic";
                     bug_status := "open";
                     reported_by := userId context;
                     caused_by_todo := todo_id <$> currentTask |});
       (* Analisar erro com agentes *)
       let errorAnalysisRequest :=
         {| Orchestrator.req_projectId := projectId context;
            Orchestrator.req_description :=
              "ERRO: " +:+ description +:+
              (if JS.truthy_string (stackTrace args)
               then String (ascii_of_nat 10) (String (ascii_of_nat 10) "Stack Trace:")
                    +:+ String (ascii_of_nat 10) (default "" (stackTrace args))
               else "");
            Orchestrator.req_type := Some Orchestrator.req_analyze;
            Orchestrator.req_todo := None;
            Orchestrator.req_task := currentTask;
            Orchestrator.req_codeContext := None;
            Orchestrator.req_businessRules := [];
            Orchestrator.req_previousAnalyses := [] |} in
       do errorAnalysis <-
         await (Orchestrator.analyzeWithSpecificAgents analyze errorAnalysisRequest
                  [developer; qa; architect]);
       (* Atualizar task com erro *)
       do _ <-
         match currentTask with
         | Some currentTask =>
             do timestamp <- Date_now;
             do _ <- write_or_throw
                       (Database.updateTask (task_ident currentTask)
                          {| Database.upd_status := Some failed;
                             Database.upd_started_at := None;
                             Database.upd_completed_at := None;
                             Database.upd_confirmed_by := None;
                             Database.upd_confirmed_at := None;
                             Database.upd_code_snippet := None;
                             Database.upd_execution_time_seconds := None;
                             Database.upd_error_count :=
                               Some (error_count currentTask + 1);
                             Database.upd_last_error := Some description;
                             Database.upd_corrections_applied :=
                               Some (corrections_applied currentTask ++
                                     [{| corr_timestamp := timestamp;
                                         corr_error := description;
                                         corr_analysis := summary errorAnalysis |}]) |});
             ret tt
         | None => ret tt
         end;
       ret {| success := true;
              message := "Erro reportado e analisado";
              data := Some (ErrorData savedBug errorAnalysis currentTask);
              error := None |})
    (λ error, ret (failure "Erro ao processar erro reportado" error)).

End WithAgents.

End Processor.

(* ===================================================================== *)
(** ** database/service.ts, the other queries *)
(* ===================================================================== *)

Module Service.
Import Types Database.

(** [listTasks(todoId, status?)], with the optional filter on the status:
    [if (status) query = query.eq('status', status)].  A status is one of
    the names of [TaskStatus], none of which is empty. *)
Definition listTasks (todoId : string) (status : option TaskStatus) (s : Store)
  : list Task :=
  order_asc sequence_number
    (List.filter (λ t, String.eqb (todo_id t) todoId
                       && match status with
                          | Some st => bool_decide (Types.status t = st)
                          | None => true
                          end)
                 (tasks s)).

(** [createTodo]: the row is inserted with the store's [created_at]. *)
Definition createTodo (todo : Todo) (now : nat) (s : Store) : Todo * Store :=
  let row :=
    {| todo_ident := todo_ident todo;
       todo_project_id := todo_project_id todo;
       todo_title := todo_title todo;
       todo_description := todo_description todo;
       todo_type := todo_type todo;
       todo_priority := todo_priority todo;
       agent_consensus := agent_consensus todo;
       todo_status := todo_status todo;
       progress_percentage := progress_percentage todo;
       current_task_index := current_task_index todo;
       parent_todo_id := parent_todo_id todo;
       related_analysis_id := related_analysis_id todo;
       todo_created_at := now;
       todo_started_at := todo_started_at todo;
       todo_completed_at := todo_completed_at todo;
       estimated_hours := estimated_hours todo;
       actual_hours := actual_hours todo;
       created_by := created_by todo;
       assigned_to := assigned_to todo;
       tags := tags todo |} in
  (row, with_todos s (todos s ++ [row])).

(** [listTodos(projectId, status?)]. *)
Definition listTodos (projectId : string) (status : option TodoStatus) (s : Store)
  : list Todo :=
  let rows :=
    order_desc todo_created_at
      (List.filter (λ t, String.eqb (todo_project_id t) projectId) (todos s)) in
  match status with
  | Some st => List.filter (λ t, bool_decide (todo_status t = st)) rows
  | None => rows
  end.

Definition getCurrentTask (todoId : string) (s : Store) : option Task :=
  limit1_single
    (order_asc sequence_number
       (List.filter (λ t, String.eqb (todo_id t) todoId
                          && bool_decide (status t = in_progress))
                    (tasks s))).

(** [listBugs(projectId, status?)].  [reported_at] is set by the store when
    a row is inserted, so the table is in ascending order of it; the newest
    rows first are the rows in reverse. *)
Definition listBugs (projectId : string) (status : option string) (s : Store)
  : list Bug :=
  let rows :=
    rev (List.filter (λ b, String.eqb (bug_project_id b) projectId) (bugs s)) in
  if JS.truthy_string status
  then List.filter (λ b, String.eqb (bug_status b) (default "" status)) rows
  else rows.

(** [AnalysisSchema], the columns the statistics read. *)
Record Analysis := {
  analysis_ident : string;
  analysis_project_id : string;
  is_current : bool;
}.

Record ProjectStats := {
  totalTodos : nat;
  completedTodos : nat;
  totalTasks : nat;
  completedTasks : nat;
  totalBugs : nat;
  resolvedBugs : nat;
  activeAnalyses : nat;
}.

(** [getProjectStats].  The table of analyses is not part of [Store]; the
    query reads it from [analyses]. *)
Definition getProjectStats (projectId : string) (analyses : list Analysis) (s : Store)
  : ProjectStats :=
  (* Buscar todos os TODOs do projeto *)
  let todos := List.filter (λ t, String.eqb (todo_project_id t) projectId) (todos s) in
  let todoIds := map todo_ident todos in
  (* Buscar tasks dos TODOs *)
  let tasks :=
    if (0 <? length todoIds)%nat
    then List.filter (λ t, existsb (String.eqb (todo_id t)) todoIds) (tasks s)
    else [] in
  let bugs := List.filter (λ b, String.eqb (bug_project_id b) projectId) (bugs s) in
  let analyses :=
    List.filter (λ a, String.eqb (analysis_project_id a) projectId && is_current a)
                analyses in
  {| totalTodos := length todos;
     completedTodos :=
       length (List.filter (λ t, bool_decide (todo_status t = todo_completed)) todos);
     totalTasks := length tasks;
     completedTasks := length (List.filter is_completed tasks);
     totalBugs := length bugs;
     resolvedBugs :=
       length (List.filter (λ b, existsb (String.eqb (bug_status b)) ["resolved"; "closed"])
                           bugs);
     activeAnalyses := length analyses |}.

(** [getContextHistory(projectId, limit)]. *)
Definition getContextHistory (projectId : string) (limit : nat) (s : Store)
  : list ContextStack :=
  take limit
    (order_desc saved_at
       (List.filter (λ c, String.eqb (project_id c) projectId) (context_stack s))).

(** The rows [deleteOldContexts] removes: those of the project that are
    not active and were saved before the cutoff. *)
Definition old_context (projectId : string) (cutoffDate : nat) (c : ContextStack) : bool :=
  String.eqb (project_id c) projectId && negb (is_active c)
  && (saved_at c <? cutoffDate)%nat.

(** [deleteOldContexts]: the number of deleted rows. *)
Definition deleteOldContexts (projectId : string) (cutoffDate : nat) (s : Store)
  : nat * Store :=
  let data := List.filter (old_context projectId cutoffDate) (context_stack s) in
  (length data,
   with_contexts s
     (List.filter (λ c, negb (old_context projectId cutoffDate c)) (context_stack s))
     (next_context_id s)).

End Service.

(* ===================================================================== *)
(** ** utils/context.ts, the other methods of the manager *)
(* ===================================================================== *)

Module Manager.
Import Types.

(** [getContextHistory(projectId, limit = 10)]: the cache of the project is
    replaced by the rows read. *)
Definition getContextHistory (projectId : string) (limit : option nat)
  : M (list ContextStack) :=
  catch
    (do contexts <- query (Service.getContextHistory projectId (default 10 limit));
     (* Atualizar cache *)
     do cache <- get_cache;
     do _ <- set_cache (<[projectId := contexts]> cache);
     ret contexts)
    (λ _, ret []).

Section WithCalendar.
(** [cutoffDate.setDate(cutoffDate.getDate() - olderThanDays)]: the instant
    a number of calendar days before another, in the local time zone. *)
Variable daysBefore : nat → nat → nat.

(** [clearInactiveContexts(projectId, olderThanDays = 7)]. *)
Definition clearInactiveContexts (projectId : string) (olderThanDays : option nat)
  : M nat :=
  catch
    (do now <- Date_now;
     let cutoffDate := daysBefore now (default 7 olderThanDays) in
     do deletedCount <- write (Service.deleteOldContexts projectId cutoffDate);
     (* Limpar cache *)
     do cache <- get_cache;
     do _ <- set_cache (delete projectId cache);
     ret deletedCount)
    (λ _, ret 0).

End WithCalendar.

(** [formatAge] on the difference [now.getTime() - date.getTime()], in
    milliseconds.  The instants are integers below 2^53 in absolute value,
    on which [Math.floor(a / b)] is the floored quotient. *)
Definition age_of (diffMs : Z) : string :=
  let diffMinutes := (diffMs / (1000 * 60))%Z in
  let diffHours := (diffMinutes / 60)%Z in
  let diffDays := (diffHours / 24)%Z in
  if (0 <? diffDays)%Z then pretty diffDays +:+ " dia(s) atrás"
  else if (0 <? diffHours)%Z then pretty diffHours +:+ " hora(s) atrás"
  else if (0 <? diffMinutes)%Z then pretty diffMinutes +:+ " minuto(s) atrás"
  else "Agora mesmo".

Definition formatAge (date : nat) : M string :=
  do now <- Date_now;
  ret (age_of (Z.of_nat now - Z.of_nat date)).

Record ContextSummary := {
  sum_description : string;
  sum_location : string;
  sum_nextAction : string;
  sum_age : string;
}.

Definition getContextSummary (context : ContextStack) : M ContextSummary :=
  do age <- formatAge (saved_at context);
  let location :=
    if JS.truthy_string (file_path context)
    then default "" (file_path context) +:+ ":"
         +:+ pretty (if JS.truthy_number (line_number context)
                     then default 0 (line_number context) else 0)
    else if JS.truthy_string (working_directory context)
         then default "" (working_directory context) else "Unknown" in
  ret {| sum_description :=
           "TODO: "
           +:+ (if JS.truthy_string (ctx_todo_id context)
                then default "" (ctx_todo_id context) else "None")
           +:+ ", Task: "
           +:+ (if JS.truthy_number (task_id context)
                then pretty (default 0 (task_id context)) else "None");
         sum_location := location;
         sum_nextAction :=
           if JS.truthy_string (next_action context)
           then default "" (next_action context) else "No action defined";
         sum_age := age |}.

(** [getCacheStats]: the number of cached contexts per project. *)
Definition getCacheStats : M (gmap string nat) :=
  do cache <- get_cache;
  ret (length <$> cache).

End Manager.

(* ===================================================================== *)
(** ** commands/processor.ts, the other commands *)
(* ===================================================================== *)

Module Commands.
Import Types.

(** A [CommandResult] whose [data] has the shape of the command, without
    its [formatted] rendering. *)
Record Result (D : Type) := {
  success : bool;
  message : string;
  data : option D;
  error : option string;
}.
Arguments success {D} _.
Arguments message {D} _.
Arguments data {D} _.
Arguments error {D} _.

Definition failure {D} (message error : string) : Result D :=
  {| success := false; message := message; data := None; error := Some error |}.

Definition type_name (t : TodoType) : string :=
  match t with
  | feature => "feature" | bug => "bug" | analysis => "analysis"
  | architecture => "architecture" | optimization => "optimization"
  | refactor => "refactor"
  end.

Record CreateArgs := {
  arg_type : option TodoType;
  arg_description : option string;
  arg_priority : option Priority;
  arg_tags : option (list string);
}.

Record CreateData := {
  created_todo : Todo;
  created_tasks : list Task;
  created_analysis : MultiAgentAnalysis;
}.

Record ContinueSummary := {
  total : nat;
  completed_count : nat;
  inProgress : nat;
  pending_count : nat;
}.

Record ContinueData := {
  cont_todo : Todo;
  currentTask : option Task;
  allTasks : list Task;
  cont_context : ContextStack;
  cont_summary : ContinueSummary;
}.

Record StatusArgs := { detailed : option bool }.

Record StatusContext := {
  st_todoId : option string;
  st_taskId : option nat;
  st_nextAction : option string;
}.

Record StatusDetails := {
  det_activeTodos : list Todo;
  det_pendingTodos : list Todo;
  det_openBugs : list Bug;
  det_activeContext : option ContextStack;
}.

Record StatusData := {
  project_ident : string;
  project_stats : Service.ProjectStats;
  todos_active : nat;
  todos_pending : nat;
  todos_completed : nat;
  todos_total : nat;
  tasks_completed : nat;
  tasks_total : nat;
  bugs_open : nat;
  bugs_resolved : nat;
  bugs_total : nat;
  status_context : option StatusContext;
  status_detailed : option StatusDetails;
}.

(** [for (const task of tasks) { savedTasks.push(await this.db.createTask(task)) }]. *)
Fixpoint createTasks (tasks : list Task) : M (list Task) :=
  match tasks with
  | [] => ret []
  | task :: rest =>
      do savedTask <- write (Database.createTask task);
      do savedTasks <- createTasks rest;
      ret (savedTask :: savedTasks)
  end.

Section WithAgents.
Context {runtime : JS.Runtime}.
Variable analyze : AgentType → Orchestrator.Agent.
(** The JSON form in which the analysis is kept in [session_data]. *)
Variable JSON_stringify : MultiAgentAnalysis → string.
(** The table of analyses, which none of these commands writes. *)
Variable analyses : list Service.Analysis.

Definition handleCreate (args : CreateArgs) (context : CommandContext)
  : M (Result CreateData) :=
  catch
    (match arg_type args with
     | Some type =>
         if negb (JS.truthy_string (arg_description args)) then
           ret (failure "Tipo e descrição são obrigatórios"
                  "Parâmetros type e description não fornecidos")
         else
           let description := default "" (arg_description args) in
           let priority := default medium (arg_priority args) in
           let tags := default [] (arg_tags args) in
           (* Executar análise multi-agente *)
           let analysisRequest :=
             {| Orchestrator.req_projectId := projectId context;
                Orchestrator.req_description := description;
                Orchestrator.req_type := Some Orchestrator.req_create;
                Orchestrator.req_todo := None;
                Orchestrator.req_task := None;
                Orchestrator.req_codeContext := None;
                Orchestrator.req_businessRules := [];
                Orchestrator.req_previousAnalyses := [] |} in
           do multiAgentAnalysis <-
             await (Orchestrator.analyzeWithAllAgents analyze analysisRequest);
           (* Criar TODO *)
           do stamp <- Date_now;
           let todoId := "TODO-" +:+ pretty stamp in
           let todo :=
             {| todo_ident := todoId;
                todo_project_id := projectId context;
                todo_title := String.substring 0 500 description;
                todo_description := Some description;
                todo_type := type;
                todo_priority := priority;
                agent_consensus := consensus multiAgentAnalysis;
                todo_status := todo_pending;
                progress_percentage := 0%float;
                current_task_index := 0;
                parent_todo_id := None;
                related_analysis_id := None;
                todo_created_at := 0;
                todo_started_at := None;
                todo_completed_at := None;
                estimated_hours := None;
                actual_hours := None;
                created_by := "/criar " +:+ type_name type;
                assigned_to := userId context;
                tags := tags ++ [type_name type] |} in
           do created <- Date_now;
           do savedTodo <- write (Service.createTodo todo created);
           (* Gerar tasks baseadas na análise *)
           let tasks := Processor.generateTasksFromAnalysis savedTodo multiAgentAnalysis in
           (* Salvar tasks *)
           do savedTasks <- createTasks tasks;
           (* Salvar contexto inicial *)
           do createdAt <- Date_now;
           do _ <- Context.saveContext
                     {| Context.cd_project_id := projectId context;
                        Context.cd_todo_id := Some todoId;
                        Context.cd_task_id := head savedTasks ≫= task_ident;
                        Context.cd_next_action :=
                          Some "Revisar TODO criado e executar primeira task";
                        Context.cd_session_data :=
                          Some [("multiAgentAnalysis", JSON_stringify multiAgentAnalysis);
                                ("createdAt", pretty createdAt)];
                        Context.cd_file_path := None;
                        Context.cd_line_number := None;
                        Context.cd_cursor_position := None;
                        Context.cd_working_directory := None;
                        Context.cd_open_files := None;
                        Context.cd_terminal_output := None;
                        Context.cd_notes := None;
                        Context.cd_stack_depth := None;
                        Context.cd_parent_context_id := None |};
           ret {| success := true;
                  message := "TODO " +:+ type_name type +:+ " criado com "
                             +:+ pretty (length savedTasks) +:+ " tasks";
                  data := Some {| created_todo := savedTodo;
                                  created_tasks := savedTasks;
                                  created_analysis := multiAgentAnalysis |};
                  error := None |}
     | None =>
         ret (failure "Tipo e descrição são obrigatórios"
                "Parâmetros type e description não fornecidos")
     end)
    (λ error, ret (failure "Erro ao criar TODO" error)).

Definition handleContinue (context : CommandContext) : M (Result ContinueData) :=
  catch
    ((* Buscar contexto ativo *)
     do activeContext <- Context.getActiveContext (projectId context);
     match activeContext with
     | None =>
         ret (failure "Nenhum contexto ativo encontrado"
                "Inicie um novo TODO com /criar")
     | Some activeContext =>
         (* Buscar TODO e task atuais *)
         do todo <-
           (if JS.truthy_string (ctx_todo_id activeContext)
            then query (Database.getTodo (default "" (ctx_todo_id activeContext)))
            else ret None);
         do task <-
           (if JS.truthy_number (task_id activeContext)
            then query (Database.getTask (default 0 (task_id activeContext)))
            else ret None);
         match todo with
         | None =>
             ret (failure "TODO do contexto não encontrado"
                    "Contexto pode estar corrompido")
         | Some todo =>
             (* Buscar todas as tasks do TODO *)
             do allTasks <- query (Database.listTasks (todo_ident todo));
             let pendingTasks :=
               List.filter (λ t, bool_decide (status t = pending)) allTasks in
             let inProgressTasks :=
               List.filter (λ t, bool_decide (status t = in_progress)) allTasks in
             let completedTasks :=
               List.filter (λ t, bool_decide (status t = completed)) allTasks in
             (* Atualizar status do TODO se necessário *)
             do _ <-
               (if bool_decide (todo_status todo = todo_pending)
                   && ((0 <? length inProgressTasks)%nat
                       || (0 <? length completedTasks)%nat)
                then
                  do _ <- write_or_throw
                            (Database.updateTodo (todo_ident todo)
                               {| Database.upd_todo_status := Some todo_in_progress;
                                  Database.upd_todo_completed_at := None;
                                  Database.upd_progress_percentage := None;
                                  Database.upd_current_task_index := None |});
                  ret tt
                else ret tt);
             ret {| success := true;
                    message := "Contexto recuperado com sucesso";
                    data := Some {| cont_todo := todo;
                                    currentTask := task;
                                    allTasks := allTasks;
                                    cont_context := activeContext;
                                    cont_summary :=
                                      {| total := length allTasks;
                                         completed_count := length completedTasks;
                                         inProgress := length inProgressTasks;
                                         pending_count := length pendingTasks |} |};
                    error := None |}
         end
     end)
    (λ error, ret (failure "Erro ao recuperar contexto" error)).

Definition handleStatus (args : StatusArgs) (context : CommandContext)
  : M (Result StatusData) :=
  catch
    (let detailed := default false (detailed args) in
     (* Buscar estatísticas do projeto *)
     do stats <- query (Service.getProjectStats (projectId context) analyses);
     (* Buscar TODOs ativos *)
     do activeTodos <-
       query (Service.listTodos (projectId context) (Some todo_in_progress));
     do pendingTodos <-
       query (Service.listTodos (projectId context) (Some todo_pending));
     do completedTodos <-
       query (Service.listTodos (projectId context) (Some todo_completed));
     (* Buscar bugs abertos *)
     do openBugs <- query (Service.listBugs (projectId context) (Some "open"));
     (* Buscar contexto ativo *)
     do activeContext <- Context.getActiveContext (projectId context);
     ret {| success := true;
            message := "Status do projeto";
            data :=
              Some {| project_ident := projectId context;
                      project_stats := stats;
                      todos_active := length activeTodos;
                      todos_pending := length pendingTodos;
                      todos_completed := length completedTodos;
                      todos_total := Service.totalTodos stats;
                      tasks_completed := Service.completedTasks stats;
                      tasks_total := Service.totalTasks stats;
                      bugs_open := length openBugs;
                      bugs_resolved := Service.resolvedBugs stats;
                      bugs_total := Service.totalBugs stats;
                      status_context :=
                        (λ c, {| st_todoId := ctx_todo_id c;
                                 st_taskId := task_id c;
                                 st_nextAction := next_action c |}) <$> activeContext;
                      status_detailed :=
                        if detailed
                        then Some {| det_activeTodos := activeTodos;
                                     det_pendingTodos := pendingTodos;
                                     det_openBugs := openBugs;
                                     det_activeContext := activeContext |}
                        else None |};
            error := None |})
    (λ error, ret (failure "Erro ao obter status" error)).

End WithAgents.

End Commands.

(* ===================================================================== *)
(** ** agents/orchestrator.ts, the inspection of an analysis *)
(* ===================================================================== *)

Module Quality.
Import Types.

Record Report := {
  isValid : bool;
  issues : list string;
  advice : list string;                      (* recommendations *)
}.

(** [consensus[agent]]. *)
Definition consensus_get (c : AgentConsensus) (a : AgentType) : option string :=
  match a with
  | architect => cons_architect c | developer => cons_developer c
  | dba => cons_dba c | qa => cons_qa c
  | business => cons_business c | po => cons_po c
  end.

Definition averageConfidence (responses : list AgentResponse) : float :=
  (foldl (λ sum r, sum + confidence r) 0 responses / JS.of_nat (length responses))%float.

Definition expectedAgents : list AgentType :=
  [architect; developer; dba; qa; business; po].

Definition missingAgents (responses : list AgentResponse) : list AgentType :=
  let respondedAgents := map agent responses in
  List.filter (λ a, negb (existsb (λ b, bool_decide (b = a)) respondedAgents))
              expectedAgents.

Definition validateAnalysisQuality (analysis : MultiAgentAnalysis) : Report :=
  (* Verificar confiança geral *)
  let avgConfidence := averageConfidence (responses analysis) in
  let '(issues, recommendations) :=
    if (avgConfidence <? 0.6)%float
    then (["Confiança média baixa na análise"],
          ["Revisar contexto e fornecer mais informações"])
    else ([], []) in
  (* Verificar se todos os agentes responderam *)
  let missingAgents := missingAgents (responses analysis) in
  let '(issues, recommendations) :=
    if (0 <? length missingAgents)%nat
    then (issues ++ ["Agentes não responderam: "
                     +:+ String.concat ", " (map agent_name missingAgents)],
          recommendations ++ ["Verificar se todos os agentes estão funcionando"])
    else (issues, recommendations) in
  (* Verificar divergências críticas *)
  let hasHighRiskWarnings :=
    existsb (λ r, JS.includes (response r) "CRÍTICO"
                  || JS.includes (response r) "ATENÇÃO")
            (responses analysis) in
  let recommendations :=
    if hasHighRiskWarnings
    then recommendations ++ ["Revisar cuidadosamente os alertas de risco";
                             "Considerar implementação faseada"]
    else recommendations in
  {| isValid := (length issues =? 0)%nat;
     issues := issues;
     advice := recommendations |}.

End Quality.

(* ===================================================================== *)
(** ** The header pattern of [generateConsensus], on UTF-16 code units *)
(* ===================================================================== *)

(** [generateConsensus] removes the header of a response with
    [response.replace(/^[🏗️💻🗄️🧪📊🎯]\s*\*\*[^*]+\*\*:\s*/, '')].  The
    pattern has no [u] flag, so it is matched against the UTF-16 code units
    of the text, and its character class is the set of the code units of the
    six symbols: a class matches one code unit.  A text is a list of code
    units here. *)
Module Header.

(** The code units of [🏗️💻🗄️🧪📊🎯]: U+1F3D7 U+FE0F, U+1F4BB, U+1F5C4
    U+FE0F, U+1F9EA, U+1F4CA, U+1F3AF. *)
Definition class : list N :=
  [ 0xD83C; 0xDFD7; 0xFE0F; 0xD83D; 0xDCBB; 0xD83D; 0xDDC4; 0xFE0F;
    0xD83E; 0xDDEA; 0xD83D; 0xDCCA; 0xD83C; 0xDFAF ]%N.

Definition asterisk : N := 42.
Definition colon : N := 58.

(** [\s]: the white space and the line terminators of ECMAScript. *)
Definition is_space (c : N) : bool :=
  existsb (N.eqb c)
    [ 9; 10; 11; 12; 13; 32; 160; 0x1680; 0x2028; 0x2029; 0x202F; 0x205F;
      0x3000; 0xFEFF ]%N
  || ((0x2000 <=? c)%N && (c <=? 0x200A)%N).

(** [\s*], greedy.  What follows it in the pattern is an asterisk or the
    end, and an asterisk is no white space, so giving back a code unit never
    helps: the longest run is the only candidate. *)
Fixpoint spaces (s : list N) : list N :=
  match s with
  | c :: rest => if is_space c then spaces rest else s
  | [] => []
  end.

(** [[^*]*], greedy; what follows it is an asterisk, so again the longest
    run is the only candidate. *)
Fixpoint not_asterisks (s : list N) : list N :=
  match s with
  | c :: rest => if (c =? asterisk)%N then s else not_asterisks rest
  | [] => []
  end.

(** The text after a match of the pattern at the start, if it matches. *)
Definition after_header (s : list N) : option (list N) :=
  match s with
  | c :: s1 =>
      if existsb (N.eqb c) class then
        match spaces s1 with
        | 42%N :: 42%N :: name :: s2 =>
            if (name =? asterisk)%N then None
            else match not_asterisks s2 with
                 | 42%N :: 42%N :: 58%N :: s3 => Some (spaces s3)
                 | _ => None
                 end
        | _ => None
        end
      else None
  | [] => None
  end.

(** [text.replace(pattern, '')]: the pattern is anchored, so the match, if
    any, is at the start. *)
Definition replace (s : list N) : list N := default s (after_header s).

End Header.

(* ===================================================================== *)
(** ** utils/logger.ts *)
(* ===================================================================== *)

Module Logger.

Inductive LogLevel := DEBUG | INFO | WARN | ERROR.

(** The numeric value of a level. *)
Definition rank (l : LogLevel) : nat :=
  match l with DEBUG => 0 | INFO => 1 | WARN => 2 | ERROR => 3 end.

(** [LogLevel[level]]. *)
Definition level_name (l : LogLevel) : string :=
  match l with DEBUG => "DEBUG" | INFO => "INFO" | WARN => "WARN" | ERROR => "ERROR" end.

(** An [Error] object. *)
Record Error := { error_message : string; stack : option string }.

(** [xs.slice(start)]: a negative [start] counts from the end. *)
Definition slice_from {A} (start : Z) (xs : list A) : list A :=
  let len := Z.of_nat (length xs) in
  let k := if (start <? 0)%Z then Z.max (len + start) 0 else Z.min start len in
  drop (Z.to_nat k) xs.

Section WithPayload.
(** The values passed as [data] ([any]) and their truthiness; the text of
    an instant ([toISOString]); [new Error(message)], which fills in the
    stack; [String(value)]. *)
Variable Payload : Type.
Variable truthy : Payload → bool.
Variable toISOString : nat → string.
Variable new_Error : string → Error.
Variable String_of : option Payload → string.

Record LogEntry := {
  timestamp : nat;
  level : LogLevel;
  component : string;
  message : string;
  data : option Payload;
  error_object : option Error;              (* error *)
}.

Inductive Channel := console_debug | console_info | console_warn | console_error.

Inductive Argument := text (s : string) | value (p : Payload).

(** The static members of [Logger], the console and the clock.  [maxLogs]
    is an integer. *)
Record State := {
  globalLevel : LogLevel;
  logs : list LogEntry;
  maxLogs : Z;
  console : list (Channel * list Argument);
  now : nat;
}.

Definition setLevel (level : LogLevel) (s : State) : State :=
  {| globalLevel := level; logs := logs s; maxLogs := maxLogs s;
     console := console s; now := now s |}.

Definition setMaxLogs (max : Z) (s : State) : State :=
  {| globalLevel := globalLevel s; logs := logs s; maxLogs := max;
     console := console s; now := now s |}.

Definition getLogs (component_filter : option string) (level_filter : option LogLevel)
    (s : State) : list LogEntry :=
  let filteredLogs := logs s in
  let filteredLogs :=
    if JS.truthy_string component_filter
    then List.filter (λ log, String.eqb (component log) (default "" component_filter))
                     filteredLogs
    else filteredLogs in
  let filteredLogs :=
    match level_filter with
    | Some l => List.filter (λ log, (rank l <=? rank (level log))%nat) filteredLogs
    | None => filteredLogs
    end in
  slice_from (-100) filteredLogs.  (* Últimos 100 logs *)

Definition clearLogs (s : State) : State :=
  {| globalLevel := globalLevel s; logs := []; maxLogs := maxLogs s;
     console := console s; now := now s |}.

(** [entry.data || '']. *)
Definition data_or_empty (entry : LogEntry) : Argument :=
  match data entry with
  | Some p => if truthy p then value p else text ""
  | None => text ""
  end.

Definition outputToConsole (entry : LogEntry) : list (Channel * list Argument) :=
  let timestamp := toISOString (timestamp entry) in
  let levelName := level_name (level entry) in
  let prefix := "[" +:+ timestamp +:+ "] [" +:+ levelName +:+ "] ["
                +:+ component entry +:+ "]" in
  match level entry with
  | DEBUG => [(console_debug, [text (prefix +:+ " " +:+ message entry); data_or_empty entry])]
  | INFO => [(console_info, [text (prefix +:+ " " +:+ message entry); data_or_empty entry])]
  | WARN => [(console_warn, [text (prefix +:+ " " +:+ message entry); data_or_empty entry])]
  | ERROR =>
      [(console_error, [text (prefix +:+ " " +:+ message entry)])]
      ++ match error_object entry with
         | Some e =>
             [(console_error,
               [text (if JS.truthy_string (stack e) then default "" (stack e)
                      else error_message e)])]
         | None => []
         end
      ++ match data entry with
         | Some p => if truthy p then [(console_error, [text "Data:"; value p])] else []
         | None => []
         end
  end.

(** [log(level, message, data?, error?)] of the logger of a component. *)
Definition log (this : string) (level : LogLevel) (message : string)
    (data : option Payload) (error : option Error) (s : State) : State :=
  if (rank level <? rank (globalLevel s))%nat then s
  else
    let entry :=
      {| timestamp := now s; level := level; component := this; message := message;
         data := data; error_object := error |} in
    (* Adicionar ao array de logs *)
    let logs := logs s ++ [entry] in
    (* Manter apenas os últimos N logs *)
    let logs :=
      if (maxLogs s <? Z.of_nat (length logs))%Z
      then slice_from (- maxLogs s) logs
      else logs in
    (* Output para console *)
    {| globalLevel := globalLevel s; logs := logs; maxLogs := maxLogs s;
       console := console s ++ outputToConsole entry; now := S (now s) |}.

Definition debug (this message : string) (data : option Payload) : State → State :=
  log this DEBUG message data None.

Definition info (this message : string) (data : option Payload) : State → State :=
  log this INFO message data None.

Definition warn (this message : string) (data : option Payload) : State → State :=
  log this WARN message data None.

(** The second argument of [error]: an [Error], or any other value. *)
Inductive Thrown := an_Error (e : Error) | other (v : option Payload).

Definition error (this message : string) (thrown : Thrown) : State → State :=
  let errorObj :=
    match thrown with
    | an_Error e => e
    | other v => new_Error (String_of v)
    end in
  log this ERROR message None (Some errorObj).

(** [child(subComponent)]: the component of the child logger. *)
Definition child (this subComponent : string) : string :=
  this +:+ "." +:+ subComponent.

End WithPayload.

Arguments timestamp {Payload} _.
Arguments level {Payload} _.
Arguments component {Payload} _.
Arguments message {Payload} _.
Arguments data {Payload} _.
Arguments error_object {Payload} _.
Arguments globalLevel {Payload} _.
Arguments logs {Payload} _.
Arguments maxLogs {Payload} _.
Arguments console {Payload} _.
Arguments now {Payload} _.
Arguments setLevel {Payload} _ _.
Arguments setMaxLogs {Payload} _ _.
Arguments getLogs {Payload} _ _ _.
Arguments clearLogs {Payload} _.
Arguments log {Payload} _ _ _ _ _ _ _ _.
Arguments debug {Payload} _ _ _ _ _ _.
Arguments info {Payload} _ _ _ _ _ _.
Arguments warn {Payload} _ _ _ _ _ _.
Arguments error {Payload} _ _ _ _ _ _ _ _.

End Logger.

(* ===================================================================== *)
(** * Properties *)
(* ===================================================================== *)

(** ** Confidence scoring *)

Section ConfidenceFacts.
Import Base.
Local Open Scope Z_scope.

Definition in_range (x : Z) : Prop := 1 <= x <= 5.

Lemma in_range_cases x : in_range x → x = 1 ∨ x = 2 ∨ x = 3 ∨ x = 4 ∨ x = 5.
Proof. unfold in_range. lia. Qed.

Lemma in_range_In x : in_range x → In x factor_range.
Proof.
  intros H. destruct (in_range_cases x H) as [->|[->|[->|[->| ->]]]];
    unfold factor_range; simpl; tauto.
Qed.

(** The score of four integer factors. *)
Definition score (c f r d : Z) : float := calculateConfidence (factors_of c f r d).

Example score_3_4_2_4 : score 3 4 2 4 = 0.45%float.
Proof. vm_compute. reflexivity. Qed.

Example score_best : score 1 5 1 5 = 1%float.
Proof. vm_compute. reflexivity. Qed.

Example score_worst : score 5 1 5 1 = 0.1%float.
Proof. vm_compute. reflexivity. Qed.

(** [Math.round] on a few telling arguments. *)
Example Math_round_ties :
  JS.Math_round 2.5 = 3%float ∧ JS.Math_round (-2.5) = (-2)%float ∧
  JS.Math_round 0.49999999999999994 = 0%float ∧ JS.Math_round 44.99999999999999 = 45%float.
Proof. vm_compute. repeat split; reflexivity. Qed.

(** A conjunction over the elements of a list, which evaluates. *)
Fixpoint all_in {A} (P : A → Prop) (l : list A) : Prop :=
  match l with
  | [] => True
  | x :: l' => P x ∧ all_in P l'
  end.

Lemma all_in_In {A} (P : A → Prop) l : all_in P l → ∀ x, In x l → P x.
Proof.
  induction l as [|y l IH]; simpl; [tauto|].
  intros [Hy Hl] x [->|Hx]; auto.
Qed.

Definition meets_spec (c f r d : Z) : Prop :=
  calculateConfidence (factors_of c f r d) = nearest_double (spec_confidence c f r d)
  ∧ (0.1 <=? calculateConfidence (factors_of c f r d))%float = true
  ∧ (calculateConfidence (factors_of c f r d) <=? 1)%float = true
  ∧ PrimFloat.is_finite (calculateConfidence (factors_of c f r d)) = true.

Lemma meets_spec_on_range :
  all_in (λ c, all_in (λ f, all_in (λ r, all_in (λ d,
    meets_spec c f r d) factor_range) factor_range) factor_range) factor_range.
Proof. vm_compute. repeat split. Qed.

(** C7: on integer factors between 1 and 5 the code returns the binary64
    number nearest to the value the specification computes in exact
    arithmetic (base, penalties, clamp to [0.10, 1.00], two decimals); the
    result lies between 0.10 and 1.00 and is a finite number. *)
Theorem calculateConfidence_meets_spec (c f r d : Z) :
  in_range c → in_range f → in_range r → in_range d →
  calculateConfidence (factors_of c f r d) = nearest_double (spec_confidence c f r d)
  ∧ (0.1 <=? calculateConfidence (factors_of c f r d))%float = true
  ∧ (calculateConfidence (factors_of c f r d) <=? 1)%float = true
  ∧ PrimFloat.is_finite (calculateConfidence (factors_of c f r d)) = true.
Proof.
  intros Hc Hf Hr Hd.
  pose proof meets_spec_on_range as H.
  apply all_in_In with (x := c) in H; [|by apply in_range_In].
  apply all_in_In with (x := f) in H; [|by apply in_range_In].
  apply all_in_In with (x := r) in H; [|by apply in_range_In].
  apply all_in_In with (x := d) in H; [|by apply in_range_In].
  exact H.
Qed.

(** The statement at the factors (3, 4, 2, 4), whose score is 0.45. *)
Lemma calculateConfidence_meets_spec_witness :
  calculateConfidence (factors_of 3 4 2 4) = nearest_double (spec_confidence 3 4 2 4)
  ∧ (0.1 <=? calculateConfidence (factors_of 3 4 2 4))%float = true
  ∧ (calculateConfidence (factors_of 3 4 2 4) <=? 1)%float = true
  ∧ PrimFloat.is_finite (calculateConfidence (factors_of 3 4 2 4)) = true.
Proof.
  apply (calculateConfidence_meets_spec 3 4 2 4); unfold in_range; lia.
Defined.

(** The four comparisons at one point of the range, as tests. *)
Definition monotone_at (c f r d x : Z) : Prop :=
  implb (c <=? x) (score x f r d <=? score c f r d)%float = true
  ∧ implb (r <=? x) (score c f x d <=? score c f r d)%float = true
  ∧ implb (f <=? x) (score c f r d <=? score c x r d)%float = true
  ∧ implb (d <=? x) (score c f r d <=? score c f r x)%float = true.

Lemma monotone_on_range :
  all_in (λ c, all_in (λ f, all_in (λ r, all_in (λ d, all_in (λ x,
    monotone_at c f r d x)
    factor_range) factor_range) factor_range) factor_range) factor_range.
Proof. vm_compute. repeat split. Qed.

(** C8: with the other three factors fixed, the score does not increase
    when complexity or risk grows and does not decrease when familiarity
    or data quality grows, clamping and rounding included. *)
Theorem calculateConfidence_monotone (c f r d x : Z) :
  in_range c → in_range f → in_range r → in_range d → in_range x →
  (c <= x → (score x f r d <=? score c f r d)%float = true)
  ∧ (r <= x → (score c f x d <=? score c f r d)%float = true)
  ∧ (f <= x → (score c f r d <=? score c x r d)%float = true)
  ∧ (d <= x → (score c f r d <=? score c f r x)%float = true).
Proof.
  intros Hc Hf Hr Hd Hx.
  pose proof monotone_on_range as H.
  apply all_in_In with (x := c) in H; [|by apply in_range_In].
  apply all_in_In with (x := f) in H; [|by apply in_range_In].
  apply all_in_In with (x := r) in H; [|by apply in_range_In].
  apply all_in_In with (x := d) in H; [|by apply in_range_In].
  apply all_in_In with (x := x) in H; [|by apply in_range_In].
  destruct H as (H1 & H2 & H3 & H4).
  repeat split; intros Hle%Z.leb_le.
  - rewrite Hle in H1. exact H1.
  - rewrite Hle in H2. exact H2.
  - rewrite Hle in H3. exact H3.
  - rewrite Hle in H4. exact H4.
Qed.

(** The four comparisons around the factors (2, 3, 2, 3). *)
Lemma calculateConfidence_monotone_witness :
  (score 4 3 2 3 <=? score 2 3 2 3)%float = true
  ∧ (score 2 3 4 3 <=? score 2 3 2 3)%float = true
  ∧ (score 2 3 2 3 <=? score 2 4 2 3)%float = true
  ∧ (score 2 3 2 3 <=? score 2 3 2 4)%float = true.
Proof.
  destruct (calculateConfidence_monotone 2 3 2 3 4) as (H1 & H2 & H3 & H4);
    try (unfold in_range; lia).
  split; [apply H1; lia|]. split; [apply H2; lia|].
  split; [apply H3; lia|apply H4; lia].
Defined.

End ConfidenceFacts.

(** ** Built-ins: insertion-ordered sets and the stable sort *)

Section BuiltinFacts.

Lemma filter_filter_andb {A} (p q : A → bool) l :
  List.filter p (List.filter q l) = List.filter (λ x, q x && p x) l.
Proof.
  induction l as [|x l IH]; simpl; [done|].
  destruct (q x); simpl; [destruct (p x)|]; by rewrite IH.
Qed.

Lemma existsb_app_single (x y : string) acc :
  existsb (String.eqb y) (acc ++ [x]) = existsb (String.eqb y) acc || String.eqb y x.
Proof. rewrite existsb_app. simpl. by rewrite orb_false_r. Qed.

(** Folding [Set_add] over a list appends to the accumulator the first
    occurrences that are not in it yet. *)
Lemma fold_Set_add xs : ∀ acc,
  fold_left JS.Set_add xs acc =
  acc ++ List.filter (λ y, negb (existsb (String.eqb y) acc)) (Orchestrator.spec_dedupe xs).
Proof.
  induction xs as [|x xs IH]; intros acc; simpl.
  - by rewrite app_nil_r.
  - rewrite IH. unfold JS.Set_add.
    destruct (existsb (String.eqb x) acc) eqn:E; simpl.
    + f_equal. rewrite filter_filter_andb. apply filter_ext. intros y.
      destruct (String.eqb x y) eqn:Exy; simpl; [|done].
      apply String.eqb_eq in Exy. subst y. by rewrite E.
    + rewrite <- app_assoc. simpl. do 2 f_equal.
      rewrite filter_filter_andb. apply filter_ext. intros y.
      rewrite existsb_app_single, negb_orb, (String.eqb_sym y x).
      apply andb_comm.
Qed.

Lemma Set_from_dedupe xs : JS.Set_from xs = Orchestrator.spec_dedupe xs.
Proof.
  unfold JS.Set_from. rewrite fold_Set_add. simpl.
  induction (Orchestrator.spec_dedupe xs) as [|y l IH]; simpl; [done|]. by rewrite IH.
Qed.

Lemma In_dedupe x xs : In x (Orchestrator.spec_dedupe xs) ↔ In x xs.
Proof.
  induction xs as [|y xs IH]; simpl; [done|].
  rewrite filter_In, IH. split.
  - intros [->|[H _]]; auto.
  - intros [->|H]; [by left|].
    destruct (String.eqb y x) eqn:E.
    + apply String.eqb_eq in E. by left.
    + by right.
Qed.

Lemma NoDup_dedupe xs : List.NoDup (Orchestrator.spec_dedupe xs).
Proof.
  induction xs as [|y xs IH]; simpl; constructor.
  - rewrite filter_In. intros [_ H]. by rewrite String.eqb_refl in H.
  - by apply List.NoDup_filter.
Qed.

(** Sorting with a two-valued rank puts the rank-one elements first and
    keeps the order inside each class. *)
Section TwoClasses.
Context {A : Type} (p : A → bool).

Definition rank (a : A) : Z := if p a then 1%Z else 0%Z.
Definition by_rank (a b : A) : Z := (rank b - rank a)%Z.

Lemma insert_first_class x l :
  p x = true → JS.sort_insert by_rank x l = x :: l.
Proof.
  intros Px. destruct l as [|y l]; simpl; [done|].
  unfold by_rank, rank. rewrite Px. by destruct (p y).
Qed.

Lemma insert_second_class x front back :
  p x = false → forallb p front = true → forallb (λ a, negb (p a)) back = true →
  JS.sort_insert by_rank x (front ++ back) = front ++ x :: back.
Proof.
  intros Px Hfront Hback.
  induction front as [|y front IH]; simpl in *.
  - destruct back as [|z back]; simpl in *; [done|].
    apply andb_true_iff in Hback as [Pz _].
    unfold by_rank, rank. rewrite Px. by destruct (p z).
  - apply andb_true_iff in Hfront as [Py Hfront].
    unfold by_rank at 1, rank. rewrite Px, Py. simpl. by rewrite IH.
Qed.

Lemma forallb_filter_self (q : A → bool) l : forallb q (List.filter q l) = true.
Proof.
  induction l as [|x l IH]; simpl; [done|].
  destruct (q x) eqn:E; simpl; [by rewrite E|done].
Qed.

Lemma sort_two_classes l :
  JS.sort by_rank l = List.filter p l ++ List.filter (λ a, negb (p a)) l.
Proof.
  induction l as [|x l IH]; simpl; [done|].
  fold (JS.sort by_rank l). rewrite IH.
  destruct (p x) eqn:Px; simpl.
  - by apply insert_first_class.
  - apply insert_second_class; auto using forallb_filter_self.
Qed.
End TwoClasses.

Lemma NoDup_two_classes {A} (p : A → bool) l :
  List.NoDup l → List.NoDup (List.filter p l ++ List.filter (λ a, negb (p a)) l).
Proof.
  intros Hl. apply NoDup_ListNoDup, NoDup_app. repeat split.
  - by apply NoDup_ListNoDup, List.NoDup_filter.
  - intros x H1%list_elem_of_In H2%list_elem_of_In.
    apply filter_In in H1 as [_ H1]. apply filter_In in H2 as [_ H2].
    by rewrite H1 in H2.
  - by apply NoDup_ListNoDup, List.NoDup_filter.
Qed.

End BuiltinFacts.

(** ** Orchestrator: fan-out and recommendations *)

Section OrchestratorFacts.
Import Types Orchestrator.
Context {runtime : JS.Runtime}.
Variable analyze : AgentType → Agent.

(** The union of all suggestion lists, in the order of the responses. *)
Definition spec_union (responses : list AgentResponse) : list string :=
  concat (map (λ r, default [] (suggestions r)) responses).

Lemma collect_suggestions responses : ∀ acc,
  foldl (λ all resp, match suggestions resp with
                     | Some s => all ++ s
                     | None => all
                     end) acc responses
  = acc ++ spec_union responses.
Proof.
  unfold spec_union.
  induction responses as [|r rs IH]; intros acc; simpl.
  - by rewrite app_nil_r.
  - rewrite IH. destruct (suggestions r); simpl; [by rewrite app_assoc|done].
Qed.

(** C9: the recommendations are the union of the suggestion lists,
    de-duplicated by exact text equality (first occurrences kept), arranged
    stably with the suggestions that contain an urgency keyword first, and
    cut to the first ten; so they hold no duplicate, are at most ten, and
    every one of them is a suggestion of some response. *)
Theorem generateRecommendations_ranked (responses : list AgentResponse) :
  generateRecommendations responses
  = take 10 (spec_urgent_first (spec_dedupe (spec_union responses)))
  ∧ List.NoDup (generateRecommendations responses)
  ∧ (length (generateRecommendations responses) ≤ 10)%nat
  ∧ (∀ x, In x (spec_dedupe (spec_union responses)) ↔
          ∃ r s, In r responses ∧ suggestions r = Some s ∧ In x s)
  ∧ (∀ x, In x (generateRecommendations responses) →
          ∃ r s, In r responses ∧ suggestions r = Some s ∧ In x s).
Proof.
  assert (Heq : generateRecommendations responses
    = take 10 (spec_urgent_first (spec_dedupe (spec_union responses)))).
  { unfold generateRecommendations, JS.slice0, spec_urgent_first.
    rewrite collect_suggestions. simpl. rewrite Set_from_dedupe.
    f_equal. apply (sort_two_classes hasPriority). }
  assert (Hmem : ∀ x, In x (spec_dedupe (spec_union responses)) ↔
          ∃ r s, In r responses ∧ suggestions r = Some s ∧ In x s).
  { intros x. rewrite In_dedupe. unfold spec_union. rewrite in_concat. split.
    - intros (l & Hl & Hx). apply in_map_iff in Hl as (r & <- & Hr).
      destruct (suggestions r) as [s|] eqn:E; simpl in Hx; [|done].
      by exists r, s.
    - intros (r & s & Hr & Hs & Hx). exists s. split; [|done].
      apply in_map_iff. exists r. by rewrite Hs. }
  split; [exact Heq|]. rewrite Heq.
  split; [|split; [|split; [exact Hmem|]]].
  - apply NoDup_ListNoDup. eapply sublist_NoDup; [|apply sublist_take].
    apply NoDup_ListNoDup, NoDup_two_classes, NoDup_dedupe.
  - rewrite length_take. lia.
  - intros x Hx%list_elem_of_In. apply subseteq_take, list_elem_of_In in Hx.
    unfold spec_urgent_first in Hx. apply in_app_iff in Hx.
    apply Hmem. destruct Hx as [Hx|Hx]; by apply filter_In in Hx as [Hx _].
Qed.

(** An urgent suggestion precedes the others even when it was suggested last. *)
Example urgent_first_sample :
  generateRecommendations (runtime := JS.lower_ascii_runtime)
    [ {| agent := qa; response := ""; confidence := 0.5%float;
         suggestions := Some ["testar fluxo"; "validar dados"] |};
      {| agent := dba; response := ""; confidence := 0.5%float;
         suggestions := Some ["validar dados"; "impacto em performance"] |} ]
  = ["impacto em performance"; "testar fluxo"; "validar dados"].
Proof. reflexivity. Qed.

Lemma initializeAgents_all :
  initializeAgents analyze = map (λ type, (type, analyze type)) all_types.
Proof. reflexivity. Qed.

Lemma agents_get_registered (type : AgentType) :
  agents_get analyze type = Some (analyze type).
Proof. by destruct type. Qed.

Lemma guarded_entry context type :
  guarded type (analyze type) context = Return (spec_entry analyze context type).
Proof. unfold guarded, spec_entry, try_catch. by destruct (analyze type context). Qed.

Lemma Promise_all_guarded context types :
  Promise_all (map (λ '(type, agent), guarded type agent context)
                   (map (λ type, (type, analyze type)) types))
  = Return (map (spec_entry analyze context) types).
Proof.
  induction types as [|type types IH]; simpl; [done|].
  by rewrite guarded_entry, IH.
Qed.

Lemma collect_entries context types : ∀ acc,
  collect analyze context types acc
  = Return (acc ++ map (spec_entry analyze context) types).
Proof.
  induction types as [|type types IH]; intros acc; simpl.
  - by rewrite app_nil_r.
  - rewrite agents_get_registered, guarded_entry, IH. by rewrite <- app_assoc.
Qed.

(** C2: both fan-outs return, whatever the evaluators do, and the responses
    of the analysis they return are one per selected evaluator, in the order
    of the selection (six for all agents): the evaluator's own response, or,
    where its [analyze] threw, the degraded response of its type with
    confidence 0.1 and the manual review as its suggestions. *)
Theorem fan_out_returns_one_response_each (request : AnalysisRequest)
    (agentTypes : list AgentType) :
  let context := context_of request in
  let entry (type : AgentType) : AgentResponse :=
    match analyze type context with
    | Return r => r
    | Throw _ =>
        {| agent := type;
           response := "❌ Erro na análise do agente " +:+ agent_name type;
           confidence := 0.1%float;
           suggestions := Some ["Revisar manualmente"] |}
    end in
  (∃ a, analyzeWithAllAgents analyze request = Return a
        ∧ responses a = map entry [architect; developer; dba; qa; business; po]
        ∧ length (responses a) = 6)
  ∧ (∃ b, analyzeWithSpecificAgents analyze request agentTypes = Return b
          ∧ responses b = map entry agentTypes
          ∧ length (responses b) = length agentTypes
          ∧ ∀ i type, agentTypes !! i = Some type →
              responses b !! i = Some (entry type)).
Proof.
  intros context entry.
  assert (Hentry : ∀ types, map (spec_entry analyze context) types = map entry types).
  { intros types. apply map_ext. intros type. unfold spec_entry, entry, degraded.
    by destruct (analyze type context). }
  split.
  - exists (synthesize (map (spec_entry analyze context) all_types)).
    split; [|split].
    + unfold analyzeWithAllAgents. rewrite initializeAgents_all.
      fold context. by rewrite Promise_all_guarded.
    + exact (Hentry all_types).
    + reflexivity.
  - exists (synthesize (map (spec_entry analyze context) agentTypes)).
    split; [|split; [|split]].
    + unfold analyzeWithSpecificAgents. fold context. by rewrite collect_entries.
    + exact (Hentry agentTypes).
    + cbn [responses synthesize]. by rewrite length_map.
    + intros i type Hi. cbn [responses synthesize]. rewrite Hentry.
      by rewrite list_lookup_fmap, Hi.
Qed.

End OrchestratorFacts.

(** Six evaluators of which all but one throw: six responses, five of them
    degraded. *)
Example one_survivor :
  let analyze : Types.AgentType → Orchestrator.Agent :=
    λ type _, match type with
              | Types.qa => Return {| Types.agent := Types.qa; Types.response := "ok";
                                      Types.confidence := 0.8%float;
                                      Types.suggestions := None |}
              | _ => Throw "boom"
              end in
  ∃ a, Orchestrator.analyzeWithAllAgents (runtime := JS.lower_ascii_runtime) analyze
         {| Orchestrator.req_projectId := "P"; Orchestrator.req_description := "d";
            Orchestrator.req_type := None; Orchestrator.req_todo := None;
            Orchestrator.req_task := None; Orchestrator.req_codeContext := None;
            Orchestrator.req_businessRules := [];
            Orchestrator.req_previousAnalyses := [] |} = Return a
       ∧ map Types.confidence (Types.responses a)
         = [0.1; 0.1; 0.1; 0.8; 0.1; 0.1]%float
       ∧ Types.recommendations a = ["Revisar manualmente"].
Proof. eexists. repeat split. Qed.

(** ** Task generation *)

Module Samples.
Import Types.

Definition todo (id : string) (st : TodoStatus) (created : nat) : Todo :=
  {| todo_ident := id; todo_project_id := "P"; todo_title := "Relatório de vendas";
     todo_description := None; todo_type := feature; todo_priority := medium;
     agent_consensus := empty_consensus; todo_status := st;
     progress_percentage := 0%float; current_task_index := 0;
     parent_todo_id := None; related_analysis_id := None;
     todo_created_at := created; todo_started_at := None;
     todo_completed_at := None; estimated_hours := None; actual_hours := None;
     created_by := "/criar feature";
     assigned_to := None; tags := ["feature"] |}.

(** A consensus to which only the QA evaluator contributed. *)
Definition qa_only : MultiAgentAnalysis :=
  {| consensus := consensus_set empty_consensus qa "Testar bordas";
     responses := []; summary := ""; recommendations := [] |}.

Definition empty_store : Database.Store :=
  {| Database.todos := []; Database.tasks := []; Database.next_task_id := 1;
     Database.bugs := []; Database.context_stack := [];
     Database.next_context_id := 1 |}.

(** A freshly started server on an empty store. *)
Definition fresh : World := {| db := empty_store; contextStack := ∅; clock := 0 |}.

(** The data of a push that only carries a note. *)
Definition noted (note : string) : Context.PartialContextData :=
  {| Context.pcd_project_id := None; Context.pcd_todo_id := None;
     Context.pcd_task_id := None; Context.pcd_file_path := None;
     Context.pcd_line_number := None; Context.pcd_cursor_position := None;
     Context.pcd_working_directory := None; Context.pcd_open_files := None;
     Context.pcd_terminal_output := None; Context.pcd_session_data := None;
     Context.pcd_next_action := None; Context.pcd_notes := Some note;
     Context.pcd_stack_depth := None; Context.pcd_parent_context_id := None |}.

(** A task row. *)
Definition task (id : nat) (todoId : string) (seq : nat) (st : TaskStatus)
    (deps : list nat) : Task :=
  {| task_ident := Some id; todo_id := todoId; sequence_number := seq;
     title := "Passo " +:+ pretty seq; description := None;
     owner_agent := match seq with 1 => architect | 2 => developer | _ => qa end;
     status := st; code_snippet := None; code_language := "csharp";
     test_scenarios := []; started_at := None; completed_at := None;
     execution_time_seconds := None; error_count := 0; last_error := None;
     corrections_applied := []; requires_confirmation := true;
     auto_confirmed := false; confirmed_by := None; confirmed_at := None;
     dependencies := deps; completion_criteria := [] |}.

Definition user : CommandContext :=
  {| projectId := "P"; userId := Some "ana"; sessionId := None |}.

(** A store with two work items.  The first, finished, holds the task rows
    1 to 3; the second, in progress, holds the rows 4 to 6, numbered 1 to 3
    within it and chained as the generator chains them. *)
Definition second_item (first : TaskStatus) : World :=
  {| db := {| Database.todos := [todo "TODO-1" todo_completed 0;
                                 todo "TODO-2" todo_in_progress 10];
              Database.tasks := [task 1 "TODO-1" 1 first [];
                                 task 2 "TODO-1" 2 first [1];
                                 task 3 "TODO-1" 3 first [2];
                                 task 4 "TODO-2" 1 (match first with
                                                    | completed => pending
                                                    | _ => completed
                                                    end) [];
                                 task 5 "TODO-2" 2 pending [1];
                                 task 6 "TODO-2" 3 pending [2]];
              Database.next_task_id := 7;
              Database.bugs := [];
              Database.context_stack := [];
              Database.next_context_id := 1 |};
     contextStack := ∅;
     clock := 20 |}.

(** A store with one work item in progress whose first step is being
    executed; the active context points at that step. *)
Definition context_row (id : nat) (taskId : nat) : ContextStack :=
  {| ctx_ident := Some id; project_id := "P"; ctx_todo_id := Some "TODO-1";
     task_id := Some taskId; file_path := None; line_number := None;
     cursor_position := None; working_directory := None; open_files := [];
     terminal_output := None; session_data := []; next_action := None;
     notes := None; saved_at := 1; resumed_at := None; is_active := true;
     stack_depth := 0; parent_context_id := None |}.

Definition executing (rest : TaskStatus) : World :=
  {| db := {| Database.todos := [todo "TODO-1" todo_in_progress 0];
              Database.tasks := [task 1 "TODO-1" 1 in_progress [];
                                 task 2 "TODO-1" 2 rest [1]];
              Database.next_task_id := 3;
              Database.bugs := [];
              Database.context_stack := [context_row 1 1];
              Database.next_context_id := 2 |};
     contextStack := ∅;
     clock := 5 |}.

(** An evaluator that answers, and one that always throws. *)
Definition answering : AgentType → Orchestrator.Agent :=
  λ type _, Return {| agent := type; response := "feito"; confidence := 0.8%float;
                      suggestions := Some ["validar dados"] |}.

Definition throwing : AgentType → Orchestrator.Agent := λ _ _, Throw "indisponível".

(** What the scenarios show of a context row: its note, whether it is
    active, and when it was resumed. *)
Definition brief (c : ContextStack) : option string * bool * option nat :=
  (notes c, is_active c, resumed_at c).

End Samples.

Section GenerationFacts.
Import Types Processor.

(** The shape the specification gives to a generated sequence: numbers 1,
    2, ... without gaps, the first step without dependencies, every later
    step depending exactly on its predecessor, and every dependency naming a
    step of the same list with a smaller number. *)
Definition well_chained (tasks : list Task) : Prop :=
  map sequence_number tasks = seq 1 (length tasks)
  ∧ (∀ i t, tasks !! i = Some t →
            dependencies t = match i with 0 => [] | S _ => [i] end)
  ∧ (∀ t d, In t tasks → In d (dependencies t) →
            d < sequence_number t
            ∧ ∃ t', In t' tasks ∧ sequence_number t' = d ∧ todo_id t' = todo_id t).

(** When the consensus has a developer entry, or has no QA entry, the
    generated sequence has that shape, and its first step is the planning
    step. *)
Lemma generateTasks_chained_with_developer (todo : Todo) (analysis : MultiAgentAnalysis) :
  JS.truthy_string (cons_developer (consensus analysis)) = true
  ∨ JS.truthy_string (cons_qa (consensus analysis)) = false →
  well_chained (generateTasksFromAnalysis todo analysis)
  ∧ (title <$> head (generateTasksFromAnalysis todo analysis))
    = Some "Análise detalhada e planejamento".
Proof.
  intros H. unfold generateTasksFromAnalysis.
  destruct (JS.truthy_string (cons_developer (consensus analysis))) eqn:Ed;
  destruct (JS.truthy_string (cons_qa (consensus analysis))) eqn:Eq;
    try (destruct H; discriminate); simpl;
    (split; [split; [reflexivity|split]|reflexivity]).
  all: try (intros [|[|[|i]]] t Ht; simpl in Ht; by inversion Ht).
  all: intros t d Ht Hd; simpl in Ht;
    repeat (destruct Ht as [<-|Ht]; [simpl in Hd|]); try done;
    repeat (destruct Hd as [<-|Hd]; [|try done]); try done;
    (split; [simpl; lia|]); eexists;
    (split; [ (left; reflexivity) + (right; left; reflexivity)
              + (right; right; left; reflexivity)
            | split; reflexivity ]).
Qed.


(** The generator called on its own with a consensus that has a QA entry
    and no developer entry, which no command passes to it: the steps are
    numbered 1 and 3, and step 3 depends on a step 2 that was not
    generated. *)
Example generateTasks_gap_without_developer :
  let tasks := generateTasksFromAnalysis (Samples.todo "TODO-1" todo_pending 0)
                 Samples.qa_only in
  map sequence_number tasks = [1; 3]
  ∧ map dependencies tasks = [[]; [2]]
  ∧ ¬ (∃ t, In t tasks ∧ sequence_number t = 2)
  ∧ ¬ well_chained tasks.
Proof.
  simpl. repeat split.
  - intros (t & [<-|[<-|[]]] & Ht); discriminate.
  - intros (Hseq & _). discriminate.
Qed.

End GenerationFacts.


(** ** The context stack *)

Section ContextFacts.
Import Types Context.

(** *** The store *)

Lemma update_where_deactivate_none p rows :
  List.filter (λ c, String.eqb (project_id c) p && is_active c)
    (Database.update_where (λ c, String.eqb (project_id c) p) Database.deactivate rows)
  = [].
Proof.
  induction rows as [|c rows IH]; simpl; [done|].
  destruct (String.eqb (project_id c) p) eqn:E; simpl.
  - by rewrite E.
  - by rewrite E.
Qed.

Lemma update_where_deactivate_other p q rows :
  p ≠ q →
  List.filter (λ c, String.eqb (project_id c) q && is_active c)
    (Database.update_where (λ c, String.eqb (project_id c) p) Database.deactivate rows)
  = List.filter (λ c, String.eqb (project_id c) q && is_active c) rows.
Proof.
  intros Hpq. induction rows as [|c rows IH]; simpl; [done|].
  destruct (String.eqb (project_id c) p) eqn:E; simpl.
  - apply String.eqb_eq in E. rewrite E.
    assert (String.eqb p q = false) as -> by by apply String.eqb_neq.
    simpl. exact IH.
  - by rewrite IH.
Qed.

(** [DatabaseService.saveContext] leaves the saved row as the only active
    row of its project, and the active rows of other projects as they were. *)
Lemma saveContext_single_active (context : ContextStack) (now : nat) (s : Database.Store) :
  Database.active_rows (project_id context) (snd (Database.saveContext context now s))
  = [fst (Database.saveContext context now s)]
  ∧ is_active (fst (Database.saveContext context now s)) = true
  ∧ ∀ q, project_id context ≠ q →
         Database.active_rows q (snd (Database.saveContext context now s))
         = Database.active_rows q s.
Proof.
  unfold Database.active_rows, Database.saveContext. simpl. repeat split.
  - rewrite List.filter_app, update_where_deactivate_none. simpl.
    by rewrite String.eqb_refl.
  - intros q Hq. rewrite List.filter_app, update_where_deactivate_other by done.
    simpl. assert (String.eqb (project_id context) q = false) as ->
      by by apply String.eqb_neq.
    simpl. by rewrite app_nil_r.
Qed.

(** *** The manager *)

(** The row a [saveContext] creates and the state it leaves. *)
Definition saved_row (data : ContextData) (w : World) : ContextStack :=
  Database.inserted_context (contextToSave data) (Database.next_context_id (db w)) (clock w).

Definition after_save (data : ContextData) (w : World) : World :=
  {| db := snd (Database.saveContext (contextToSave data) (clock w) (db w));
     contextStack :=
       <[cd_project_id data :=
           default [] (contextStack w !! cd_project_id data) ++ [saved_row data w]]>
         (contextStack w);
     clock := S (clock w) |}.

Lemma saveContext_run data w :
  saveContext data w = (Return (saved_row data w), after_save data w).
Proof. reflexivity. Qed.

Lemma getActiveContext_cached p c w :
  List.find is_active (default [] (contextStack w !! p)) = Some c →
  getActiveContext p w = (Return (Some c), w).
Proof.
  intros H. unfold getActiveContext, catch, bind, get_cache. simpl. by rewrite H.
Qed.

Lemma getActiveContext_none p w :
  List.find is_active (default [] (contextStack w !! p)) = None →
  Database.active_rows p (db w) = [] →
  getActiveContext p w = (Return None, w).
Proof.
  intros H Hs. unfold getActiveContext, catch, bind, get_cache, query. simpl.
  rewrite H. unfold Database.getActiveContext.
  unfold Database.active_rows in Hs. by rewrite Hs.
Qed.

(** Reading the active context never throws and writes nothing to the
    store. *)
Lemma getActiveContext_reads p w :
  ∃ o w', getActiveContext p w = (Return o, w') ∧ db w' = db w ∧ clock w' = clock w.
Proof.
  unfold getActiveContext, catch, bind, get_cache, query. simpl.
  destruct (List.find is_active (default [] (contextStack w !! p))); [by eauto|].
  destruct (Database.getActiveContext p (db w)); simpl; by eauto.
Qed.


(** [popContext] without a parent: when the context that [getActiveContext]
    finds has no parent, the result is [null] and the store is untouched. *)
Lemma popContext_without_parent (p : string) (w w1 : World) (current : ContextStack) :
  getActiveContext p w = (Return (Some current), w1) →
  JS.truthy_number (parent_context_id current) = false →
  popContext p w = (Return None, w1) ∧ db w1 = db w.
Proof.
  intros Hget Hparent. split.
  - unfold popContext, catch, bind. rewrite Hget.
    by destruct (parent_context_id current) as [[|n]|].
  - destruct (getActiveContext_reads p w) as (o & w' & Heq & Hdb & _).
    rewrite Heq in Hget. by simplify_eq.
Qed.

(** push(A), push(B), pop() on one manager. *)
Definition push_push_pop : M (option ContextStack) :=
  do _ <- pushContext "P" (Samples.noted "A");
  do _ <- pushContext "P" (Samples.noted "B");
  popContext "P".

(** The same with the cache cleared before the pop. *)
Definition push_push_clear_pop : M (option ContextStack) :=
  do _ <- pushContext "P" (Samples.noted "A");
  do _ <- pushContext "P" (Samples.noted "B");
  do _ <- clearCache None;
  popContext "P".

(** C6, at the input where it fails: after push(A) and push(B) on a fresh
    manager, pop() finds the stale cached A, which has no parent; it returns
    [null], and the store keeps B active and A inactive, never resumed. *)
Theorem pop_after_two_pushes_finds_no_parent :
  let '(result, w) := push_push_pop Samples.fresh in
  result = Return None
  ∧ map Samples.brief (Database.context_stack (db w))
    = [(Some "A", false, None); (Some "B", true, None)]
  ∧ map Samples.brief (default [] (contextStack w !! "P"))
    = [(Some "A", true, None); (Some "B", true, None)].
Proof. vm_compute. repeat split. Qed.

(** When the cache is cleared first, the pop reactivates A in the store and
    sets its [resumed_at]; the object it returns is the row as it was read
    before that update. *)
Lemma pop_with_cleared_cache :
  let '(result, w) := push_push_clear_pop Samples.fresh in
  (Samples.brief <$> (match result with Return o => o | Throw _ => None end))
  = Some (Some "A", false, None)
  ∧ map Samples.brief (Database.context_stack (db w))
    = [(Some "A", true, Some 2); (Some "B", false, None)].
Proof. vm_compute. repeat split. Qed.

(** push, push, an update of the current context, two more pushes, pop. *)
Definition pop_through_stale_cache : M (option ContextStack) :=
  do _ <- pushContext "P" (Samples.noted "A");
  do _ <- pushContext "P" (Samples.noted "B");
  do _ <- updateCurrentContext "P" (Samples.noted "A2");
  do _ <- pushContext "P" (Samples.noted "C");
  do _ <- pushContext "P" (Samples.noted "D");
  popContext "P".

(** push, push, a restart of the server (the cache starts empty, the store
    persists), push, pop. *)
Definition pop_after_restart : M (option ContextStack) :=
  do _ <- pushContext "P" (Samples.noted "A");
  do _ <- pushContext "P" (Samples.noted "B");
  do _ <- clearCache None;
  do _ <- pushContext "P" (Samples.noted "C");
  popContext "P".

(** C1, at the inputs where it fails.  In the first run the update refreshes
    the cached A, so B becomes the first cached entry with the active flag
    and stays so; the pop after the pushes of C and D takes B for the
    current context and reactivates its parent A while D is still active in
    the store.  In the second run the restarted manager caches B as active,
    the push of C leaves that flag set, and the pop reactivates A while C is
    active.  Either way the project ends with two active rows. *)
Theorem pop_through_stale_cache_leaves_two_active :
  (let '(_, w) := pop_through_stale_cache Samples.fresh in
   map Samples.brief (Database.context_stack (db w))
   = [ (Some "A2", true, Some 4); (Some "B", false, None);
       (Some "C", false, None); (Some "D", true, None) ]
   ∧ length (Database.active_rows "P" (db w)) = 2)
  ∧ (let '(_, w) := pop_after_restart Samples.fresh in
     map Samples.brief (Database.context_stack (db w))
     = [ (Some "A", true, Some 3); (Some "B", false, None); (Some "C", true, None) ]
     ∧ length (Database.active_rows "P" (db w)) = 2).
Proof. vm_compute. repeat split. Qed.

(** What does hold: every [saveContext] of the manager, and so every push,
    leaves the row it created as the only active row of its project. *)
Lemma saveContext_leaves_one_active (data : ContextData) (w : World) :
  Database.active_rows (cd_project_id data) (db (after_save data w)) = [saved_row data w].
Proof.
  pose proof (saveContext_single_active (contextToSave data) (clock w) (db w))
    as (Hact & _). exact Hact.
Qed.

(** A cached entry with the active flag keeps being returned after further
    saves on the project: the cache only ever appends. *)
Lemma getActiveContext_sticky (data : ContextData) (w : World) (c : ContextStack) :
  List.find is_active (default [] (contextStack w !! cd_project_id data)) = Some c →
  getActiveContext (cd_project_id data) (after_save data w)
  = (Return (Some c), after_save data w).
Proof.
  intros Hc. apply getActiveContext_cached.
  unfold after_save. cbn [contextStack]. rewrite lookup_insert_eq.
  cbn [default from_option id].
  induction (default [] (contextStack w !! cd_project_id data)) as [|x l IH];
    simpl in *; [done|].
  destruct (is_active x); [done|auto].
Qed.

End ContextFacts.

(** ** The store: updates by identifier and ordered listings *)

Section StoreFacts.
Import Types Database.

Lemma filter_update_where {A} (p : A → bool) (f : A → A) rows :
  (∀ x, p (f x) = p x) →
  List.filter p (update_where p f rows) = map f (List.filter p rows).
Proof.
  intros Hp. induction rows as [|x rows IH]; simpl; [done|].
  destruct (p x) eqn:E; simpl.
  - by rewrite Hp, E, IH.
  - by rewrite E, IH.
Qed.

Lemma single_map {A B} (f : A → B) rows : single (map f rows) = f <$> single rows.
Proof. by destruct rows as [|x [|y rows]]. Qed.

Lemma single_In {A} (rows : list A) row : single rows = Some row → rows = [row].
Proof. destruct rows as [|x [|y rows]]; simpl; congruence. Qed.

(** Sorting rearranges: it keeps the members and the length. *)
Lemma sort_insert_Permutation {A} (cmp : A → A → Z) x l :
  JS.sort_insert cmp x l ≡ₚ x :: l.
Proof.
  induction l as [|y l IH]; simpl; [done|].
  destruct (cmp x y <=? 0)%Z; [done|]. rewrite IH. apply Permutation_swap.
Qed.

Lemma sort_Permutation {A} (cmp : A → A → Z) l : JS.sort cmp l ≡ₚ l.
Proof.
  induction l as [|x l IH]; simpl; [done|].
  fold (JS.sort cmp l). by rewrite sort_insert_Permutation, IH.
Qed.

(** Sorting commutes with a row update that keeps the sort key. *)
Lemma sort_insert_map {A} (cmp : A → A → Z) (f : A → A) x l :
  (∀ a b, cmp (f a) (f b) = cmp a b) →
  JS.sort_insert cmp (f x) (map f l) = map f (JS.sort_insert cmp x l).
Proof.
  intros Hf. induction l as [|y l IH]; simpl; [done|].
  rewrite Hf. destruct (cmp x y <=? 0)%Z; simpl; [done|]. by rewrite IH.
Qed.

Lemma sort_map {A} (cmp : A → A → Z) (f : A → A) l :
  (∀ a b, cmp (f a) (f b) = cmp a b) →
  JS.sort cmp (map f l) = map f (JS.sort cmp l).
Proof.
  intros Hf. induction l as [|x l IH]; simpl; [done|].
  fold (JS.sort cmp (map f l)) (JS.sort cmp l).
  by rewrite IH, sort_insert_map.
Qed.

Lemma forallb_length_filter {A} (f : A → bool) l :
  (length (List.filter f l) =? length l)%nat = forallb f l.
Proof.
  induction l as [|x l IH]; simpl; [done|].
  destruct (f x); simpl; [exact IH|].
  pose proof (List.filter_length_le f l).
  apply Nat.eqb_neq. lia.
Qed.

(** *** TODOs *)

Lemma getTodo_ident id s row : getTodo id s = Some row → todo_ident row = id.
Proof.
  unfold getTodo. intros H%single_In.
  assert (In row (List.filter (λ t, String.eqb (todo_ident t) id) (todos s)))
    as [_ Hrow%String.eqb_eq]%filter_In by (rewrite H; by left).
  done.
Qed.

(** [updateTodo] succeeds exactly on an identifier that [getTodo] finds, and
    then [getTodo] finds the updated row. *)
Lemma updateTodo_found id u s row :
  getTodo id s = Some row →
  ∃ s', updateTodo id u s = (Return (apply_todo u row), s')
        ∧ getTodo id s' = Some (apply_todo u row)
        ∧ tasks s' = tasks s ∧ context_stack s' = context_stack s.
Proof.
  unfold getTodo, updateTodo. intros H. rewrite H. eexists. split; [done|].
  simpl. rewrite filter_update_where by done.
  rewrite single_map, H. done.
Qed.

Lemma updateTodo_missing id u s :
  getTodo id s = None → ∃ e, updateTodo id u s = (Throw e, s).
Proof. unfold getTodo, updateTodo. intros ->. by eexists. Qed.

(** *** Tasks *)

(** [updateTask] either throws and leaves the store as it was, or rewrites
    the rows with the identifier; the other tables are not touched. *)
Lemma updateTask_cases id u s :
  (∃ e, updateTask id u s = (Throw e, s))
  ∨ (∃ n row, id = Some n ∧ getTask n s = Some row
       ∧ updateTask id u s
         = (Return (apply_task u row),
            with_tasks s (update_where (has_id task_ident n) (apply_task u) (tasks s))
                       (next_task_id s))).
Proof.
  unfold updateTask, getTask. destruct id as [n|]; [|left; by eexists].
  destruct (single (List.filter (has_id task_ident n) (tasks s))) as [row|] eqn:E.
  - right. by exists n, row.
  - left. by eexists.
Qed.

Lemma updateTask_todos id u s : todos (snd (updateTask id u s)) = todos s.
Proof.
  destruct (updateTask_cases id u s) as [(e & ->)|(n & row & _ & _ & ->)]; done.
Qed.

End StoreFacts.

(** ** Effects: what a command leaves untouched *)

Section FrameFacts.
Context {B : Type} (proj : Database.Store → B).

(** A command keeps a part of the store when that part is the same after
    it, whether it returned or threw. *)
Definition keeps {A} (m : M A) : Prop := ∀ w, proj (db (snd (m w))) = proj (db w).

Lemma keeps_ret {A} (a : A) : keeps (ret a).
Proof. by intros w. Qed.

Lemma keeps_throw {A} e : keeps (@throw A e).
Proof. by intros w. Qed.

Lemma keeps_bind {A C} (m : M A) (k : A → M C) :
  keeps m → (∀ a, keeps (k a)) → keeps (bind m k).
Proof.
  intros Hm Hk w. unfold bind. specialize (Hm w).
  destruct (m w) as [[a|e] w1]; simpl in *; [|done].
  by rewrite Hk.
Qed.

Lemma keeps_catch {A} (m : M A) (h : string → M A) :
  keeps m → (∀ e, keeps (h e)) → keeps (catch m h).
Proof.
  intros Hm Hh w. unfold catch. specialize (Hm w).
  destruct (m w) as [[a|e] w1]; simpl in *; [done|].
  by rewrite Hh.
Qed.

Lemma keeps_query {A} (q : Database.Store → A) : keeps (query q).
Proof. by intros w. Qed.

Lemma keeps_await {A} (r : outcome A) : keeps (await r).
Proof. by intros w. Qed.

Lemma keeps_Date_now : keeps Date_now.
Proof. by intros w. Qed.

Lemma keeps_get_cache : keeps get_cache.
Proof. by intros w. Qed.

Lemma keeps_set_cache c : keeps (set_cache c).
Proof. by intros w. Qed.

Lemma keeps_write {A} (f : Database.Store → A * Database.Store) :
  (∀ s, proj (snd (f s)) = proj s) → keeps (write f).
Proof. intros Hf w. unfold write. specialize (Hf (db w)). by destruct (f (db w)). Qed.

Lemma keeps_write_or_throw {A} (f : Database.Store → outcome A * Database.Store) :
  (∀ s, proj (snd (f s)) = proj s) → keeps (write_or_throw f).
Proof.
  intros Hf w. unfold write_or_throw. specialize (Hf (db w)). by destruct (f (db w)).
Qed.

End FrameFacts.

Section ContextFrame.
Import Types Context.

Lemma getActiveContext_keeps {B} (proj : Database.Store → B) p :
  keeps proj (getActiveContext p).
Proof.
  intros w. destruct (getActiveContext_reads p w) as (o & w' & -> & Hdb & _).
  simpl. by rewrite Hdb.
Qed.

(** Saving a context writes to the context table only. *)
Lemma saveContext_keeps_todos data : keeps Database.todos (saveContext data).
Proof. intros w. by rewrite saveContext_run. Qed.

End ContextFrame.

(** ** The progress percentage *)

Section ProgressFacts.
Import Types Processor.

(** [Math.round((completedTasks / tasks.length) * 100)] on the two counts. *)
Definition percentage (completedTasks total : nat) : float :=
  JS.Math_round ((JS.of_nat completedTasks / JS.of_nat total) * 100)%float.

(** The percentage in exact arithmetic, a half rounded up. *)
Definition spec_percentage (completedTasks total : nat) : Z :=
  ((200 * Z.of_nat completedTasks + Z.of_nat total) / (2 * Z.of_nat total))%Z.

Lemma progress_of_counts tasks :
  progress_of tasks
  = percentage (length (List.filter Database.is_completed tasks)) (length tasks).
Proof. reflexivity. Qed.

Lemma percentage_exact_table :
  all_in (λ total,
            all_in (λ k, percentage k total = JS.of_Z (spec_percentage k total))
                   (seq 0 (S total)))
         (seq 1 39).
Proof. vm_compute. repeat split. Qed.

(** Up to 39 steps the double arithmetic of [progress_of] gives the exactly
    rounded percentage. *)
Lemma progress_of_exact tasks :
  (1 ≤ length tasks ≤ 39)%nat →
  progress_of tasks
  = JS.of_Z (spec_percentage (length (List.filter Database.is_completed tasks))
                             (length tasks)).
Proof.
  intros Hlen. rewrite progress_of_counts.
  pose proof (List.filter_length_le Database.is_completed tasks) as Hle.
  pose proof percentage_exact_table as H.
  apply all_in_In with (x := length tasks) in H; [|apply in_seq; lia].
  apply all_in_In with (x := length (List.filter Database.is_completed tasks)) in H;
    [done|apply in_seq; lia].
Qed.

(** With 40 steps it does not: [23 / 40] is a double just below 0.575, its
    product with 100 a double just below 57.5, and [Math.round] gives 57 where
    the exact quotient 57.5 rounds to 58. *)
Example percentage_23_of_40 :
  percentage 23 40 = 57%float ∧ spec_percentage 23 40 = 58%Z.
Proof. vm_compute. split; reflexivity. Qed.

End ProgressFacts.

(** ** The workflow commands *)

Section WorkflowFacts.
Import Types Processor.
Context {runtime : JS.Runtime}.
Variable analyze : AgentType → Orchestrator.Agent.

Ltac frame :=
  repeat first
    [ apply keeps_ret | apply keeps_throw | apply keeps_query | apply keeps_await
    | apply keeps_Date_now | apply keeps_get_cache | apply keeps_set_cache
    | apply getActiveContext_keeps | apply saveContext_keeps_todos
    | apply keeps_catch | apply keeps_bind
    | (apply keeps_write_or_throw; intros; apply updateTask_todos)
    | (apply keeps_write; intros; reflexivity)
    | match goal with
      | |- ∀ _, _ => intro
      | |- keeps _ (match ?x with _ => _ end) => destruct x
      | |- keeps _ (if ?x then _ else _) => destruct x
      end ].

(** [handleError] never writes to the table of work items. *)
Lemma handleError_keeps_todos args context :
  keeps Database.todos
    (handleError analyze args context).
Proof. unfold handleError. frame. Qed.

(** The step that [executeTask] started: both of its updates hit the single
    row with the identifier of the task, which ends [in_progress]; nothing
    else is written. *)
Definition started (startedAt : nat) (code : string) (t : Task) : Task :=
  Database.apply_task
    {| Database.upd_status := None; Database.upd_started_at := None;
       Database.upd_completed_at := None; Database.upd_confirmed_by := None;
       Database.upd_confirmed_at := None; Database.upd_code_snippet := Some code;
       Database.upd_execution_time_seconds := Some 1;
       Database.upd_error_count := None; Database.upd_last_error := None;
       Database.upd_corrections_applied := None |}
    (Database.apply_task
       {| Database.upd_status := Some in_progress;
          Database.upd_started_at := Some startedAt;
          Database.upd_completed_at := None; Database.upd_confirmed_by := None;
          Database.upd_confirmed_at := None; Database.upd_code_snippet := None;
          Database.upd_execution_time_seconds := None;
          Database.upd_error_count := None; Database.upd_last_error := None;
          Database.upd_corrections_applied := None |} t).

Lemma update_where_twice {A} (p : A → bool) (f g : A → A) rows :
  (∀ x, p (f x) = p x) →
  Database.update_where p g (Database.update_where p f rows)
  = Database.update_where p (λ x, g (f x)) rows.
Proof.
  intros Hp. unfold Database.update_where. rewrite map_map. apply map_ext.
  intros x. destruct (p x) eqn:E; [by rewrite Hp, E|by rewrite E].
Qed.

Lemma executeTask_effect task todo context w result w' :
  executeTask analyze task todo context w = (Return result, w') →
  ∃ n row code,
    task_ident task = Some n
    ∧ Database.getTask n (db w) = Some row
    ∧ Database.tasks (db w')
      = Database.update_where (Database.has_id task_ident n) (started (clock w) code)
          (Database.tasks (db w))
    ∧ Database.todos (db w') = Database.todos (db w).
Proof.
  unfold executeTask, bind, Date_now, write_or_throw, await, ret. simpl.
  destruct (updateTask_cases (task_ident task)
    {| Database.upd_status := Some in_progress;
       Database.upd_started_at := Some (clock w);
       Database.upd_completed_at := None; Database.upd_confirmed_by := None;
       Database.upd_confirmed_at := None; Database.upd_code_snippet := None;
       Database.upd_execution_time_seconds := None;
       Database.upd_error_count := None; Database.upd_last_error := None;
       Database.upd_corrections_applied := None |} (db w))
    as [(e & ->)|(n & row & Hid & Hrow & ->)]; [done|].
  simpl.
  destruct (Orchestrator.getAgentSpecificAnalysis analyze _ (owner_agent task))
    as [agentAnalysis|e]; [|done].
  simpl.
  match goal with
  | |- context [Database.updateTask _ ?u ?s] =>
      destruct (updateTask_cases (task_ident task) u s)
        as [(e & ->)|(n' & row' & Hid' & Hrow' & ->)]; [done|]
  end.
  simpl. intros [= <- <-]. simpl.
  rewrite Hid in Hid'. injection Hid' as <-.
  exists n, row. eexists. repeat split; [done..|].
  by rewrite update_where_twice.
Qed.

Lemma failure_not_success {A} (m e : string) (r : CommandResult) (w w' : World) :
  (Return (failure m e), w) = (Return r, w') → success r = true → A.
Proof. intros [= <- _] [=]. Qed.

Lemma gate_runs (b : bool) (t : Task) (w : World) :
  (if b then checkTaskDependencies t else ret []) w
  = (Return (if b then pending_dependencies (dependencies t) (db w) else []), w).
Proof. by destruct b. Qed.

Lemma In_listTasks t id s :
  In t (Database.listTasks id s) ↔ In t (Database.tasks s) ∧ todo_id t = id.
Proof.
  unfold Database.listTasks, Database.order_asc.
  rewrite <- !list_elem_of_In, sort_Permutation, !list_elem_of_In, filter_In.
  by rewrite String.eqb_eq.
Qed.

Lemma filter_update_where_other {A} (p q : A → bool) (f : A → A) rows :
  (∀ x, q (f x) = q x) →
  List.filter q (Database.update_where p f rows)
  = map (λ x, if p x then f x else x) (List.filter q rows).
Proof.
  intros Hq. induction rows as [|x rows IH]; simpl; [done|].
  destruct (p x) eqn:Ep; [rewrite Hq|]; destruct (q x); simpl;
    rewrite ?Ep, IH; done.
Qed.

(** Listing the steps of a work item after an update by identifier that
    keeps the work item and the sequence number of the row. *)
Lemma listTasks_after_update id s s' (p : Task → bool) (f : Task → Task) :
  Database.tasks s' = Database.update_where p f (Database.tasks s) →
  (∀ x, todo_id (f x) = todo_id x) →
  (∀ x, sequence_number (f x) = sequence_number x) →
  Database.listTasks id s'
  = map (λ x, if p x then f x else x) (Database.listTasks id s).
Proof.
  intros Htasks Htodo Hseq. unfold Database.listTasks, Database.order_asc.
  rewrite Htasks, filter_update_where_other by (intros x; by rewrite Htodo).
  apply sort_map. intros a b. by destruct (p a), (p b); rewrite ?Hseq.
Qed.

Lemma same_row k s row t :
  Database.getTask k s = Some row → In t (Database.tasks s) →
  task_ident t = Some k → t = row.
Proof.
  unfold Database.getTask. intros H%single_In Hin Hid.
  assert (In t (List.filter (Database.has_id task_ident k) (Database.tasks s))) as Hf.
  { apply filter_In. split; [done|]. unfold Database.has_id. by rewrite Hid, bool_decide_eq_true. }
  rewrite H in Hf. by destruct Hf as [->|[]].
Qed.

Lemma progress_of_map (g : Task → Task) tasks :
  (∀ t, In t tasks → Database.is_completed (g t) = Database.is_completed t) →
  progress_of (map g tasks) = progress_of tasks.
Proof.
  intros Hg. unfold progress_of. rewrite length_map. do 4 f_equal.
  induction tasks as [|t tasks IH]; simpl; [done|].
  rewrite Hg by (by left). destruct (Database.is_completed t); simpl;
    rewrite IH; auto; intros; apply Hg; by right.
Qed.

(** A successful [handleExecute] writes the percentage computed from the
    steps as they were listed when the command began; when the started step
    was not completed before, that is also the percentage of the steps as
    they are afterwards. *)
Lemma handleExecute_progress args context w r w' :
  handleExecute analyze args context w = (Return r, w') → success r = true →
  ∃ activeTodo targetTask todo',
    Database.getActiveTodo (projectId context) (db w) = Some activeTodo
    ∧ In targetTask (Database.listTasks (todo_ident activeTodo) (db w))
    ∧ Some (sequence_number targetTask) = taskNumber args
    ∧ Database.getTodo (todo_ident activeTodo) (db w') = Some todo'
    ∧ progress_percentage todo'
      = progress_of (Database.listTasks (todo_ident activeTodo) (db w))
    ∧ (status targetTask ≠ completed →
       progress_percentage todo'
       = progress_of (Database.listTasks (todo_ident activeTodo) (db w'))).
Proof.
  unfold handleExecute, catch.
  match goal with |- context [match ?body w with _ => _ end] =>
    destruct (body w) as [[r0|e] w0] eqn:Hbody end;
    [|intros H Hs; by eapply failure_not_success].
  intros [= <- <-] Hs.
  destruct (taskNumber args) as [[|n]|]; try (by eapply failure_not_success).
  unfold bind at 1, query at 1 in Hbody. simpl in Hbody.
  destruct (Database.getActiveTodo (projectId context) (db w)) as [activeTodo|] eqn:Hactive;
    [|by eapply failure_not_success].
  unfold bind at 1, query at 1 in Hbody. simpl in Hbody.
  destruct (List.find _ _) as [targetTask|] eqn:Hfind;
    [|by eapply failure_not_success].
  apply find_some in Hfind as [Hin Hseq%Nat.eqb_eq].
  unfold bind at 1 in Hbody. rewrite gate_runs in Hbody.
  destruct (0 <? length _)%nat; [by eapply failure_not_success|].
  unfold bind at 1 in Hbody.
  destruct (executeTask analyze targetTask activeTodo context w)
    as [[result|e] w1] eqn:Hexec; [|done].
  apply executeTask_effect in Hexec as (k & row & code & Hid & Hrow & Htasks & Htodos).
  unfold bind at 1, write_or_throw in Hbody.
  destruct (Database.getTodo (todo_ident activeTodo) (db w1)) as [row0|] eqn:Hget.
  - match type of Hbody with context [Database.updateTodo _ ?u _] =>
      destruct (updateTodo_found _ u _ _ Hget) as (s' & Hupd & Hget' & Htasks' & _) end.
    rewrite Hupd in Hbody. injection Hbody as <- <-.
    exists activeTodo, targetTask. eexists.
    split; [done|]. split; [done|]. split; [by rewrite Hseq|].
    split; [exact Hget'|]. split; [done|].
    intros Hstatus. simpl.
    rewrite (listTasks_after_update (todo_ident activeTodo) (db w) s'
               (Database.has_id task_ident k) (started (clock w) code))
      by (rewrite ?Htasks', ?Htasks; done).
    symmetry. apply progress_of_map. intros t Ht.
    destruct (Database.has_id task_ident k t) eqn:Ek; [|done].
    unfold Database.has_id in Ek. apply bool_decide_eq_true in Ek.
    apply In_listTasks in Ht as [Ht _]. apply In_listTasks in Hin as [Hin _].
    rewrite (same_row k (db w) row t Hrow Ht Ek).
    rewrite <- (same_row k (db w) row targetTask Hrow Hin Hid).
    unfold Database.is_completed. simpl.
    by rewrite bool_decide_eq_false_2.
  - match type of Hbody with context [Database.updateTodo _ ?u _] =>
      destruct (updateTodo_missing _ u _ Hget) as (e & Hupd) end.
    by rewrite Hupd in Hbody.
Qed.

(** Whether every step of a listing is completed. *)
Definition all_completed (tasks : list Task) : bool := forallb Database.is_completed tasks.

Lemma getTodo_ext id s s' :
  Database.todos s = Database.todos s' → Database.getTodo id s = Database.getTodo id s'.
Proof. unfold Database.getTodo. by intros ->. Qed.

Lemma listTasks_ext id s s' :
  Database.tasks s = Database.tasks s' → Database.listTasks id s = Database.listTasks id s'.
Proof. unfold Database.listTasks. by intros ->. Qed.

Lemma listTasks_with_contexts id s rows n :
  Database.listTasks id (Database.with_contexts s rows n) = Database.listTasks id s.
Proof. reflexivity. Qed.

Lemma getTodo_with_contexts id s rows n :
  Database.getTodo id (Database.with_contexts s rows n) = Database.getTodo id s.
Proof. reflexivity. Qed.

Lemma getNextTask_pending id seq s next :
  Database.getNextTask id seq s = Some next →
  In next (Database.listTasks id s) ∧ status next = pending.
Proof.
  unfold Database.getNextTask, Database.limit1_single, Database.order_asc.
  intros H%head_Some_elem_of. rewrite sort_Permutation in H.
  apply list_elem_of_In, filter_In in H as [Hin H].
  apply andb_true_iff in H as [[Hid%String.eqb_eq Hst%bool_decide_eq_true]%andb_true_iff _].
  split; [|done]. by apply In_listTasks.
Qed.

Lemma not_all_completed tasks t :
  In t tasks → status t ≠ completed → all_completed tasks = false.
Proof.
  intros Hin Hst. apply not_true_is_false. intros H.
  unfold all_completed in H. rewrite forallb_forall in H. apply H in Hin.
  unfold Database.is_completed in Hin. by apply bool_decide_eq_true in Hin.
Qed.

(** A successful [handleConfirm] closes the work item, with the percentage
    set to 100, when all of its steps are completed afterwards; otherwise it
    leaves the row of the work item as it was. *)
Lemma handleConfirm_completion args context w r w' :
  handleConfirm args context w = (Return r, w') → success r = true →
  ∃ task nextTask nextAction,
    data r = Some (ConfirmData task nextTask nextAction)
    ∧ status task = in_progress
    ∧ ∀ todo, Database.getTodo (todo_id task) (db w) = Some todo →
        if all_completed (Database.listTasks (todo_id task) (db w'))
        then ∃ todo', Database.getTodo (todo_id task) (db w') = Some todo'
                      ∧ todo_status todo' = todo_completed
                      ∧ progress_percentage todo' = 100%float
        else Database.getTodo (todo_id task) (db w') = Some todo.
Proof.
  unfold handleConfirm, catch.
  match goal with |- context [match ?body w with _ => _ end] =>
    destruct (body w) as [[r0|e] w0] eqn:Hbody end;
    [|intros H Hs; by eapply failure_not_success].
  intros [= <- <-] Hs.
  unfold bind at 1 in Hbody.
  destruct (getActiveContext_reads (projectId context) w)
    as (activeContext & w1 & Hread & Hdb1 & _).
  rewrite Hread in Hbody.
  destruct (activeContext ≫= task_id) as [[|taskId]|];
    try (by eapply failure_not_success).
  unfold bind at 1, query at 1 in Hbody. simpl in Hbody.
  destruct (Database.getTask (S taskId) (db w1)) as [task|] eqn:Htask;
    [|by eapply failure_not_success].
  destruct (bool_decide (status task = in_progress)) eqn:Hst; simpl in Hbody;
    [|by eapply failure_not_success].
  apply bool_decide_eq_true in Hst.
  unfold bind at 1, Date_now at 1 in Hbody. simpl in Hbody.
  unfold bind at 1, Date_now at 1 in Hbody. simpl in Hbody.
  unfold bind at 1, write_or_throw at 1 in Hbody. simpl in Hbody.
  match type of Hbody with context [Database.updateTask ?i ?u ?s] =>
    destruct (updateTask_cases i u s) as [(e & Hupd)|(k & row & Hid & Hrow & Hupd)];
    rewrite Hupd in Hbody; [done|] end.
  match type of Hbody with context [Database.with_tasks ?a ?b ?c] =>
    set (s1 := Database.with_tasks a b c) in * end.
  unfold bind at 1, query at 1 in Hbody. simpl in Hbody.
  unfold bind at 1, query at 1 in Hbody. simpl in Hbody.
  assert (Htodo1 : ∀ id, Database.getTodo id s1 = Database.getTodo id (db w)).
  { intros id. apply getTodo_ext. by rewrite <- Hdb1. }
  exists task.
  destruct (Database.getNextTask (todo_id task) (sequence_number task) s1)
    as [next|] eqn:Hnext.
  - unfold bind at 1, ret at 1 in Hbody.
    unfold bind at 1, Date_now at 1 in Hbody. simpl in Hbody.
    unfold bind at 1 in Hbody. rewrite saveContext_run in Hbody.
    injection Hbody as <- <-. simpl.
    eexists _, _. split; [done|]. split; [done|]. intros todo Htodo.
    apply getNextTask_pending in Hnext as [Hin Hpending].
    rewrite listTasks_with_contexts, getTodo_with_contexts.
    rewrite (not_all_completed _ next Hin) by (by rewrite Hpending).
    by rewrite Htodo1.
  - destruct (Database.getTodo (todo_id task) s1) as [todo0|] eqn:Htodo0.
    + unfold bind at 1, query at 1 in Hbody. simpl in Hbody.
      unfold bind at 1 in Hbody.
      rewrite (getTodo_ident _ _ _ Htodo0) in Hbody.
      rewrite forallb_length_filter in Hbody.
      cbn [db clock contextStack] in Hbody.
      destruct (forallb Database.is_completed (Database.listTasks (todo_id task) s1))
        eqn:Hall.
      * unfold bind at 1, Date_now at 1 in Hbody. cbn [db clock contextStack] in Hbody.
        unfold bind at 1, write_or_throw at 1 in Hbody.
        cbn [db clock contextStack] in Hbody.
        match type of Hbody with context [Database.updateTodo _ ?u _] =>
          destruct (updateTodo_found _ u _ _ Htodo0) as (s2 & Hupd2 & Hget2 & Htasks2 & _) end.
        rewrite Hupd2 in Hbody. unfold ret at 1 in Hbody.
        unfold bind at 1, Date_now at 1 in Hbody. cbn [db clock contextStack] in Hbody.
        unfold bind at 1 in Hbody. rewrite saveContext_run in Hbody.
        injection Hbody as <- <-. simpl.
        eexists _, _. split; [done|]. split; [done|]. intros todo Htodo.
        rewrite listTasks_with_contexts, getTodo_with_contexts.
        rewrite (listTasks_ext _ s2 s1 Htasks2).
        unfold all_completed. rewrite Hall. by eexists.
      * unfold ret at 1 in Hbody.
        unfold bind at 1, Date_now at 1 in Hbody. cbn [db clock contextStack] in Hbody.
        unfold bind at 1 in Hbody. rewrite saveContext_run in Hbody.
        injection Hbody as <- <-. simpl.
        eexists _, _. split; [done|]. split; [done|]. intros todo Htodo.
        rewrite listTasks_with_contexts, getTodo_with_contexts.
        unfold all_completed. rewrite Hall. by rewrite Htodo1.
    + cbv beta iota in Hbody. unfold bind at 1, ret at 1 in Hbody.
      unfold bind at 1, Date_now at 1 in Hbody. cbn [db clock contextStack] in Hbody.
      unfold bind at 1 in Hbody. rewrite saveContext_run in Hbody.
      injection Hbody as <- <-. simpl.
      eexists _, _. split; [done|]. split; [done|]. intros todo Htodo.
      rewrite <- Htodo1 in Htodo. congruence.
Qed.

(** The percentage of a work item agrees with its steps. *)
Definition progress_consistent (s : Database.Store) (todoId : string) : Prop :=
  ∀ todo, Database.getTodo todoId s = Some todo →
          progress_percentage todo = progress_of (Database.listTasks todoId s).

(** What the commands do write: after a successful [handleExecute] that
    started a step which was not completed before, the percentage of the
    work item is
    [Math.round(completed / total * 100)] over its steps; a successful
    [handleConfirm] does not recompute the percentage: it closes the work
    item at 100 when all of its steps are completed afterwards and leaves its
    row unchanged otherwise; [handleError] never writes to a work item. *)
Theorem progress_written_on_execute_and_completion (w : World) (context : CommandContext) :
  (∀ args r w',
     handleExecute analyze args context w = (Return r, w') → success r = true →
     ∃ activeTodo targetTask todo',
       Database.getActiveTodo (projectId context) (db w) = Some activeTodo
       ∧ In targetTask (Database.listTasks (todo_ident activeTodo) (db w))
       ∧ Some (sequence_number targetTask) = taskNumber args
       ∧ Database.getTodo (todo_ident activeTodo) (db w') = Some todo'
       ∧ (status targetTask ≠ completed →
          progress_consistent (db w') (todo_ident activeTodo)))
  ∧ (∀ args r w',
       handleConfirm args context w = (Return r, w') → success r = true →
       ∃ task nextTask nextAction,
         data r = Some (ConfirmData task nextTask nextAction)
         ∧ status task = in_progress
         ∧ ∀ todo, Database.getTodo (todo_id task) (db w) = Some todo →
             if all_completed (Database.listTasks (todo_id task) (db w'))
             then ∃ todo', Database.getTodo (todo_id task) (db w') = Some todo'
                           ∧ todo_status todo' = todo_completed
                           ∧ progress_percentage todo' = 100%float
             else Database.getTodo (todo_id task) (db w') = Some todo)
  ∧ (∀ args,
       Database.todos (db (snd (handleError analyze args context w)))
       = Database.todos (db w)).
Proof.
  split; [|split].
  - intros args r w' Hrun Hs.
    destruct (handleExecute_progress args context w r w' Hrun Hs)
      as (activeTodo & targetTask & todo' & Ha & Hin & Hn & Hget & Hp & Hpost).
    exists activeTodo, targetTask, todo'. repeat (split; [done|]).
    intros Hst todo Htodo. rewrite Hget in Htodo. injection Htodo as <-. auto.
  - intros args r w'. apply handleConfirm_completion.
  - intros args. apply handleError_keeps_todos.
Qed.

(** C3, at the input where it fails: on a work item in progress with two
    steps, the first started and the second pending, [handleConfirm]
    succeeds and completes the first step, and the percentage of the work
    item stays at 0 while one step of two is completed:
    [Math.round((1 / 2) * 100)] is 50. *)
Lemma confirm_leaves_progress_stale :
  let w := Samples.executing pending in
  let '(r, w') := handleConfirm {| arg_notes := None |} Samples.user w in
  (success <$> returned r) = Some true
  ∧ (status <$> Database.getTask 1 (db w)) = Some in_progress
  ∧ (status <$> Database.getTask 1 (db w')) = Some completed
  ∧ progress_of (Database.listTasks "TODO-1" (db w')) = 50%float
  ∧ ¬ progress_consistent (db w') "TODO-1".
Proof.
  vm_compute. repeat split.
  intros H. specialize (H _ eq_refl).
  apply (f_equal (PrimFloat.eqb 0)) in H. vm_compute in H. discriminate.
Qed.

End WorkflowFacts.

(** These writes at work: a forced start on the second work item
    writes 33 for one completed step of three, and the confirmation of the
    last open step closes the work item at 100. *)
Lemma progress_written_on_execute_and_completion_witness :
  (∃ todo', Database.getTodo "TODO-2"
              (db (snd (Processor.handleExecute Samples.answering
                          {| Processor.taskNumber := Some 2;
                             Processor.force := Some true |}
                          Samples.user (Samples.second_item Types.pending))))
            = Some todo'
            ∧ Types.progress_percentage todo' = 33%float)
  ∧ (∃ todo', Database.getTodo "TODO-1"
                (db (snd (Processor.handleConfirm {| Processor.arg_notes := None |}
                            Samples.user (Samples.executing Types.completed))))
              = Some todo'
              ∧ Types.todo_status todo' = Types.todo_completed
              ∧ Types.progress_percentage todo' = 100%float).
Proof.
  split.
  - destruct (progress_written_on_execute_and_completion
                (runtime := JS.lower_ascii_runtime) Samples.answering
                (Samples.second_item Types.pending) Samples.user) as (Hexec & _ & _).
    destruct (Processor.handleExecute Samples.answering
                {| Processor.taskNumber := Some 2; Processor.force := Some true |}
                Samples.user (Samples.second_item Types.pending))
      as [[r|e] w'] eqn:Hrun; [|vm_compute in Hrun; discriminate].
    pose proof Hrun as Hval. vm_compute in Hval. injection Hval as <- <-.
    destruct (Hexec _ _ _ Hrun eq_refl)
      as (activeTodo & targetTask & todo' & Ha & Hin & Hn & Hget & Hp).
    vm_compute in Ha. injection Ha as <-.
    exists todo'. split; [exact Hget|].
    assert (Htarget : Types.status targetTask ≠ Types.completed).
    { vm_compute in Hin. simpl in Hn.
      destruct Hin as [<-|[<-|[<-|[]]]]; by vm_compute. }
    rewrite (Hp Htarget todo' Hget). vm_compute. reflexivity.
  - destruct (progress_written_on_execute_and_completion
                (runtime := JS.lower_ascii_runtime) Samples.answering
                (Samples.executing Types.completed) Samples.user) as (_ & Hconfirm & _).
    destruct (Processor.handleConfirm {| Processor.arg_notes := None |}
                Samples.user (Samples.executing Types.completed))
      as [[r|e] w'] eqn:Hrun; [|vm_compute in Hrun; discriminate].
    pose proof Hrun as Hval. vm_compute in Hval. injection Hval as <- <-.
    destruct (Hconfirm _ _ _ Hrun eq_refl) as (task & next & action & Hdata & _ & Hfinal).
    vm_compute in Hdata. injection Hdata as <- _ _.
    specialize (Hfinal _ eq_refl). exact Hfinal.
Defined.

(** ** The dependency gate *)

Section GateFacts.
Import Types Processor.
Variable analyze : AgentType → Orchestrator.Agent.

(** The dependencies of a step that are still unsatisfied, as the
    specification means them: the sequence numbers among its dependencies
    for which the same work item has no completed step of that number. *)
Definition spec_unsatisfied (s : Database.Store) (t : Task) : list nat :=
  List.filter
    (λ d, negb (existsb (λ t', String.eqb (todo_id t') (todo_id t)
                               && (sequence_number t' =? d)%nat
                               && Database.is_completed t')
                        (Database.tasks s)))
    (dependencies t).

(** What the gate computes: the entries that [getTask] does not resolve to
    a completed row. *)
Lemma pending_dependencies_by_row_id deps s :
  pending_dependencies deps s
  = List.filter (λ d, negb (bool_decide (status <$> Database.getTask d s = Some completed)))
      deps.
Proof.
  induction deps as [|d deps IH]; simpl; [done|].
  destruct (Database.getTask d s) as [t|]; simpl; [|by rewrite IH].
  destruct (decide (status t = completed)) as [E|E].
  - rewrite E. simpl. exact IH.
  - rewrite !bool_decide_eq_false_2 by congruence. simpl. by rewrite IH.
Qed.

Definition start_second : ExecuteArgs := {| taskNumber := Some 2; force := None |}.

(** C4, at the inputs where it fails.  The gate resolves the sequence
    numbers in [dependencies] as row identifiers.  In a store where the rows
    1 to 3 belong to an earlier, finished work item, step 2 of the current
    work item starts without the override although its own step 1 is
    pending; where those rows are pending, step 2 is refused, and step 1 is
    reported as unsatisfied, although step 1 of the current work item is
    completed. *)
Theorem gate_resolves_dependencies_as_row_ids :
  (let w := Samples.second_item completed in
   let '(r, w') := handleExecute analyze start_second Samples.user w in
   spec_unsatisfied (db w) (Samples.task 5 "TODO-2" 2 pending [1]) = [1]
   ∧ (success <$> returned r) = Some true
   ∧ (status <$> Database.getTask 5 (db w')) = Some in_progress
   ∧ (status <$> Database.getTask 4 (db w')) = Some pending)
  ∧ (let w := Samples.second_item pending in
     let '(r, w') := handleExecute analyze start_second Samples.user w in
     spec_unsatisfied (db w) (Samples.task 5 "TODO-2" 2 pending [1]) = []
     ∧ (success <$> returned r) = Some false
     ∧ (returned r ≫= error) = Some "Dependências: 1"
     ∧ (status <$> Database.getTask 5 (db w')) = Some pending).
Proof.
  split.
  - vm_compute.
    match goal with
    | |- context [analyze ?a ?c] => destruct (analyze a c)
    end; vm_compute; repeat split.
  - vm_compute. repeat split.
Qed.

(** With the override the gate is not consulted. *)
Example forced_start :
  let '(r, w') := handleExecute Samples.throwing
                    {| taskNumber := Some 2; force := Some true |}
                    Samples.user (Samples.second_item pending) in
  (success <$> returned r) = Some true
  ∧ (status <$> Database.getTask 5 (db w')) = Some in_progress.
Proof. vm_compute. repeat split. Qed.

End GateFacts.

(** ** Ordered listings *)

Section OrderFacts.
Context {A : Type} (key : A → nat).

(** A list in ascending, or descending, order of a key. *)
Definition ascending (l : list A) : Prop :=
  ∀ i j a b, (i < j)%nat → l !! i = Some a → l !! j = Some b → (key a ≤ key b)%nat.

Definition descending (l : list A) : Prop :=
  ∀ i j a b, (i < j)%nat → l !! i = Some a → l !! j = Some b → (key b ≤ key a)%nat.

Lemma ascending_cons x l :
  ascending (x :: l) ↔ (∀ y, In y l → (key x ≤ key y)%nat) ∧ ascending l.
Proof.
  split.
  - intros H. split.
    + intros y Hy. apply list_elem_of_In, list_elem_of_lookup in Hy as [j Hj].
      by apply (H 0 (S j) x y); [lia| |].
    + intros i j a b Hij Ha Hb. by apply (H (S i) (S j) a b); [lia| |].
  - intros [Hx Hl] [|i] [|j] a b Hij Ha Hb; simpl in *; try lia.
    + injection Ha as <-. apply Hx, list_elem_of_In. by eapply list_elem_of_lookup_2.
    + apply (Hl i j a b); [lia|done..].
Qed.

Lemma descending_cons x l :
  descending (x :: l) ↔ (∀ y, In y l → (key y ≤ key x)%nat) ∧ descending l.
Proof.
  split.
  - intros H. split.
    + intros y Hy. apply list_elem_of_In, list_elem_of_lookup in Hy as [j Hj].
      by apply (H 0 (S j) x y); [lia| |].
    + intros i j a b Hij Ha Hb. by apply (H (S i) (S j) a b); [lia| |].
  - intros [Hx Hl] [|i] [|j] a b Hij Ha Hb; simpl in *; try lia.
    + injection Ha as <-. apply Hx, list_elem_of_In. by eapply list_elem_of_lookup_2.
    + apply (Hl i j a b); [lia|done..].
Qed.

Lemma In_sort_insert (cmp : A → A → Z) x l y :
  In y (JS.sort_insert cmp x l) ↔ y = x ∨ In y l.
Proof.
  rewrite <- !list_elem_of_In, sort_insert_Permutation, !list_elem_of_In. simpl.
  split; intros [H|H]; auto.
Qed.

Lemma order_asc_ascending l : ascending (Database.order_asc key l).
Proof.
  unfold Database.order_asc, JS.sort.
  induction l as [|x l IH]; simpl; [intros i j a b _ Ha; by destruct i|].
  revert IH. generalize (foldr (JS.sort_insert (λ a b, (Z.of_nat (key a) - Z.of_nat (key b))%Z)) [] l).
  clear l. intros l. induction l as [|y l IHl]; intros Hl; simpl.
  - apply ascending_cons. split; [intros ? []|intros i j a b _ Ha; by destruct i].
  - destruct (Z.leb_spec (Z.of_nat (key x) - Z.of_nat (key y)) 0) as [Hle|Hgt].
    + apply ascending_cons. split; [|done].
      apply ascending_cons in Hl as [Hy _].
      intros z [<-|Hz]; [lia|]. specialize (Hy z Hz). lia.
    + apply ascending_cons in Hl as [Hy Hl]. apply ascending_cons. split; [|by apply IHl].
      intros z [->|Hz]%In_sort_insert; [lia|by apply Hy].
Qed.

Lemma order_desc_descending l : descending (Database.order_desc key l).
Proof.
  unfold Database.order_desc, JS.sort.
  induction l as [|x l IH]; simpl; [intros i j a b _ Ha; by destruct i|].
  revert IH. generalize (foldr (JS.sort_insert (λ a b, (Z.of_nat (key b) - Z.of_nat (key a))%Z)) [] l).
  clear l. intros l. induction l as [|y l IHl]; intros Hl; simpl.
  - apply descending_cons. split; [intros ? []|intros i j a b _ Ha; by destruct i].
  - destruct (Z.leb_spec (Z.of_nat (key y) - Z.of_nat (key x)) 0) as [Hle|Hgt].
    + apply descending_cons. split; [|done].
      apply descending_cons in Hl as [Hy _].
      intros z [<-|Hz]; [lia|]. specialize (Hy z Hz). lia.
    + apply descending_cons in Hl as [Hy Hl]. apply descending_cons. split; [|by apply IHl].
      intros z [->|Hz]%In_sort_insert; [lia|by apply Hy].
Qed.

(** A filter goes through the descending sort: the sort is stable. *)
Lemma filter_sort_insert_desc (p : A → bool) x l :
  descending l →
  List.filter p (JS.sort_insert (λ a b, (Z.of_nat (key b) - Z.of_nat (key a))%Z) x l)
  = if p x
    then JS.sort_insert (λ a b, (Z.of_nat (key b) - Z.of_nat (key a))%Z) x (List.filter p l)
    else List.filter p l.
Proof.
  induction l as [|y l IH]; intros Hl; simpl.
  - by destruct (p x).
  - apply descending_cons in Hl as [Hy Hl].
    destruct (Z.leb_spec (Z.of_nat (key y) - Z.of_nat (key x)) 0) as [Hle|Hgt]; simpl.
    + destruct (p x) eqn:Ex, (p y) eqn:Ey; simpl; try done.
      * destruct (Z.leb_spec (Z.of_nat (key y) - Z.of_nat (key x)) 0); [done|lia].
      * destruct (List.filter p l) as [|z l'] eqn:El; [done|]. simpl.
        assert (In z l) as Hz.
        { assert (In z (List.filter p l)) as Hf by (rewrite El; by left).
          by apply filter_In in Hf as [? _]. }
        specialize (Hy z Hz).
        destruct (Z.leb_spec (Z.of_nat (key z) - Z.of_nat (key x)) 0); [done|lia].
    + rewrite (IH Hl). destruct (p x) eqn:Ex, (p y) eqn:Ey; simpl; try done.
      destruct (Z.leb_spec (Z.of_nat (key y) - Z.of_nat (key x)) 0); [lia|done].
Qed.

Lemma filter_order_desc (p : A → bool) l :
  List.filter p (Database.order_desc key l) = Database.order_desc key (List.filter p l).
Proof.
  induction l as [|x l IH]; simpl; [done|].
  unfold Database.order_desc, JS.sort in *. simpl.
  rewrite filter_sort_insert_desc by apply order_desc_descending.
  destruct (p x); simpl; by rewrite IH.
Qed.

End OrderFacts.

(** ** The store: listings, lookups after writes *)

Section ServiceFacts.
Import Types Database.

(** X1: [listTasks] returns the rows of the work item, those with the given
    status when one is passed, each once and in ascending order of their
    sequence numbers; without a status it is the listing that the commands
    use. *)
Theorem listTasks_lists_the_steps_in_order (todoId : string)
    (status : option TaskStatus) (s : Store) :
  Service.listTasks todoId status s
  ≡ₚ List.filter (λ t, String.eqb (todo_id t) todoId
                       && match status with
                          | Some st => bool_decide (Types.status t = st)
                          | None => true
                          end) (tasks s)
  ∧ ascending sequence_number (Service.listTasks todoId status s)
  ∧ (∀ t, In t (Service.listTasks todoId status s)
          ↔ In t (tasks s) ∧ todo_id t = todoId
            ∧ ∀ st, status = Some st → Types.status t = st)
  ∧ Service.listTasks todoId None s = listTasks todoId s.
Proof.
  split; [apply sort_Permutation|]. split; [apply order_asc_ascending|]. split.
  - intros t. unfold Service.listTasks, order_asc.
    rewrite <- list_elem_of_In, sort_Permutation, list_elem_of_In, filter_In.
    rewrite andb_true_iff, String.eqb_eq. split.
    + intros (Hin & Htodo & Hst). repeat split; [done..|].
      intros st ->. by apply bool_decide_eq_true_1 in Hst.
    + intros (Hin & Htodo & Hst). repeat split; [done..|].
      destruct status as [st|]; [|done]. apply bool_decide_eq_true_2. by apply Hst.
  - unfold Service.listTasks, listTasks. f_equal.
    apply filter_ext. intros t. by rewrite andb_true_r.
Qed.

(** The candidates of [getNextTask]. *)
Definition next_candidate (todoId : string) (currentSequence : nat) (t : Task) : Prop :=
  todo_id t = todoId ∧ status t = pending ∧ (currentSequence < sequence_number t)%nat.

Lemma next_candidate_filter todoId currentSequence t rows :
  In t (List.filter (λ t, String.eqb (todo_id t) todoId
                          && bool_decide (status t = pending)
                          && (currentSequence <? sequence_number t)%nat) rows)
  ↔ In t rows ∧ next_candidate todoId currentSequence t.
Proof.
  rewrite filter_In, !andb_true_iff, String.eqb_eq, bool_decide_eq_true, Nat.ltb_lt.
  unfold next_candidate. tauto.
Qed.

(** X2: [getNextTask] returns a pending row of the work item whose sequence
    number is the smallest above the current one, and [null] exactly when
    the work item has no pending row above it. *)
Theorem getNextTask_is_the_least_pending_above (todoId : string) (currentSequence : nat)
    (s : Store) :
  match getNextTask todoId currentSequence s with
  | Some next =>
      In next (tasks s) ∧ next_candidate todoId currentSequence next
      ∧ ∀ t, In t (tasks s) → next_candidate todoId currentSequence t →
             (sequence_number next ≤ sequence_number t)%nat
  | None => ∀ t, In t (tasks s) → ¬ next_candidate todoId currentSequence t
  end.
Proof.
  unfold getNextTask, limit1_single.
  match goal with |- context [order_asc ?k ?l] =>
    pose proof (order_asc_ascending k l) as Hasc;
    pose proof (sort_Permutation (λ a b, (Z.of_nat (k a) - Z.of_nat (k b))%Z) l) as Hperm;
    fold (order_asc k l) in Hperm;
    destruct (order_asc k l) as [|next rest] eqn:E
  end; simpl.
  - intros t Ht Hc. symmetry in Hperm. apply Permutation_nil_r in Hperm.
    assert (In t []) as [].
    { rewrite <- Hperm. apply next_candidate_filter. done. }
  - assert (Hmem : ∀ t, In t (next :: rest)
                        ↔ In t (tasks s) ∧ next_candidate todoId currentSequence t).
    { intros t. rewrite <- next_candidate_filter, <- !list_elem_of_In. by rewrite Hperm. }
    destruct (Hmem next) as [[Hin Hc] _]; [by left|].
    split; [done|]. split; [done|].
    intros t Ht Hct. apply ascending_cons in Hasc as [Hmin _].
    destruct (proj2 (Hmem t) (conj Ht Hct)) as [<-|Hrest]; [done|by apply Hmin].
Qed.

Lemma has_id_apply_task u k t : has_id task_ident k (apply_task u t) = has_id task_ident k t.
Proof. reflexivity. Qed.

(** An [updateTask] that returned. *)
Lemma updateTask_returned id u s row s' :
  updateTask (Some id) u s = (Return row, s') →
  (∃ old, getTask id s = Some old ∧ row = apply_task u old)
  ∧ getTask id s' = Some row
  ∧ (∀ other, other ≠ id → getTask other s' = getTask other s)
  ∧ todos s' = todos s ∧ bugs s' = bugs s ∧ context_stack s' = context_stack s.
Proof.
  unfold updateTask, getTask.
  destruct (single (List.filter (has_id task_ident id) (tasks s))) as [old|] eqn:E; [|done].
  intros [= <- <-].
  split; [by exists old|]. simpl. split.
  - rewrite filter_update_where by apply has_id_apply_task.
    by rewrite single_map, E.
  - split; [|done]. intros other Hother.
    rewrite filter_update_where_other by apply has_id_apply_task.
    f_equal. rewrite <- (map_id (List.filter (has_id task_ident other) (tasks s))) at 2.
    apply map_ext_in. intros t [_ Ht]%filter_In.
    unfold has_id in *. apply bool_decide_eq_true in Ht.
    rewrite bool_decide_eq_false_2; [done|]. rewrite Ht. congruence.
Qed.

(** X3: an [updateTask] that returns has rewritten the one row with the
    identifier, which [getTask] then finds as returned; the rows with other
    identifiers and the other tables are as before.  It throws exactly when
    [getTask] finds no row, and then nothing is written. *)
Theorem updateTask_then_getTask (id : nat) (u : TaskUpdates) (s : Store) :
  match updateTask (Some id) u s with
  | (Return row, s') =>
      (∃ old, getTask id s = Some old ∧ row = apply_task u old)
      ∧ getTask id s' = Some row
      ∧ (∀ other, other ≠ id → getTask other s' = getTask other s)
      ∧ todos s' = todos s ∧ bugs s' = bugs s ∧ context_stack s' = context_stack s
  | (Throw _, s') => getTask id s = None ∧ s' = s
  end.
Proof.
  destruct (updateTask (Some id) u s) as [[row|e] s'] eqn:E.
  - by apply updateTask_returned.
  - unfold updateTask in E. fold (getTask id s) in E.
    destruct (getTask id s); [done|]. by injection E as _ <-.
Qed.

(** X4: after the store's [saveContext], [getActiveContext] on the project
    returns the row just saved, and on any other project what it returned
    before. *)
Theorem saveContext_then_getActiveContext (context : ContextStack) (now : nat) (s : Store) :
  getActiveContext (project_id context) (snd (saveContext context now s))
  = Some (fst (saveContext context now s))
  ∧ ∀ q, q ≠ project_id context →
         getActiveContext q (snd (saveContext context now s)) = getActiveContext q s.
Proof.
  destruct (saveContext_single_active context now s) as (Hact & _ & Hother).
  unfold active_rows in *. unfold getActiveContext. split.
  - by rewrite Hact.
  - intros q Hq. by rewrite Hother.
Qed.

Lemma old_context_inactive p cutoff c : Service.old_context p cutoff c = true → is_active c = false.
Proof.
  unfold Service.old_context. intros [[_ H]%andb_true_iff _]%andb_true_iff.
  by apply negb_true_iff.
Qed.

Lemma deleteOld_active_rows projectId cutoffDate q rows :
  List.filter (λ c, String.eqb (project_id c) q && is_active c)
    (List.filter (λ c, negb (Service.old_context projectId cutoffDate c)) rows)
  = List.filter (λ c, String.eqb (project_id c) q && is_active c) rows.
Proof.
  induction rows as [|c rows IH]; simpl; [done|].
  destruct (Service.old_context projectId cutoffDate c) eqn:Eold; simpl.
  - rewrite (old_context_inactive _ _ _ Eold), andb_false_r. exact IH.
  - by rewrite IH.
Qed.

(** X5: [deleteOldContexts] reports the number of rows it removed, removes
    no active row and no row of another project, so that the active context
    of every project is the same afterwards; the rows of the project that
    stay are active or were saved at the cutoff or later. *)
Theorem deleteOldContexts_keeps_active (projectId : string) (cutoffDate : nat) (s : Store) :
  let '(count, s') := Service.deleteOldContexts projectId cutoffDate s in
  (length (context_stack s') + count = length (context_stack s))%nat
  ∧ (∀ q, active_rows q s' = active_rows q s)
  ∧ (∀ q, getActiveContext q s' = getActiveContext q s)
  ∧ (∀ q, q ≠ projectId →
          List.filter (λ c, String.eqb (project_id c) q) (context_stack s')
          = List.filter (λ c, String.eqb (project_id c) q) (context_stack s))
  ∧ (∀ c, In c (context_stack s') → project_id c = projectId →
          is_active c = true ∨ (cutoffDate ≤ saved_at c)%nat)
  ∧ todos s' = todos s ∧ tasks s' = tasks s.
Proof.
  unfold Service.deleteOldContexts. simpl.
  split; [|split; [|split; [|split; [|split]]]].
  - induction (context_stack s) as [|c rows IH]; simpl; [done|].
    destruct (Service.old_context projectId cutoffDate c); simpl; lia.
  - intros q. unfold active_rows. simpl. apply deleteOld_active_rows.
  - intros q. unfold getActiveContext. simpl. by rewrite deleteOld_active_rows.
  - intros q Hq. induction (context_stack s) as [|c rows IH]; simpl; [done|].
    destruct (Service.old_context projectId cutoffDate c) eqn:Eold; simpl.
    + unfold Service.old_context in Eold.
      apply andb_true_iff in Eold as [[Ep%String.eqb_eq _]%andb_true_iff _].
      rewrite Ep. assert (String.eqb projectId q = false) as ->
        by (apply String.eqb_neq; congruence). exact IH.
    + by rewrite IH.
  - intros c [Hc Hkeep]%filter_In Hp. unfold Service.old_context in Hkeep.
    rewrite Hp, String.eqb_refl in Hkeep. simpl in Hkeep.
    destruct (is_active c); [by left|right]. simpl in Hkeep.
    apply negb_true_iff, Nat.ltb_ge in Hkeep. done.
  - done.
Qed.

(** X6: [getContextHistory] returns at most [limit] rows, all of the
    project, the newest first, and no row of the project that it leaves out
    is newer than one it returns. *)
Theorem getContextHistory_newest_first (projectId : string) (limit : nat) (s : Store) :
  let history := Service.getContextHistory projectId limit s in
  (length history ≤ limit)%nat
  ∧ (∀ c, In c history → In c (context_stack s) ∧ project_id c = projectId)
  ∧ descending saved_at history
  ∧ (∀ c c', In c history → In c' (context_stack s) → project_id c' = projectId →
             ¬ In c' history → (saved_at c' ≤ saved_at c)%nat).
Proof.
  unfold Service.getContextHistory. simpl.
  set (rows := List.filter (λ c, String.eqb (project_id c) projectId) (context_stack s)).
  pose proof (order_desc_descending saved_at rows) as Hdesc.
  pose proof (sort_Permutation
                (λ a b, (Z.of_nat (saved_at b) - Z.of_nat (saved_at a))%Z) rows) as Hperm.
  fold (order_desc saved_at rows) in Hperm.
  set (sorted := order_desc saved_at rows) in *.
  split; [|split; [|split]].
  - rewrite length_take. lia.
  - intros c Hc%list_elem_of_In%elem_of_take. destruct Hc as (i & Hi & _).
    apply list_elem_of_lookup_2 in Hi. rewrite Hperm in Hi.
    apply list_elem_of_In, filter_In in Hi as [Hin Hp%String.eqb_eq]. done.
  - intros i j a b Hij Ha Hb.
    apply lookup_take_Some in Ha as [Ha _]. apply lookup_take_Some in Hb as [Hb _].
    by apply (Hdesc i j a b).
  - intros c c' Hc Hc' Hp Hout.
    apply list_elem_of_In, elem_of_take in Hc as (i & Hi & Hlt).
    assert (c' ∈ sorted) as Hs.
    { rewrite Hperm. apply list_elem_of_In, filter_In. by rewrite Hp, String.eqb_refl. }
    apply list_elem_of_lookup in Hs as [j Hj].
    destruct (decide (j < limit)%nat) as [Hjl|Hjl].
    + exfalso. apply Hout, list_elem_of_In, elem_of_take. eauto.
    + apply (Hdesc i j c c'); [lia|done..].
Qed.

End ServiceFacts.

(** ** The manager: reading through the cache *)

Section ManagerFacts.
Import Types Context.

Lemma find_head_filter {A} (f : A → bool) l : List.find f l = head (List.filter f l).
Proof. induction l as [|x l IH]; simpl; [done|]. by destruct (f x). Qed.

Lemma find_take_Some {A} (f : A → bool) n l x :
  List.find f (take n l) = Some x → List.find f l = Some x.
Proof.
  revert n. induction l as [|y l IH]; intros [|n]; simpl; try done.
  destruct (f y); [done|apply IH].
Qed.

(** The first active row of the newest-first listing of a project is the
    row that the store's [getActiveContext] returns. *)
Lemma find_active_in_history p limit s c :
  List.find is_active (Service.getContextHistory p limit s) = Some c →
  Database.getActiveContext p s = Some c.
Proof.
  unfold Service.getContextHistory. intros H%find_take_Some.
  rewrite find_head_filter, filter_order_desc in H.
  unfold Database.getActiveContext, Database.limit1_single.
  rewrite <- H. do 2 f_equal. clear H.
  induction (Database.context_stack s) as [|x l IH]; simpl; [done|].
  destruct (String.eqb (project_id x) p); simpl; [|done].
  destruct (is_active x); by rewrite IH.
Qed.

(** When the cache of a project holds no entry with the active flag,
    [getActiveContext] returns what the store returns. *)
Lemma getActiveContext_through p w :
  List.find is_active (default [] (contextStack w !! p)) = None →
  fst (getActiveContext p w) = Return (Database.getActiveContext p (db w)).
Proof.
  intros H. unfold getActiveContext, catch, bind, get_cache, query. simpl.
  rewrite H. by destruct (Database.getActiveContext p (db w)).
Qed.

(** X7: after [getContextHistory], whatever the cache held before and
    whatever the limit, [getActiveContext] returns the context that the
    store marks active. *)
Theorem getContextHistory_then_getActiveContext (projectId : string)
    (limit : option nat) (w : World) :
  let w1 := snd (Manager.getContextHistory projectId limit w) in
  fst (getActiveContext projectId w1)
  = Return (Database.getActiveContext projectId (db w))
  ∧ db w1 = db w.
Proof.
  simpl. split; [|done].
  unfold Manager.getContextHistory, catch, bind, query, get_cache, set_cache, ret.
  cbn [fst snd db contextStack clock].
  match goal with |- fst (getActiveContext _ ?x) = _ => set (w1 := x) end.
  destruct (List.find is_active (default [] (contextStack w1 !! projectId)))
    as [c|] eqn:Hfind.
  - rewrite (getActiveContext_cached _ _ _ Hfind). simpl. f_equal.
    unfold w1 in Hfind. cbn [contextStack] in Hfind.
    rewrite lookup_insert_eq in Hfind. simpl in Hfind.
    symmetry. by eapply find_active_in_history.
  - by rewrite getActiveContext_through.
Qed.

(** X8: after [clearCache], for the project or for all projects,
    [getActiveContext] returns the context that the store marks active. *)
Theorem clearCache_then_getActiveContext (projectId : string) (w : World) :
  fst (getActiveContext projectId (snd (clearCache None w)))
  = Return (Database.getActiveContext projectId (db w))
  ∧ fst (getActiveContext projectId (snd (clearCache (Some projectId) w)))
    = Return (Database.getActiveContext projectId (db w)).
Proof.
  split; (rewrite getActiveContext_through; [reflexivity|]);
    unfold clearCache, bind, get_cache, set_cache; cbn [snd contextStack].
  - by rewrite lookup_empty.
  - by rewrite lookup_delete_eq.
Qed.

(** X9: [clearInactiveContexts] returns the number of rows it deleted,
    deletes no active row, and drops the cache of the project, so that
    [getActiveContext] then returns the context that the store marks
    active, which is the one it marked active before. *)
Theorem clearInactiveContexts_keeps_active (daysBefore : nat → nat → nat)
    (projectId : string) (olderThanDays : option nat) (w : World) :
  let '(result, w1) :=
    Manager.clearInactiveContexts daysBefore projectId olderThanDays w in
  (∃ deleted, result = Return deleted
     ∧ (length (Database.context_stack (db w1)) + deleted
        = length (Database.context_stack (db w)))%nat)
  ∧ (∀ q, Database.active_rows q (db w1) = Database.active_rows q (db w))
  ∧ contextStack w1 = delete projectId (contextStack w)
  ∧ fst (getActiveContext projectId w1)
    = Return (Database.getActiveContext projectId (db w)).
Proof.
  unfold Manager.clearInactiveContexts, catch, bind, Date_now, write, get_cache,
    set_cache, ret, Service.deleteOldContexts.
  cbn [fst snd db contextStack clock].
  split; [|split; [|split]].
  - eexists. split; [done|]. simpl.
    induction (Database.context_stack (db w)) as [|c rows IH]; simpl; [done|].
    destruct (Service.old_context _ _ c); simpl; lia.
  - intros q. unfold Database.active_rows. simpl. apply deleteOld_active_rows.
  - done.
  - rewrite getActiveContext_through.
    + unfold Database.getActiveContext. simpl. by rewrite deleteOld_active_rows.
    + cbn [contextStack]. by rewrite lookup_delete_eq.
Qed.

(** X10: [formatAge] counts whole minutes, hours and days of the time
    elapsed: less than a minute, or a date in the future, reads as now, and
    each unit is used from its first whole multiple up to the next unit. *)
Theorem formatAge_units (date : nat) (w : World) :
  let diffMs := (Z.of_nat (clock w) - Z.of_nat date)%Z in
  fst (Manager.formatAge date w)
  = Return
      (if (diffMs <? 60000)%Z then "Agora mesmo"
       else if (diffMs <? 3600000)%Z
            then pretty (diffMs / 60000)%Z +:+ " minuto(s) atrás"
       else if (diffMs <? 86400000)%Z
            then pretty (diffMs / 3600000)%Z +:+ " hora(s) atrás"
       else pretty (diffMs / 86400000)%Z +:+ " dia(s) atrás").
Proof.
  simpl. unfold Manager.age_of. f_equal.
  set (d := (Z.of_nat (clock w) - Z.of_nat date)%Z).
  change (1000 * 60)%Z with 60000%Z.
  rewrite !Z.div_div by lia.
  change (60000 * 60)%Z with 3600000%Z.
  change (60000 * (60 * 24))%Z with 86400000%Z.
  assert (Hpos : ∀ n, (0 < n)%Z → (0 <? d / n)%Z = negb (d <? n)%Z).
  { intros n Hn. destruct (Z.ltb_spec d n) as [Hlt|Hge]; simpl.
    - apply Z.ltb_ge. destruct (Z.lt_ge_cases d 0) as [Hneg|Hnn].
      + pose proof (Z.div_lt_upper_bound d n 0 Hn). lia.
      + rewrite Z.div_small by lia. lia.
    - apply Z.ltb_lt, Z.div_str_pos. lia. }
  rewrite !Hpos by lia.
  destruct (Z.ltb_spec d 60000), (Z.ltb_spec d 3600000), (Z.ltb_spec d 86400000);
    simpl; try done; lia.
Qed.

End ManagerFacts.

(** ** Effects: what a command leaves true, and what it leaves in the cache *)

Section PreserveFacts.
Variable P : Database.Store → Prop.

(** A command preserves a property of the store when the property holds
    after it, whether it returned or threw, if it held before. *)
Definition preserves {A} (m : M A) : Prop := ∀ w, P (db w) → P (db (snd (m w))).

Lemma preserves_ret {A} (a : A) : preserves (ret a).
Proof. by intros w. Qed.

Lemma preserves_bind {A C} (m : M A) (k : A → M C) :
  preserves m → (∀ a, preserves (k a)) → preserves (bind m k).
Proof.
  intros Hm Hk w Hw. unfold bind. specialize (Hm w Hw).
  destruct (m w) as [[a|e] w1]; simpl in *; [|done]. by apply Hk.
Qed.

Lemma preserves_catch {A} (m : M A) (h : string → M A) :
  preserves m → (∀ e, preserves (h e)) → preserves (catch m h).
Proof.
  intros Hm Hh w Hw. unfold catch. specialize (Hm w Hw).
  destruct (m w) as [[a|e] w1]; simpl in *; [done|]. by apply Hh.
Qed.

Lemma preserves_query {A} (q : Database.Store → A) : preserves (query q).
Proof. by intros w. Qed.

Lemma preserves_await {A} (r : outcome A) : preserves (await r).
Proof. by intros w. Qed.

Lemma preserves_Date_now : preserves Date_now.
Proof. by intros w. Qed.

Lemma preserves_write {A} (f : Database.Store → A * Database.Store) :
  (∀ s, P s → P (snd (f s))) → preserves (write f).
Proof.
  intros Hf w Hw. unfold write. specialize (Hf (db w) Hw). by destruct (f (db w)).
Qed.

Lemma preserves_write_or_throw {A} (f : Database.Store → outcome A * Database.Store) :
  (∀ s, P s → P (snd (f s))) → preserves (write_or_throw f).
Proof.
  intros Hf w Hw. unfold write_or_throw. specialize (Hf (db w) Hw).
  by destruct (f (db w)).
Qed.

Lemma preserves_getActiveContext p : preserves (Context.getActiveContext p).
Proof.
  intros w Hw. destruct (getActiveContext_reads p w) as (o & w' & -> & Hdb & _).
  simpl. by rewrite Hdb.
Qed.

End PreserveFacts.

Section CacheFrame.

(** A command that never touches the cache of the manager. *)
Definition keeps_cache {A} (m : M A) : Prop :=
  ∀ w, contextStack (snd (m w)) = contextStack w.

Lemma keeps_cache_ret {A} (a : A) : keeps_cache (ret a).
Proof. by intros w. Qed.

Lemma keeps_cache_bind {A C} (m : M A) (k : A → M C) :
  keeps_cache m → (∀ a, keeps_cache (k a)) → keeps_cache (bind m k).
Proof.
  intros Hm Hk w. unfold bind. specialize (Hm w).
  destruct (m w) as [[a|e] w1]; simpl in *; [|done]. by rewrite Hk.
Qed.

Lemma keeps_cache_catch {A} (m : M A) (h : string → M A) :
  keeps_cache m → (∀ e, keeps_cache (h e)) → keeps_cache (catch m h).
Proof.
  intros Hm Hh w. unfold catch. specialize (Hm w).
  destruct (m w) as [[a|e] w1]; simpl in *; [done|]. by rewrite Hh.
Qed.

Lemma keeps_cache_query {A} (q : Database.Store → A) : keeps_cache (query q).
Proof. by intros w. Qed.

Lemma keeps_cache_await {A} (r : outcome A) : keeps_cache (await r).
Proof. by intros w. Qed.

Lemma keeps_cache_Date_now : keeps_cache Date_now.
Proof. by intros w. Qed.

Lemma keeps_cache_write {A} (f : Database.Store → A * Database.Store) :
  keeps_cache (write f).
Proof. intros w. unfold write. by destruct (f (db w)). Qed.

Lemma keeps_cache_write_or_throw {A} (f : Database.Store → outcome A * Database.Store) :
  keeps_cache (write_or_throw f).
Proof. intros w. unfold write_or_throw. by destruct (f (db w)). Qed.

End CacheFrame.

(** ** The commands and the context they act on *)

Section UpdateFrames.

Lemma updateTask_contexts id u s :
  Database.context_stack (snd (Database.updateTask id u s)) = Database.context_stack s.
Proof.
  destruct (updateTask_cases id u s) as [(e & ->)|(n & row & _ & _ & ->)]; done.
Qed.

Lemma updateTodo_tasks id u s :
  Database.tasks (snd (Database.updateTodo id u s)) = Database.tasks s.
Proof. unfold Database.updateTodo. by destruct (Database.single _). Qed.

Lemma updateTodo_contexts id u s :
  Database.context_stack (snd (Database.updateTodo id u s)) = Database.context_stack s.
Proof. unfold Database.updateTodo. by destruct (Database.single _). Qed.

End UpdateFrames.

Ltac frame_step :=
  first
    [ apply keeps_ret | apply keeps_throw | apply keeps_query | apply keeps_await
    | apply keeps_Date_now | apply keeps_get_cache | apply keeps_set_cache
    | apply getActiveContext_keeps
    | apply keeps_catch | apply keeps_bind
    | apply keeps_cache_ret | apply keeps_cache_query | apply keeps_cache_await
    | apply keeps_cache_Date_now | apply keeps_cache_write
    | apply keeps_cache_write_or_throw | apply keeps_cache_catch | apply keeps_cache_bind
    | (apply keeps_write_or_throw; intros;
       first [apply updateTask_contexts | apply updateTodo_contexts
             | apply updateTodo_tasks | apply updateTask_todos])
    | (apply keeps_write; intros; reflexivity)
    | match goal with
      | |- ∀ _, _ => intro
      | |- keeps _ (match ?x with _ => _ end) => destruct x
      | |- keeps _ (if ?x then _ else _) => destruct x
      | |- keeps_cache (match ?x with _ => _ end) => destruct x
      | |- keeps_cache (if ?x then _ else _) => destruct x
      end ].

Ltac frame := repeat frame_step.

Section CommandFacts.
Import Types Processor.
Context {runtime : JS.Runtime}.
Variable analyze : AgentType → Orchestrator.Agent.



Lemma executeTask_keeps_contexts task todo context :
  keeps Database.context_stack (executeTask analyze task todo context).
Proof. unfold executeTask. frame. Qed.

Lemma executeTask_keeps_cache task todo context :
  keeps_cache (executeTask analyze task todo context).
Proof. unfold executeTask. frame. Qed.

Lemma handleExecute_keeps_contexts args context :
  keeps Database.context_stack (handleExecute analyze args context).
Proof.
  unfold handleExecute, checkTaskDependencies.
  repeat first [apply executeTask_keeps_contexts | frame_step].
Qed.

Lemma handleExecute_keeps_cache args context :
  keeps_cache (handleExecute analyze args context).
Proof.
  unfold handleExecute, checkTaskDependencies.
  repeat first [apply executeTask_keeps_cache | frame_step].
Qed.

(** What [getActiveContext] returns depends on the cache and on the table of
    contexts only. *)
Lemma getActiveContext_ext p w w' :
  contextStack w = contextStack w' →
  Database.context_stack (db w) = Database.context_stack (db w') →
  fst (Context.getActiveContext p w) = fst (Context.getActiveContext p w').
Proof.
  intros Hc Hs. unfold Context.getActiveContext, catch, bind, get_cache, query. simpl.
  rewrite Hc. destruct (List.find is_active _); [done|].
  unfold Database.getActiveContext. rewrite Hs.
  by destruct (Database.limit1_single _).
Qed.

(** X11: [handleExecute] writes neither to the table of contexts nor to
    the cache of the manager: whatever step it starts, the context that
    [getActiveContext] returns, and with it the step that [handleConfirm]
    and [handleError] act on, is the same after it as before. *)
Theorem handleExecute_leaves_the_context (args : ExecuteArgs) (context : CommandContext)
    (w : World) :
  let w' := snd (handleExecute analyze args context w) in
  contextStack w' = contextStack w
  ∧ Database.context_stack (db w') = Database.context_stack (db w)
  ∧ ∀ p, fst (Context.getActiveContext p w') = fst (Context.getActiveContext p w).
Proof.
  simpl.
  pose proof (handleExecute_keeps_cache args context w) as Hcache.
  pose proof (handleExecute_keeps_contexts args context w) as Hstore.
  split; [done|]. split; [done|]. intros p. by apply getActiveContext_ext.
Qed.

(** X12: a [handleExecute] that refuses the step (no step number, no work
    item in progress, no step of that number, dependencies not completed)
    has written nothing: the store, the cache and the clock are as before. *)
Theorem handleExecute_refusal_writes_nothing (args : ExecuteArgs)
    (context : CommandContext) (w w' : World) (r : CommandResult) :
  handleExecute analyze args context w = (Return r, w') →
  success r = false → message r ≠ "Erro ao executar task" → w' = w.
Proof.
  unfold handleExecute, catch.
  match goal with |- context [match ?body w with _ => _ end] =>
    destruct (body w) as [[r0|e] w0] eqn:Hbody end;
    [|intros [= <- _] _ Hm; by destruct Hm].
  intros [= <- <-] Hs _.
  destruct (taskNumber args) as [[|n]|]; try (by injection Hbody as _ <-).
  unfold bind at 1, query at 1 in Hbody. simpl in Hbody.
  destruct (Database.getActiveTodo (projectId context) (db w)) as [activeTodo|];
    [|by injection Hbody as _ <-].
  unfold bind at 1, query at 1 in Hbody. simpl in Hbody.
  destruct (List.find _ _) as [targetTask|]; [|by injection Hbody as _ <-].
  unfold bind at 1 in Hbody. rewrite gate_runs in Hbody.
  destruct (0 <? length _)%nat; [by injection Hbody as _ <-|].
  unfold bind at 1 in Hbody.
  destruct (executeTask analyze targetTask activeTodo context w) as [[result|e] w1];
    [|done].
  unfold bind at 1 in Hbody.
  destruct (write_or_throw _ w1) as [[todo|e] w2]; [|done].
  injection Hbody as <- _. done.
Qed.

End CommandFacts.

(** A refusal for dependencies that are not completed, on the store with
    two work items. *)
Lemma handleExecute_refusal_writes_nothing_witness :
  snd (Processor.handleExecute Samples.answering
         {| Processor.taskNumber := Some 2; Processor.force := None |}
         Samples.user (Samples.second_item Types.pending))
  = Samples.second_item Types.pending.
Proof.
  destruct (Processor.handleExecute Samples.answering
              {| Processor.taskNumber := Some 2; Processor.force := None |}
              Samples.user (Samples.second_item Types.pending))
    as [[r|e] w'] eqn:Hrun; [|vm_compute in Hrun; discriminate].
  apply (handleExecute_refusal_writes_nothing Samples.answering _ _ _ _ r Hrun).
  - vm_compute in Hrun. by injection Hrun as <- _.
  - vm_compute in Hrun. injection Hrun as <- _. simpl. discriminate.
Defined.

(** ** Running a command step by step *)

Section Inversion.

Lemma bind_inv {A B} (m : M A) (k : A → M B) w r w' :
  bind m k w = (Return r, w') →
  ∃ a w1, m w = (Return a, w1) ∧ k a w1 = (Return r, w').
Proof.
  unfold bind. destruct (m w) as [[a|e] w1]; [by eauto|done].
Qed.

Lemma catch_ret_inv {A} (m : M A) (h : string → A) w r w' :
  catch m (λ e, ret (h e)) w = (Return r, w') →
  m w = (Return r, w') ∨ ∃ e, m w = (Throw e, w') ∧ r = h e.
Proof.
  unfold catch, ret. destruct (m w) as [[a|e] w1]; intros [= <- <-]; eauto.
Qed.

Lemma query_inv {A} (q : Database.Store → A) w a w' :
  query q w = (Return a, w') → a = q (db w) ∧ w' = w.
Proof. by intros [= <- <-]. Qed.

Lemma ret_inv {A} (x : A) w a w' : ret x w = (Return a, w') → a = x ∧ w' = w.
Proof. by intros [= <- <-]. Qed.

Lemma Date_now_inv w a w' :
  Date_now w = (Return a, w') →
  a = clock w
  ∧ w' = {| db := db w; contextStack := contextStack w; clock := S (clock w) |}.
Proof. by intros [= <- <-]. Qed.

Lemma await_inv {A} (o : outcome A) w a w' :
  await o w = (Return a, w') → o = Return a ∧ w' = w.
Proof. by intros [= <- <-]. Qed.

Lemma keeps_inv {B A} (proj : Database.Store → B) (m : M A) w o w' :
  keeps proj m → m w = (o, w') → proj (db w') = proj (db w).
Proof. intros Hk Hm. specialize (Hk w). by rewrite Hm in Hk. Qed.

Lemma keeps_cache_inv {A} (m : M A) w o w' :
  keeps_cache m → m w = (o, w') → contextStack w' = contextStack w.
Proof. intros Hk Hm. specialize (Hk w). by rewrite Hm in Hk. Qed.

End Inversion.

Ltac run_step H :=
  let a := fresh "a" in
  let w1 := fresh "w" in
  let H1 := fresh "Hstep" in
  apply bind_inv in H as (a & w1 & H1 & H);
  first
    [ apply query_inv in H1 as [-> ->]
    | apply ret_inv in H1 as [-> ->]
    | apply Date_now_inv in H1 as [-> ->]
    | apply await_inv in H1 as [H1 ->]
    | idtac ].

Section ConfirmFacts.
Import Types Processor.

Lemma find_replace_or_push c l :
  List.find is_active l = None → is_active c = true →
  List.find is_active (Context.replace_or_push c l) = Some c.
Proof.
  intros Hl Hc. induction l as [|x l IH]; simpl in *; [by rewrite Hc|].
  destruct (is_active x) eqn:Ex; [done|].
  destruct (bool_decide _); simpl; [by rewrite Hc|]. rewrite Ex. auto.
Qed.

Lemma getActiveContext_store_active p s c :
  Database.getActiveContext p s = Some c → is_active c = true ∧ project_id c = p.
Proof.
  unfold Database.getActiveContext, Database.limit1_single, Database.order_desc.
  intros H%head_Some_elem_of. rewrite sort_Permutation in H.
  apply list_elem_of_In, filter_In in H as [_ [Hp%String.eqb_eq Ha]%andb_true_iff].
  done.
Qed.

(** After [getActiveContext] has returned a context, that context is the
    first cached entry of the project with the active flag. *)
Lemma getActiveContext_found p w c w1 :
  Context.getActiveContext p w = (Return (Some c), w1) →
  List.find is_active (default [] (contextStack w1 !! p)) = Some c
  ∧ db w1 = db w ∧ clock w1 = clock w.
Proof.
  unfold Context.getActiveContext, catch, bind, get_cache, query. simpl.
  destruct (List.find is_active (default [] (contextStack w !! p))) as [c0|] eqn:Hfind.
  - by intros [= <- <-].
  - destruct (Database.getActiveContext p (db w)) as [found|] eqn:Hdb; simpl; [|done].
    intros [= <- <-]. simpl. rewrite lookup_insert_eq. simpl.
    split; [|done]. apply find_replace_or_push; [done|].
    by apply getActiveContext_store_active in Hdb as [? _].
Qed.

Lemma find_app_Some {A} (f : A → bool) l x rest :
  List.find f l = Some x → List.find f (l ++ rest) = Some x.
Proof.
  induction l as [|y l IH]; simpl; [done|]. destruct (f y); [done|exact IH].
Qed.

Lemma getTask_ext id s s' :
  Database.tasks s = Database.tasks s' → Database.getTask id s = Database.getTask id s'.
Proof. unfold Database.getTask. by intros ->. Qed.

Lemma getNextTask_ext id n s s' :
  Database.tasks s = Database.tasks s' →
  Database.getNextTask id n s = Database.getNextTask id n s'.
Proof. unfold Database.getNextTask. by intros ->. Qed.

Lemma getTask_after_update k u s row s' :
  Database.getTask k s = Some row →
  Database.tasks s' = Database.update_where (Database.has_id task_ident k)
                        (Database.apply_task u) (Database.tasks s) →
  Database.getTask k s' = Some (Database.apply_task u row).
Proof.
  unfold Database.getTask. intros Hrow ->.
  rewrite filter_update_where by done. by rewrite single_map, Hrow.
Qed.

Lemma getTask_ident k s row : Database.getTask k s = Some row → task_ident row = Some k.
Proof.
  unfold Database.getTask. intros H%single_In.
  assert (In row (List.filter (Database.has_id task_ident k) (Database.tasks s)))
    as [_ Hrow]%filter_In by (rewrite H; by left).
  unfold Database.has_id in Hrow. by apply bool_decide_eq_true in Hrow.
Qed.

(** The run of a successful [handleConfirm]. *)
Lemma handleConfirm_run args context w r w' :
  handleConfirm args context w = (Return r, w') → success r = true →
  ∃ c k task next action,
    fst (Context.getActiveContext (projectId context) w) = Return (Some c)
    ∧ task_id c = Some (S k)
    ∧ Database.getTask (S k) (db w) = Some task
    ∧ status task = in_progress
    ∧ data r = Some (ConfirmData task next action)
    ∧ next = Database.getNextTask (todo_id task) (sequence_number task) (db w')
    ∧ (status <$> Database.getTask (S k) (db w')) = Some completed
    ∧ (∀ other, other ≠ S k →
                Database.getTask other (db w') = Database.getTask other (db w))
    ∧ List.find is_active (default [] (contextStack w' !! projectId context)) = Some c
    ∧ (task_id <$> Database.getActiveContext (projectId context) (db w'))
      = Some (next ≫= task_ident).
Proof.
  intros Hrun Hs. unfold handleConfirm in Hrun.
  apply catch_ret_inv in Hrun as [Hbody|(e & _ & ->)]; [|done].
  apply bind_inv in Hbody as (activeContext & w1 & Hread & Hbody).
  destruct activeContext as [c|]; simpl in Hbody;
    [|apply ret_inv in Hbody as [-> _]; done].
  destruct (getActiveContext_found _ _ _ _ Hread) as (Hfind & Hdb1 & Hclock1).
  destruct (task_id c) as [[|k]|] eqn:Htid;
    try (apply ret_inv in Hbody as [-> _]; done).
  run_step Hbody. rewrite Hdb1 in Hbody.
  destruct (Database.getTask (S k) (db w)) as [task|] eqn:Htask;
    [|apply ret_inv in Hbody as [-> _]; done].
  destruct (bool_decide (status task = in_progress)) eqn:Hst; simpl in Hbody;
    [|apply ret_inv in Hbody as [-> _]; done].
  apply bool_decide_eq_true in Hst.
  run_step Hbody. run_step Hbody.
  apply bind_inv in Hbody as (updated & w2 & Hupd & Hbody).
  unfold write_or_throw in Hupd. cbn [db contextStack clock] in Hupd.
  rewrite (getTask_ident _ _ _ Htask), Hdb1 in Hupd.
  destruct (Database.updateTask _ _ (db w)) as [[row|e] s2] eqn:Hup; [|done].
  apply updateTask_returned in Hup as ((old & Hold & Hrow) & Hget2 & Hothers & _).
  injection Hupd as <- <-.
  run_step Hbody. run_step Hbody. cbn [db] in Hbody.
  apply bind_inv in Hbody as (action & w3 & Haction & Hbody).
  run_step Hbody.
  apply bind_inv in Hbody as (saved & w4 & Hsave & Hbody).
  apply ret_inv in Hbody as [-> ->].
  rewrite saveContext_run in Hsave. injection Hsave as _ <-.
  assert (Database.tasks (db w3) = Database.tasks s2
          ∧ contextStack w3 = contextStack w1) as [Htasks3 Hcache3].
  { match type of Haction with ?m _ = _ =>
      assert (keeps Database.tasks m ∧ keeps_cache m) as [Hkt Hkc]
    end.
    { destruct (Database.getNextTask (todo_id task) (sequence_number task) s2);
        [split; frame|].
      destruct (Database.getTodo (todo_id task) s2); split; frame. }
    split.
    - by apply (keeps_inv Database.tasks _ _ _ _ Hkt) in Haction.
    - by apply (keeps_cache_inv _ _ _ _ Hkc) in Haction. }
  rewrite Htask in Hold. injection Hold as <-.
  exists c, k, task. eexists _, _.
  split; [by rewrite Hread|]. split; [done|]. split; [done|]. split; [done|].
  split; [reflexivity|].
  split; [|split; [|split; [|split]]].
  - unfold after_save. cbn [db]. unfold Database.saveContext. simpl.
    apply getNextTask_ext. simpl. by rewrite Htasks3.
  - unfold after_save. cbn [db]. unfold Database.saveContext. cbn [snd].
    rewrite (getTask_ext (S k) _ s2) by (simpl; by rewrite Htasks3).
    rewrite Hget2, Hrow. done.
  - intros other Hother. unfold after_save. cbn [db]. unfold Database.saveContext.
    cbn [snd]. rewrite (getTask_ext other _ s2) by (simpl; by rewrite Htasks3).
    by apply Hothers.
  - unfold after_save. cbn [contextStack Context.cd_project_id].
    rewrite lookup_insert_eq. cbn [default from_option id].
    apply find_app_Some. by rewrite Hcache3.
  - unfold after_save. cbn [db].
    match goal with |- context [Database.saveContext ?x ?n ?s] =>
      pose proof (saveContext_single_active x n s) as (Hact & _) end.
    unfold Database.active_rows in Hact. unfold Database.getActiveContext.
    cbn [project_id Context.contextToSave Context.cd_project_id] in Hact.
    rewrite Hact. reflexivity.
Qed.

End ConfirmFacts.

Section ConfirmOnce.
Import Types Processor.

(** X13: a successful [handleConfirm] completes the step named by the
    context that [getActiveContext] returned, and saves a context for the
    next pending step, which the store then marks active.  The manager,
    however, goes on returning the earlier context from its cache: as long
    as the cache is not cleared and the confirmed step stays completed,
    every further [handleConfirm] on the project is refused, because it
    looks at the confirmed step again. *)
Theorem handleConfirm_succeeds_once (args : ConfirmArgs) (context : CommandContext)
    (w w1 : World) (r : CommandResult) :
  handleConfirm args context w = (Return r, w1) → success r = true →
  ∃ k task next action,
    data r = Some (ConfirmData task next action)
    ∧ task_ident task = Some k
    ∧ (status <$> Database.getTask k (db w1)) = Some completed
    ∧ (task_id <$> Database.getActiveContext (projectId context) (db w1))
      = Some (next ≫= task_ident)
    ∧ ∀ args' w2,
        contextStack w2 = contextStack w1 →
        (status <$> Database.getTask k (db w2)) = Some completed →
        handleConfirm args' context w2
        = (Return (failure "Task não está em execução" "Status atual: completed"), w2).
Proof.
  intros Hrun Hs.
  destruct (handleConfirm_run args context w r w1 Hrun Hs)
    as (c & k & task & next & action & _ & Htid & Htask & _ & Hdata & _ & Hdone & _
        & Hfind & Hstore).
  exists (S k), task, next, action.
  split; [done|]. split; [by eapply getTask_ident|]. split; [done|]. split; [done|].
  intros args' w2 Hcache Hstatus.
  unfold handleConfirm, catch, bind.
  rewrite (getActiveContext_cached (projectId context) c w2) by (by rewrite Hcache).
  simpl. rewrite Htid. simpl. unfold query. simpl.
  destruct (Database.getTask (S k) (db w2)) as [t2|]; [|done].
  injection Hstatus as Hstatus. rewrite Hstatus. done.
Qed.

End ConfirmOnce.

(** The first step of the work item in progress is confirmed; a second
    confirmation is refused. *)
Lemma handleConfirm_succeeds_once_witness :
  let w1 := snd (Processor.handleConfirm {| Processor.arg_notes := None |}
                   Samples.user (Samples.executing Types.pending)) in
  fst (Processor.handleConfirm {| Processor.arg_notes := None |} Samples.user w1)
  = Return (Processor.failure "Task não está em execução" "Status atual: completed").
Proof.
  destruct (Processor.handleConfirm {| Processor.arg_notes := None |}
              Samples.user (Samples.executing Types.pending))
    as [[r|e] w1] eqn:Hrun; [|vm_compute in Hrun; discriminate].
  assert (Hs : Processor.success r = true)
    by (vm_compute in Hrun; by injection Hrun as <- _).
  destruct (handleConfirm_succeeds_once _ _ _ _ _ Hrun Hs)
    as (k & task & next & action & _ & _ & Hdone & _ & Hagain).
  simpl. by rewrite (Hagain {| Processor.arg_notes := None |} w1 eq_refl Hdone).
Defined.

Section ErrorFacts.
Import Types Processor.
Context {runtime : JS.Runtime}.
Variable analyze : AgentType → Orchestrator.Agent.

(** X14: a successful [handleError] adds one open bug report with the
    description given.  When the context that [getActiveContext] returned
    names a step that [getTask] finds, that step, whatever its status was,
    becomes [failed], its error count grows by one, its last error is the
    description and a correction entry with the analysis is appended; no
    other step changes.  Otherwise no step changes.  The work items are
    not written. *)
Theorem handleError_records_the_failure (args : ErrorArgs) (context : CommandContext)
    (w w' : World) (r : CommandResult) :
  handleError analyze args context w = (Return r, w') → success r = true →
  ∃ bug analysis task description,
    data r = Some (ErrorData bug analysis task)
    ∧ arg_description args = Some description
    ∧ Database.bugs (db w') = Database.bugs (db w) ++ [bug]
    ∧ bug_description bug = description
    ∧ bug_status bug = "open"
    ∧ bug_todo_id bug = (todo_id <$> task)
    ∧ Database.todos (db w') = Database.todos (db w)
    ∧ match task with
      | None => Database.tasks (db w') = Database.tasks (db w)
      | Some t =>
          ∃ k, task_ident t = Some k
               ∧ Database.getTask k (db w) = Some t
               ∧ (∃ t' entry,
                     Database.getTask k (db w') = Some t'
                     ∧ status t' = failed
                     ∧ error_count t' = error_count t + 1
                     ∧ last_error t' = Some description
                     ∧ corrections_applied t' = corrections_applied t ++ [entry]
                     ∧ corr_error entry = description
                     ∧ corr_analysis entry = summary analysis)
               ∧ ∀ other, other ≠ k →
                          Database.getTask other (db w') = Database.getTask other (db w)
      end.
Proof.
  intros Hrun Hs. unfold handleError in Hrun.
  apply catch_ret_inv in Hrun as [Hbody|(e & _ & ->)]; [|done].
  destruct (arg_description args) as [description|] eqn:Hdesc;
    [|apply ret_inv in Hbody as [-> _]; done].
  destruct (JS.truthy_string (Some description)) eqn:Htruthy; simpl in Hbody;
    [|apply ret_inv in Hbody as [-> _]; done].
  apply bind_inv in Hbody as (activeContext & w1 & Hread & Hbody).
  destruct (getActiveContext_reads (projectId context) w) as (o & w1' & Hread' & Hdb1 & _).
  rewrite Hread' in Hread. injection Hread as -> ->.
  apply bind_inv in Hbody as (currentTask & w2 & Hcurrent & Hbody).
  assert (w2 = w1 ∧ ∀ t, currentTask = Some t →
                         ∃ k, Database.getTask k (db w) = Some t) as [-> Hfound].
  { destruct (activeContext ≫= task_id) as [[|k]|].
    - apply ret_inv in Hcurrent as [-> ->]. by split.
    - apply query_inv in Hcurrent as [-> ->]. split; [done|].
      intros t Ht. exists (S k). by rewrite <- Hdb1.
    - apply ret_inv in Hcurrent as [-> ->]. by split. }
  clear Hcurrent.
  run_step Hbody. run_step Hbody.
  apply bind_inv in Hbody as (savedBug & w3 & Hbug & Hbody).
  unfold write in Hbug. simpl in Hbug. injection Hbug as <- <-.
  run_step Hbody.
  apply bind_inv in Hbody as (u & w4 & Hupdate & Hbody).
  apply ret_inv in Hbody as [-> ->].
  eexists _, a, currentTask, description.
  split; [reflexivity|]. split; [done|].
  destruct currentTask as [t|].
  - destruct (Hfound t eq_refl) as (k & Hk).
    run_step Hupdate.
    apply bind_inv in Hupdate as (row & w5 & Hupd & Hupdate).
    apply ret_inv in Hupdate as [_ ->].
    unfold write_or_throw in Hupd. cbn [db contextStack clock] in Hupd.
    rewrite (getTask_ident _ _ _ Hk), Hdb1 in Hupd.
    match type of Hupd with context [Database.updateTask ?i ?u ?s] =>
      destruct (Database.updateTask i u s) as [[row'|e] s5] eqn:Hup; [|done] end.
    injection Hupd as -> <-.
    apply updateTask_returned in Hup
      as ((old & Hold & Hrow) & Hget & Hothers & Htodos & Hbugs & _).
    simpl in Hold, Htodos, Hbugs, Hothers. cbn [db].
    fold (Database.getTask k (db w)) in Hold. 
    assert (Hold' : Database.getTask k (db w) = Some old) by exact Hold.
    rewrite Hk in Hold'. injection Hold' as <-.
    split; [by rewrite Hbugs|]. split; [done|]. split; [done|]. split; [done|].
    split; [by rewrite Htodos|].
    exists k. split; [by eapply getTask_ident|]. split; [done|]. split.
    + eexists row, _. split; [exact Hget|]. rewrite Hrow. simpl. done.
    + intros other Hother. rewrite (Hothers other Hother). done.
  - apply ret_inv in Hupdate as [_ ->]. simpl. rewrite ?Hdb1. repeat split; reflexivity.
Qed.

End ErrorFacts.

(** An error reported while the first step of the work item is being
    executed: the step ends failed. *)
Lemma handleError_records_the_failure_witness :
  let w' := snd (Processor.handleError (runtime := JS.lower_ascii_runtime)
                   Samples.answering
                   {| Processor.arg_description := Some "falhou";
                      Processor.stackTrace := None; Processor.screenshot := None |}
                   Samples.user (Samples.executing Types.pending)) in
  length (Database.bugs (db w')) = 1
  ∧ (Types.status <$> Database.getTask 1 (db w')) = Some Types.failed.
Proof.
  destruct (Processor.handleError (runtime := JS.lower_ascii_runtime)
              Samples.answering
              {| Processor.arg_description := Some "falhou";
                 Processor.stackTrace := None; Processor.screenshot := None |}
              Samples.user (Samples.executing Types.pending))
    as [[r|e] w'] eqn:Hrun; [|vm_compute in Hrun; discriminate].
  assert (Hs : Processor.success r = true)
    by (vm_compute in Hrun; by injection Hrun as <- _).
  destruct (handleError_records_the_failure Samples.answering _ _ _ _ _ Hrun Hs)
    as (bug & analysis & task & description & Hdata & _ & Hbugs & _ & _ & _ & _ & Htask).
  simpl. split; [by rewrite Hbugs|].
  assert (Ht : task = Some (Samples.task 1 "TODO-1" 1 Types.in_progress [])).
  { vm_compute in Hrun. injection Hrun as <- _. simpl in Hdata. by injection Hdata as _ _ <-. }
  rewrite Ht in Htask. destruct Htask as (k & Hk & _ & (t' & entry & Hget & Hst & _) & _).
  simpl in Hk. injection Hk as <-. rewrite Hget. simpl. by rewrite Hst.
Defined.

(** ** Creating a work item *)

Section CreateFacts.
Import Types Processor Commands.
Context {runtime : JS.Runtime}.
Variable analyze : AgentType → Orchestrator.Agent.
Variable JSON_stringify : MultiAgentAnalysis → string.

(** The row that [createTask] inserts for a task when the store assigns
    the identifier [id]. *)
Definition stored_task (id : nat) (task : Task) : Task :=
  fst (Database.createTask task
         (Database.with_tasks Samples.empty_store [] id)).

Lemma createTasks_run tasks w :
  createTasks tasks w
  = (Return (zip_with stored_task
               (seq (Database.next_task_id (db w)) (length tasks)) tasks),
     {| db := Database.with_tasks (db w)
                (Database.tasks (db w)
                 ++ zip_with stored_task
                      (seq (Database.next_task_id (db w)) (length tasks)) tasks)
                (Database.next_task_id (db w) + length tasks);
        contextStack := contextStack w;
        clock := clock w |}).
Proof.
  revert w. induction tasks as [|t tasks IH]; intros w.
  - simpl. unfold ret. destruct w as [[]]. simpl.
    by rewrite app_nil_r, Nat.add_0_r.
  - cbn [createTasks]. unfold bind at 1, write at 1. cbn [Database.createTask].
    unfold bind at 1. rewrite IH. unfold ret. cbn [db contextStack clock].
    cbn [Database.with_tasks Database.next_task_id Database.tasks length seq zip_with].
    f_equal. f_equal. unfold Database.with_tasks. cbn.
    rewrite <- app_assoc. cbn. f_equal. lia.
Qed.

Lemma generated_tasks todo analysis :
  let tasks := generateTasksFromAnalysis todo analysis in
  (1 ≤ length tasks ≤ 3)%nat
  ∧ Forall (λ t, status t = pending ∧ todo_id t = todo_ident todo) tasks.
Proof.
  unfold generateTasksFromAnalysis.
  destruct (JS.truthy_string (cons_developer (consensus analysis))),
           (JS.truthy_string (cons_qa (consensus analysis))); simpl;
    (split; [lia|]); repeat constructor.
Qed.

Lemma stored_tasks_fields n tasks :
  map task_ident (zip_with stored_task (seq n (length tasks)) tasks)
  = map Some (seq n (length tasks))
  ∧ map status (zip_with stored_task (seq n (length tasks)) tasks) = map status tasks
  ∧ map todo_id (zip_with stored_task (seq n (length tasks)) tasks) = map todo_id tasks
  ∧ map sequence_number (zip_with stored_task (seq n (length tasks)) tasks)
    = map sequence_number tasks
  ∧ map dependencies (zip_with stored_task (seq n (length tasks)) tasks)
    = map dependencies tasks.
Proof.
  revert n. induction tasks as [|t tasks IH]; intros n; simpl; [done|].
  destruct (IH (S n)) as (-> & -> & -> & -> & ->). done.
Qed.

(** The run of a successful [handleCreate]. *)
Lemma handleCreate_run args context w r w' :
  handleCreate analyze JSON_stringify args context w = (Return r, w') →
  success r = true →
  ∃ type description analysis todo,
    arg_type args = Some type
    ∧ arg_description args = Some description
    ∧ todo_status todo = todo_pending
    ∧ progress_percentage todo = 0%float
    ∧ todo_project_id todo = projectId context
    ∧ todo_ident todo = "TODO-" +:+ pretty (clock w)
    ∧ agent_consensus todo = consensus analysis
    ∧ let tasks :=
        zip_with stored_task
          (seq (Database.next_task_id (db w))
               (length (generateTasksFromAnalysis todo analysis)))
          (generateTasksFromAnalysis todo analysis) in
      data r = Some {| created_todo := todo; created_tasks := tasks;
                       created_analysis := analysis |}
      ∧ Database.todos (db w') = Database.todos (db w) ++ [todo]
      ∧ Database.tasks (db w') = Database.tasks (db w) ++ tasks
      ∧ Database.bugs (db w') = Database.bugs (db w)
      ∧ ∃ saved,
          Database.active_rows (projectId context) (db w') = [saved]
          ∧ ctx_todo_id saved = Some (todo_ident todo)
          ∧ task_id saved = (head tasks ≫= task_ident).
Proof.
  intros Hrun Hs. unfold handleCreate in Hrun.
  apply catch_ret_inv in Hrun as [Hbody|(e & _ & ->)]; [|done].
  destruct (arg_type args) as [type|]; [|apply ret_inv in Hbody as [-> _]; done].
  destruct (arg_description args) as [description|];
    [|apply ret_inv in Hbody as [-> _]; done].
  destruct (JS.truthy_string (Some description)); simpl in Hbody;
    [|apply ret_inv in Hbody as [-> _]; done].
  run_step Hbody. rename a into analysis.
  run_step Hbody. run_step Hbody.
  apply bind_inv in Hbody as (savedTodo & w1 & Htodo & Hbody).
  unfold write in Htodo. simpl in Htodo. injection Htodo as <- <-.
  apply bind_inv in Hbody as (savedTasks & w2 & Htasks & Hbody).
  rewrite createTasks_run in Htasks. injection Htasks as <- <-.
  run_step Hbody.
  apply bind_inv in Hbody as (saved & w3 & Hsave & Hbody).
  apply ret_inv in Hbody as [-> ->].
  rewrite saveContext_run in Hsave. injection Hsave as <- <-.
  exists type, description, analysis.
  match type of Hs with context [{| created_todo := ?t; created_tasks := _;
                                    created_analysis := _ |}] => exists t end.
  split; [done|]. split; [done|].
  split; [reflexivity|]. split; [reflexivity|]. split; [reflexivity|].
  split; [reflexivity|]. split; [reflexivity|].
  cbn zeta. split; [reflexivity|]. split; [reflexivity|]. split; [reflexivity|].
  split; [reflexivity|].
  match goal with |- context [after_save ?d ?w0] =>
    exists (saved_row d w0); split; [exact (saveContext_leaves_one_active d w0)|]
  end.
  split; reflexivity.
Qed.

Lemma stored_tasks_Forall (P : TaskStatus → string → Prop) n tasks :
  Forall (λ t, P (status t) (todo_id t)) tasks →
  Forall (λ t, P (status t) (todo_id t))
         (zip_with stored_task (seq n (length tasks)) tasks).
Proof.
  intros H. revert n. induction H as [|t tasks Ht _ IH]; intros n; simpl;
    constructor; [done|apply IH].
Qed.

Lemma getActiveTodo_after_pending p s s' todo :
  Database.todos s' = Database.todos s ++ [todo] →
  todo_status todo ≠ todo_in_progress →
  Database.getActiveTodo p s' = Database.getActiveTodo p s.
Proof.
  intros Htodos Hst. unfold Database.getActiveTodo.
  rewrite Htodos, List.filter_app. simpl.
  rewrite (bool_decide_eq_false_2 _ Hst), andb_false_r. by rewrite app_nil_r.
Qed.

(** X15: a successful [handleCreate] adds one work item, pending and at
    0 percent, and between one and three steps for it, all pending, with
    consecutive identifiers, the first of them numbered 1; the context it
    saves, which the store then marks active, names the work item and that
    first step.  The work item is not in progress: [getActiveTodo] returns
    what it returned before. *)
Theorem handleCreate_creates_pending_work (args : CreateArgs) (context : CommandContext)
    (w w' : World) (r : Result CreateData) :
  handleCreate analyze JSON_stringify args context w = (Return r, w') →
  success r = true →
  ∃ created first rest,
    data r = Some created
    ∧ todo_status (created_todo created) = todo_pending
    ∧ progress_percentage (created_todo created) = 0%float
    ∧ todo_project_id (created_todo created) = projectId context
    ∧ Database.todos (db w') = Database.todos (db w) ++ [created_todo created]
    ∧ Database.tasks (db w') = Database.tasks (db w) ++ created_tasks created
    ∧ created_tasks created = first :: rest
    ∧ (length rest ≤ 2)%nat
    ∧ sequence_number first = 1
    ∧ map task_ident (created_tasks created)
      = map Some (seq (Database.next_task_id (db w)) (length (created_tasks created)))
    ∧ Forall (λ t, status t = pending ∧ todo_id t = todo_ident (created_todo created))
             (created_tasks created)
    ∧ (∃ saved,
          Database.getActiveContext (projectId context) (db w') = Some saved
          ∧ ctx_todo_id saved = Some (todo_ident (created_todo created))
          ∧ task_id saved = task_ident first)
    ∧ Database.getActiveTodo (projectId context) (db w')
      = Database.getActiveTodo (projectId context) (db w).
Proof.
  intros Hrun Hs.
  destruct (handleCreate_run args context w r w' Hrun Hs)
    as (type & description & analysis & todo & _ & _ & Hst & Hp & Hproj & _ & _
        & Hdata & Htodos & Htasks & _ & saved & Hact & Hstodo & Hstask).
  destruct (generated_tasks todo analysis) as [Hlen Hall].
  destruct (stored_tasks_fields (Database.next_task_id (db w))
              (generateTasksFromAnalysis todo analysis))
    as (Hids & _ & _ & Hseq & _).
  set (tasks := zip_with stored_task _ _) in *.
  assert (Hlength : length tasks = length (generateTasksFromAnalysis todo analysis)).
  { unfold tasks. rewrite length_zip_with, length_seq. lia. }
  destruct tasks as [|first rest] eqn:Etasks; [simpl in Hlength; lia|].
  exists {| created_todo := todo; created_tasks := first :: rest;
            created_analysis := analysis |}, first, rest.
  cbn [created_todo created_tasks].
  split; [done|]. split; [done|]. split; [done|]. split; [done|].
  split; [done|]. split; [done|]. split; [done|].
  split; [simpl in Hlength; lia|].
  split.
  { unfold generateTasksFromAnalysis in Hseq.
    destruct (JS.truthy_string _), (JS.truthy_string _); simpl in Hseq;
      by injection Hseq as -> _. }
  split; [by rewrite Hlength|].
  split.
  { rewrite <- Etasks. apply (stored_tasks_Forall (λ st id, st = pending ∧ id = todo_ident todo)).
    exact Hall. }
  split.
  - exists saved. unfold Database.active_rows in Hact. unfold Database.getActiveContext.
    rewrite Hact. done.
  - eapply getActiveTodo_after_pending; [exact Htodos|]. by rewrite Hst.
Qed.

End CreateFacts.

(** A work item created on an empty store by a freshly started server. *)
Lemma handleCreate_creates_pending_work_witness :
  let '(_, w') :=
    Commands.handleCreate (runtime := JS.lower_ascii_runtime) Samples.answering
      (λ a, Types.summary a)
      {| Commands.arg_type := Some Types.feature;
         Commands.arg_description := Some "relatorio de vendas";
         Commands.arg_priority := None; Commands.arg_tags := None |}
      Samples.user Samples.fresh in
  map Types.todo_status (Database.todos (db w')) = [Types.todo_pending]
  ∧ map Types.sequence_number (Database.tasks (db w')) = [1; 2; 3]
  ∧ Database.getActiveTodo "P" (db w') = None.
Proof.
  destruct (Commands.handleCreate (runtime := JS.lower_ascii_runtime) Samples.answering
              (λ a, Types.summary a)
              {| Commands.arg_type := Some Types.feature;
                 Commands.arg_description := Some "relatorio de vendas";
                 Commands.arg_priority := None; Commands.arg_tags := None |}
              Samples.user Samples.fresh) as [[r|e] w'] eqn:Hrun;
    [|vm_compute in Hrun; discriminate].
  assert (Hs : Commands.success r = true)
    by (vm_compute in Hrun; by injection Hrun as <- _).
  destruct (handleCreate_creates_pending_work Samples.answering _ _ _ _ _ _ Hrun Hs)
    as (created & first & rest & _ & Hst & _ & _ & Htodos & Htasks & _ & _ & _ & _ & _
        & _ & Hactive).
  split; [|split].
  - rewrite Htodos. simpl. by rewrite Hst.
  - vm_compute in Hrun. by injection Hrun as _ <-.
  - etransitivity; [exact Hactive|reflexivity].
Defined.

(** ** Resuming and reporting *)

Section ContinueFacts.
Import Types Commands.

Lemma status_counts (tasks : list Task) :
  (length (List.filter (λ t, bool_decide (status t = completed)) tasks)
   + length (List.filter (λ t, bool_decide (status t = in_progress)) tasks)
   + length (List.filter (λ t, bool_decide (status t = pending)) tasks)
   ≤ length tasks)%nat.
Proof.
  induction tasks as [|t tasks IH]; simpl; [done|].
  destruct (status t); simpl; lia.
Qed.

Lemma updateTodo_bugs id u s :
  Database.bugs (snd (Database.updateTodo id u s)) = Database.bugs s.
Proof. unfold Database.updateTodo. by destruct (Database.single _). Qed.

(** The run of a successful [handleContinue]. *)
Lemma handleContinue_run context w r w' :
  handleContinue context w = (Return r, w') → success r = true →
  ∃ c todo task,
    fst (Context.getActiveContext (projectId context) w) = Return (Some c)
    ∧ Database.getTodo (todo_ident todo) (db w) = Some todo
    ∧ let tasks := Database.listTasks (todo_ident todo) (db w) in
      let count st := length (List.filter (λ t, bool_decide (status t = st)) tasks) in
      data r = Some {| cont_todo := todo; currentTask := task; allTasks := tasks;
                       cont_context := c;
                       cont_summary :=
                         {| total := length tasks;
                            completed_count := count completed;
                            inProgress := count in_progress;
                            pending_count := count pending |} |}
      ∧ Database.tasks (db w') = Database.tasks (db w)
      ∧ Database.context_stack (db w') = Database.context_stack (db w)
      ∧ Database.bugs (db w') = Database.bugs (db w)
      ∧ if bool_decide (todo_status todo = todo_pending)
           && ((0 <? count in_progress)%nat || (0 <? count completed)%nat)
        then (todo_status <$> Database.getTodo (todo_ident todo) (db w'))
             = Some todo_in_progress
        else Database.todos (db w') = Database.todos (db w).
Proof.
  intros Hrun Hs. unfold handleContinue in Hrun.
  apply catch_ret_inv in Hrun as [Hbody|(e & _ & ->)]; [|done].
  apply bind_inv in Hbody as (activeContext & w1 & Hread & Hbody).
  destruct activeContext as [c|]; [|apply ret_inv in Hbody as [-> _]; done].
  destruct (getActiveContext_found _ _ _ _ Hread) as (_ & Hdb1 & _).
  apply bind_inv in Hbody as (todo & w2 & Htodo & Hbody).
  assert (w2 = w1 ∧ ∀ t, todo = Some t → Database.getTodo (todo_ident t) (db w) = Some t)
    as [-> Hfound].
  { destruct (JS.truthy_string (ctx_todo_id c)).
    - apply query_inv in Htodo as [-> ->]. split; [done|]. intros t Ht.
      rewrite Hdb1 in Ht. by rewrite (getTodo_ident _ _ _ Ht).
    - apply ret_inv in Htodo as [-> ->]. by split. }
  clear Htodo.
  apply bind_inv in Hbody as (task & w2 & Htask & Hbody).
  assert (w2 = w1) as ->.
  { destruct (JS.truthy_number (task_id c)).
    - by apply query_inv in Htask as [_ ->].
    - by apply ret_inv in Htask as [_ ->]. }
  clear Htask.
  destruct todo as [todo|]; [|apply ret_inv in Hbody as [-> _]; done].
  specialize (Hfound todo eq_refl).
  run_step Hbody. rewrite Hdb1 in Hbody.
  apply bind_inv in Hbody as (u & w3 & Hupdate & Hbody).
  apply ret_inv in Hbody as [-> ->].
  exists c, todo, task. split; [by rewrite Hread|]. split; [done|].
  cbn zeta. split; [reflexivity|].
  destruct (bool_decide (todo_status todo = todo_pending) && _) eqn:Hcond.
  - run_step Hupdate. apply ret_inv in Hupdate as [_ ->].
    unfold write_or_throw in Hstep. rewrite Hdb1 in Hstep.
    match type of Hstep with context [Database.updateTodo _ ?u _] =>
      destruct (updateTodo_found _ u _ _ Hfound) as (s' & Hupd & Hget & Htasks & Hctx)
    end.
    rewrite Hupd in Hstep. injection Hstep as _ <-. cbn [db].
    split; [done|]. split; [done|]. split.
    + match type of Hupd with Database.updateTodo ?i ?u ?s = _ =>
        pose proof (updateTodo_bugs i u s) as Hb end.
      by rewrite Hupd in Hb.
    + by rewrite Hget.
  - apply ret_inv in Hupdate as [_ ->]. by rewrite Hdb1.
Qed.

(** X16: a successful [handleContinue] reports the work item named by the
    active context as [getTodo] found it, with its steps in order and their
    counts, of which the completed, the started and the pending ones make up
    at most the total.  It writes to no step.  When the work item is
    pending and has a started or a completed step, the store afterwards
    holds it as in progress, while the work item in the result is still
    pending; otherwise no work item is written. *)
Theorem handleContinue_reports_then_promotes (context : CommandContext) (w w' : World)
    (r : Result ContinueData) :
  handleContinue context w = (Return r, w') → success r = true →
  ∃ d, data r = Some d
    ∧ fst (Context.getActiveContext (projectId context) w) = Return (Some (cont_context d))
    ∧ Database.getTodo (todo_ident (cont_todo d)) (db w) = Some (cont_todo d)
    ∧ allTasks d = Database.listTasks (todo_ident (cont_todo d)) (db w)
    ∧ total (cont_summary d) = length (allTasks d)
    ∧ (completed_count (cont_summary d) + inProgress (cont_summary d)
       + pending_count (cont_summary d) ≤ total (cont_summary d))%nat
    ∧ Database.tasks (db w') = Database.tasks (db w)
    ∧ if bool_decide (todo_status (cont_todo d) = todo_pending)
         && negb (inProgress (cont_summary d) + completed_count (cont_summary d) =? 0)%nat
      then (todo_status <$> Database.getTodo (todo_ident (cont_todo d)) (db w'))
           = Some todo_in_progress
      else Database.todos (db w') = Database.todos (db w).
Proof.
  intros Hrun Hs.
  destruct (handleContinue_run context w r w' Hrun Hs)
    as (c & todo & task & Hread & Hget & Hdata & Htasks & _ & _ & Hpromote).
  eexists. split; [exact Hdata|]. cbn [cont_context cont_todo allTasks cont_summary
    total completed_count inProgress pending_count].
  split; [done|]. split; [done|]. split; [done|]. split; [done|].
  split; [apply status_counts|]. split; [done|].
  match goal with |- if ?b1 && ?x then _ else _ =>
    match type of Hpromote with if _ && ?y then _ else _ =>
      replace x with y; [exact Hpromote|] end end.
  destruct (length (List.filter _ _)), (length (List.filter _ _)); done.
Qed.

End ContinueFacts.

(** Resuming a pending work item whose first step was started. *)
Lemma handleContinue_reports_then_promotes_witness :
  let w := {| db := Database.with_todos (db (Samples.executing Types.pending))
                      [Samples.todo "TODO-1" Types.todo_pending 0];
              contextStack := ∅; clock := 5 |} in
  let '(r, w') := Commands.handleContinue Samples.user w in
  (Types.todo_status <$> (Commands.cont_todo <$> (returned r ≫= Commands.data)))
  = Some Types.todo_pending
  ∧ (Types.todo_status <$> Database.getTodo "TODO-1" (db w')) = Some Types.todo_in_progress.
Proof.
  cbv zeta.
  destruct (Commands.handleContinue Samples.user _) as [[r|e] w'] eqn:Hrun;
    [|vm_compute in Hrun; discriminate].
  assert (Hs : Commands.success r = true)
    by (vm_compute in Hrun; by injection Hrun as <- _).
  destruct (handleContinue_reports_then_promotes _ _ _ _ Hrun Hs)
    as (d & Hdata & _ & _ & _ & _ & _ & _ & Hpromote).
  vm_compute in Hrun. injection Hrun as <- <-.
  simpl in Hdata. injection Hdata as <-.
  split; [reflexivity|]. exact Hpromote.
Defined.

Section StatusFacts.
Import Types Commands.
Variable analyses : list Service.Analysis.

Lemma length_order_desc {A} (key : A → nat) l :
  length (Database.order_desc key l) = length l.
Proof. unfold Database.order_desc. apply Permutation_length, sort_Permutation. Qed.

Lemma length_listTodos p st s :
  length (Service.listTodos p (Some st) s)
  = length (List.filter (λ t, bool_decide (todo_status t = st))
              (List.filter (λ t, String.eqb (todo_project_id t) p) (Database.todos s))).
Proof.
  unfold Service.listTodos. by rewrite filter_order_desc, length_order_desc.
Qed.

Lemma todo_status_counts (todos : list Todo) :
  (length (List.filter (λ t, bool_decide (todo_status t = todo_in_progress)) todos)
   + length (List.filter (λ t, bool_decide (todo_status t = todo_pending)) todos)
   + length (List.filter (λ t, bool_decide (todo_status t = todo_completed)) todos)
   ≤ length todos)%nat.
Proof.
  induction todos as [|t todos IH]; simpl; [done|].
  destruct (todo_status t); simpl; lia.
Qed.

Lemma bug_status_counts (bugs : list Bug) :
  (length (List.filter (λ b, String.eqb (bug_status b) "open") bugs)
   + length (List.filter (λ b, existsb (String.eqb (bug_status b)) ["resolved"; "closed"])
                         bugs)
   ≤ length bugs)%nat.
Proof.
  induction bugs as [|b bugs IH]; [done|]. cbn [List.filter].
  destruct (String.eqb_spec (bug_status b) "open") as [Hopen|_];
    destruct (existsb (String.eqb (bug_status b)) ["resolved"; "closed"]) eqn:E;
    cbn [length]; try lia.
  rewrite Hopen in E. discriminate.
Qed.

(** X17: on a store that answers its queries [handleStatus] succeeds and
    writes nothing to the store.
    Of the counts it reports, the work items in progress, pending and
    completed make up at most the total of the project, the completed ones
    agree with the statistics, the completed steps are at most the steps,
    and the open and the resolved bugs make up at most the bugs. *)
Theorem handleStatus_reads_consistent_counts (args : StatusArgs)
    (context : CommandContext) (w : World) :
  ∃ d w',
    handleStatus analyses args context w
    = (Return {| success := true; message := "Status do projeto";
                 data := Some d; error := None |}, w')
    ∧ db w' = db w
    ∧ (todos_active d + todos_pending d + todos_completed d ≤ todos_total d)%nat
    ∧ todos_completed d = Service.completedTodos (project_stats d)
    ∧ (tasks_completed d ≤ tasks_total d)%nat
    ∧ (bugs_open d + bugs_resolved d ≤ bugs_total d)%nat
    ∧ (status_context d ≫= st_taskId)
      = (match fst (Context.getActiveContext (projectId context) w) with
         | Return c => c ≫= task_id
         | Throw _ => None
         end).
Proof.
  unfold handleStatus, catch, bind, query. cbn [fst snd].
  destruct (getActiveContext_reads (projectId context) w) as (o & w1 & Hread & Hdb & _).
  rewrite Hread. unfold ret. eexists _, w1. split; [reflexivity|].
  cbn [todos_active todos_pending todos_completed todos_total tasks_completed
         tasks_total bugs_open bugs_resolved bugs_total project_stats status_context
         Service.totalTodos Service.completedTodos Service.totalTasks
         Service.completedTasks Service.totalBugs Service.resolvedBugs
         Service.getProjectStats fst].
  split; [done|]. rewrite !length_listTodos.
  split; [apply todo_status_counts|]. split; [done|].
  split; [apply List.filter_length_le|]. split.
  - unfold Service.listBugs. simpl.
    rewrite List.filter_rev, length_rev. apply bug_status_counts.
  - by destruct o.
Qed.

End StatusFacts.

(** ** Sessions: what a sequence of commands can reach *)

Section SessionFacts.
Import Types.
Context {runtime : JS.Runtime}.
Variable analyze : AgentType → Orchestrator.Agent.
Variable JSON_stringify : MultiAgentAnalysis → string.
Variable analyses : list Service.Analysis.

(** The commands of the processor that change or read the workflow. *)
Inductive Command :=
  | criar (args : Commands.CreateArgs)
  | executar (args : Processor.ExecuteArgs)
  | confirmar (args : Processor.ConfirmArgs)
  | erro (args : Processor.ErrorArgs)
  | continuar
  | status_do_projeto (args : Commands.StatusArgs).

(** One command, issued for a project; the value is the [success] flag of
    its result. *)
Definition issue (context : CommandContext) (command : Command) : M bool :=
  match command with
  | criar args =>
      do r <- Commands.handleCreate analyze JSON_stringify args context;
      ret (Commands.success r)
  | executar args =>
      do r <- Processor.handleExecute analyze args context;
      ret (Processor.success r)
  | confirmar args =>
      do r <- Processor.handleConfirm args context;
      ret (Processor.success r)
  | erro args =>
      do r <- Processor.handleError analyze args context;
      ret (Processor.success r)
  | continuar =>
      do r <- Commands.handleContinue context;
      ret (Commands.success r)
  | status_do_projeto args =>
      do r <- Commands.handleStatus analyses args context;
      ret (Commands.success r)
  end.

(** A sequence of commands, one after the other. *)
Fixpoint session (commands : list (CommandContext * Command)) : M (list bool) :=
  match commands with
  | [] => ret []
  | (context, command) :: rest =>
      do flag <- issue context command;
      do flags <- session rest;
      ret (flag :: flags)
  end.

(** A store in which no work item is in progress and no step is started or
    completed: the state of a new project, and of any project whose work
    items were only ever created. *)
Definition idle (s : Database.Store) : Prop :=
  Forall (λ t, todo_status t ≠ todo_in_progress) (Database.todos s)
  ∧ Forall (λ t, status t ≠ in_progress ∧ status t ≠ completed) (Database.tasks s).

Lemma idle_no_active_todo p s : idle s → Database.getActiveTodo p s = None.
Proof.
  intros [Htodos _]. unfold Database.getActiveTodo.
  assert (List.filter (λ t, String.eqb (todo_project_id t) p
                            && bool_decide (todo_status t = todo_in_progress))
                      (Database.todos s) = []) as ->; [|done].
  induction Htodos as [|t l Ht _ IH]; simpl; [done|].
  by rewrite (bool_decide_eq_false_2 _ Ht), andb_false_r.
Qed.

Lemma idle_getTask k s t :
  idle s → Database.getTask k s = Some t → status t ≠ in_progress ∧ status t ≠ completed.
Proof.
  intros [_ Htasks] Hget. unfold Database.getTask in Hget. apply single_In in Hget.
  assert (In t (List.filter (Database.has_id task_ident k) (Database.tasks s)))
    as [Hin _]%filter_In by (rewrite Hget; by left).
  rewrite Forall_forall in Htasks. apply Htasks. by apply list_elem_of_In.
Qed.

Lemma idle_listTasks id s st :
  idle s → st = in_progress ∨ st = completed →
  List.filter (λ t, bool_decide (status t = st)) (Database.listTasks id s) = [].
Proof.
  intros [_ Htasks] Hst. rewrite Forall_forall in Htasks.
  assert (∀ t, In t (Database.listTasks id s) → status t ≠ st) as Hall.
  { intros t [Ht%list_elem_of_In _]%In_listTasks. apply Htasks in Ht as [? ?].
    by destruct Hst as [->| ->]. }
  induction (Database.listTasks id s) as [|t l IH]; simpl; [done|].
  rewrite bool_decide_eq_false_2 by (apply Hall; by left).
  apply IH. intros t' Ht'. apply Hall. by right.
Qed.

Lemma idle_ext s s' :
  Database.todos s' = Database.todos s → Database.tasks s' = Database.tasks s →
  idle s → idle s'.
Proof. unfold idle. by intros -> ->. Qed.

Lemma idle_update_failed id u s :
  Database.upd_status u = Some failed → idle s → idle (snd (Database.updateTask id u s)).
Proof.
  intros Hu [Htodos Htasks].
  destruct (updateTask_cases id u s) as [(e & ->)|(n & row & _ & _ & ->)]; [done|].
  split; [done|]. simpl. unfold Database.update_where.
  rewrite Forall_map. eapply Forall_impl; [exact Htasks|].
  intros t Ht. simpl. destruct (Database.has_id task_ident n t); [|done].
  simpl. by rewrite Hu.
Qed.

Lemma preserves_saveContext (P : Database.Store → Prop) data :
  (∀ s s', Database.todos s' = Database.todos s → Database.tasks s' = Database.tasks s →
           P s → P s') →
  preserves P (Context.saveContext data).
Proof.
  intros HP w Hw. rewrite saveContext_run. simpl.
  eapply HP; [| |exact Hw]; reflexivity.
Qed.

Lemma preserves_createTasks tasks :
  Forall (λ t, status t = pending) tasks → preserves idle (Commands.createTasks tasks).
Proof.
  intros Hall w [Htodos Htasks]. rewrite createTasks_run. simpl. split; [done|].
  simpl. rewrite Forall_app. split; [done|].
  apply (stored_tasks_Forall (λ st _, st ≠ in_progress ∧ st ≠ completed)).
  eapply Forall_impl; [exact Hall|]. by intros ? ->.
Qed.

Lemma handleCreate_idle args context :
  preserves idle (Commands.handleCreate analyze JSON_stringify args context).
Proof.
  unfold Commands.handleCreate.
  apply preserves_catch; [|intros; apply preserves_ret].
  destruct (Commands.arg_type args); [|apply preserves_ret].
  destruct (negb _); [apply preserves_ret|].
  apply preserves_bind; [apply preserves_await|]. intros analysis.
  apply preserves_bind; [apply preserves_Date_now|]. intros stamp.
  apply preserves_bind; [apply preserves_Date_now|]. intros created.
  apply preserves_bind.
  { apply preserves_write. intros s [Htodos Htasks]. split; [|done]. simpl.
    rewrite Forall_app. split; [done|]. by repeat constructor. }
  intros savedTodo.
  apply preserves_bind.
  { apply preserves_createTasks.
    destruct (generated_tasks savedTodo analysis) as [_ Hall].
    eapply Forall_impl; [exact Hall|]. by intros ? [? _]. }
  intros savedTasks.
  apply preserves_bind; [apply preserves_Date_now|]. intros createdAt.
  apply preserves_bind; [|intros; apply preserves_ret].
  apply preserves_saveContext. intros. by eapply idle_ext.
Qed.

Lemma handleError_idle args context :
  preserves idle (Processor.handleError analyze args context).
Proof.
  unfold Processor.handleError.
  apply preserves_catch; [|intros; apply preserves_ret].
  destruct (negb _); [apply preserves_ret|].
  apply preserves_bind; [apply preserves_getActiveContext|]. intros activeContext.
  apply preserves_bind.
  { destruct (activeContext ≫= task_id) as [[|k]|];
      [apply preserves_ret|apply preserves_query|apply preserves_ret]. }
  intros currentTask.
  apply preserves_bind; [apply preserves_Date_now|]. intros now.
  apply preserves_bind; [apply preserves_Date_now|]. intros now'.
  apply preserves_bind; [apply preserves_write; by intros s Hs|]. intros savedBug.
  apply preserves_bind; [apply preserves_await|]. intros errorAnalysis.
  apply preserves_bind; [|intros; apply preserves_ret].
  destruct currentTask as [currentTask|]; [|apply preserves_ret].
  apply preserves_bind; [apply preserves_Date_now|]. intros timestamp.
  apply preserves_bind; [|intros; apply preserves_ret].
  apply preserves_write_or_throw. intros s Hs. by apply idle_update_failed.
Qed.

(** On an idle store [handleExecute] is refused and writes nothing. *)
Lemma handleExecute_idle args context w :
  idle (db w) →
  ∃ r, Processor.handleExecute analyze args context w = (Return r, w)
       ∧ Processor.success r = false.
Proof.
  intros Hidle. unfold Processor.handleExecute, catch, bind, query.
  destruct (Processor.taskNumber args) as [[|n]|]; try (by eexists).
  cbn [fst snd]. rewrite (idle_no_active_todo _ _ Hidle). by eexists.
Qed.

(** On an idle store [handleConfirm] is refused and leaves the store as it
    was. *)
Lemma handleConfirm_idle args context w :
  idle (db w) →
  ∃ r w', Processor.handleConfirm args context w = (Return r, w')
          ∧ Processor.success r = false ∧ db w' = db w.
Proof.
  intros Hidle. unfold Processor.handleConfirm, catch, bind.
  destruct (getActiveContext_reads (projectId context) w) as (o & w1 & -> & Hdb & _).
  destruct (o ≫= task_id) as [[|k]|]; try (by eexists _, _).
  unfold query. cbn [fst snd]. rewrite Hdb.
  destruct (Database.getTask (S k) (db w)) as [task|] eqn:Htask; [|by eexists _, _].
  destruct (idle_getTask _ _ _ Hidle Htask) as [Hst _].
  rewrite (bool_decide_eq_false_2 _ Hst). by eexists _, _.
Qed.

(** On an idle store [handleContinue] leaves the store as it was. *)
Lemma handleContinue_idle context w :
  idle (db w) →
  ∃ r w', Commands.handleContinue context w = (Return r, w') ∧ db w' = db w.
Proof.
  intros Hidle. unfold Commands.handleContinue, catch, bind.
  destruct (getActiveContext_reads (projectId context) w) as (o & w1 & -> & Hdb & _).
  destruct o as [c|]; [|by eexists _, _].
  assert (∀ (b : bool) (q : Database.Store → option Todo),
            ∃ t, (if b then query q else ret None) w1 = (Return t, w1)) as Htodo
    by (intros [] q; by eexists).
  destruct (Htodo (JS.truthy_string (ctx_todo_id c))
              (Database.getTodo (default "" (ctx_todo_id c)))) as [todo ->].
  assert (∀ (b : bool) (q : Database.Store → option Task),
            ∃ t, (if b then query q else ret None) w1 = (Return t, w1)) as Htask
    by (intros [] q; by eexists).
  destruct (Htask (JS.truthy_number (task_id c))
              (Database.getTask (default 0 (task_id c)))) as [task ->].
  destruct todo as [todo|]; [|by eexists _, _].
  unfold query. cbn [fst snd]. rewrite Hdb.
  rewrite !(idle_listTasks _ _ _ Hidle) by auto.
  simpl. rewrite andb_false_r. by eexists _, _.
Qed.

Lemma handleStatus_reads args context w :
  ∃ r w', Commands.handleStatus analyses args context w = (Return r, w') ∧ db w' = db w.
Proof.
  unfold Commands.handleStatus, catch, bind, query. cbn [fst snd].
  destruct (getActiveContext_reads (projectId context) w) as (o & w1 & -> & Hdb & _).
  by eexists _, _.
Qed.

Lemma catch_returns {A} (m : M A) (h : string → A) w :
  ∃ r w', catch m (λ e, ret (h e)) w = (Return r, w').
Proof. unfold catch, ret. destruct (m w) as [[a|e] w1]; by eexists _, _. Qed.

(** One command on an idle store: it returns, the store is idle
    afterwards, and a command that starts or confirms a step is refused. *)
Lemma issue_idle context command w :
  idle (db w) →
  ∃ flag w', issue context command w = (Return flag, w')
             ∧ idle (db w')
             ∧ match command with
               | executar _ | confirmar _ => flag = false
               | _ => True
               end.
Proof.
  intros Hidle. destruct command as [args|args|args|args| |args]; unfold issue, bind.
  - pose proof (handleCreate_idle args context w Hidle) as Hp.
    unfold Commands.handleCreate in *.
    match goal with |- context [catch ?m ?h w] =>
      destruct (catch_returns m (λ e, Commands.failure "Erro ao criar TODO" e) w)
        as (r & w' & Hrun) end.
    rewrite Hrun in *. by eexists _, _.
  - destruct (handleExecute_idle args context w Hidle) as (r & -> & Hr).
    eexists _, _. by rewrite Hr.
  - destruct (handleConfirm_idle args context w Hidle) as (r & w' & -> & Hr & Hdb).
    eexists _, _. by rewrite Hr, Hdb.
  - pose proof (handleError_idle args context w Hidle) as Hp.
    unfold Processor.handleError in *.
    match goal with |- context [catch ?m ?h w] =>
      destruct (catch_returns m
                  (λ e, Processor.failure "Erro ao processar erro reportado" e) w)
        as (r & w' & Hrun) end.
    rewrite Hrun in *. by eexists _, _.
  - destruct (handleContinue_idle context w Hidle) as (r & w' & -> & Hdb).
    eexists _, _. by rewrite Hdb.
  - destruct (handleStatus_reads args context w) as (r & w' & -> & Hdb).
    eexists _, _. by rewrite Hdb.
Qed.

(** X18: from a store in which no work item is in progress and no step is
    started or completed, no sequence of [handleCreate], [handleExecute],
    [handleConfirm], [handleError], [handleContinue] and [handleStatus]
    leads out of it: every command returns, every [handleExecute] and every
    [handleConfirm] in the sequence is refused, and the store is in that
    state at the end.  A created work item is pending, [handleExecute] asks
    for a work item in progress, and [handleContinue] promotes a work item
    only when one of its steps was started. *)
Theorem no_step_starts_from_idle (commands : list (CommandContext * Command))
    (w : World) :
  idle (db w) →
  ∃ flags w',
    session commands w = (Return flags, w')
    ∧ idle (db w')
    ∧ length flags = length commands
    ∧ ∀ i context command,
        commands !! i = Some (context, command) →
        match command with
        | executar _ | confirmar _ => flags !! i = Some false
        | _ => True
        end.
Proof.
  revert w. induction commands as [|[context command] commands IH]; intros w Hidle.
  - exists [], w. split; [done|]. split; [done|]. split; [done|]. by intros [|i].
  - destruct (issue_idle context command w Hidle) as (flag & w1 & Hrun & Hidle1 & Hflag).
    destruct (IH w1 Hidle1) as (flags & w' & Hrest & Hidle' & Hlen & Hflags).
    exists (flag :: flags), w'. cbn [session]. unfold bind. rewrite Hrun, Hrest.
    split; [done|]. split; [done|]. split; [simpl; by rewrite Hlen|].
    intros [|i] context' command' Hi; simpl in Hi.
    + injection Hi as <- <-. destruct command; try done; by rewrite Hflag.
    + exact (Hflags i context' command' Hi).
Qed.

End SessionFacts.

(** A new project: a work item is created, resumed, its first step is
    asked to start and then to be confirmed. *)
Lemma no_step_starts_from_idle_witness :
  ∃ w',
    session (runtime := JS.lower_ascii_runtime) Samples.answering (λ a, Types.summary a) []
      [ (Samples.user,
         criar {| Commands.arg_type := Some Types.feature;
                  Commands.arg_description := Some "relatorio de vendas";
                  Commands.arg_priority := None; Commands.arg_tags := None |});
        (Samples.user, continuar);
        (Samples.user,
         executar {| Processor.taskNumber := Some 1; Processor.force := Some true |});
        (Samples.user, confirmar {| Processor.arg_notes := None |}) ]
      Samples.fresh
    = (Return [true; true; false; false], w')
    ∧ map Types.todo_status (Database.todos (db w')) = [Types.todo_pending]
    ∧ map Types.status (Database.tasks (db w'))
      = [Types.pending; Types.pending; Types.pending].
Proof.
  assert (Hidle : idle (db Samples.fresh)) by (split; constructor).
  destruct (no_step_starts_from_idle (runtime := JS.lower_ascii_runtime)
              Samples.answering (λ a, Types.summary a) []
              [ (Samples.user,
                 criar {| Commands.arg_type := Some Types.feature;
                          Commands.arg_description := Some "relatorio de vendas";
                          Commands.arg_priority := None; Commands.arg_tags := None |});
                (Samples.user, continuar);
                (Samples.user,
                 executar {| Processor.taskNumber := Some 1;
                             Processor.force := Some true |});
                (Samples.user, confirmar {| Processor.arg_notes := None |}) ]
              Samples.fresh Hidle) as (flags & w' & Hrun & _).
  exists w'. vm_compute in Hrun. injection Hrun as <- <-.
  vm_compute. repeat split.
Defined.

(** ** The orchestrator: single analyses, the consensus, the inspection *)

Section InspectionFacts.
Import Types Orchestrator Quality.
Context {runtime : JS.Runtime}.
Variable analyze : AgentType → Agent.

(** X19: [getAgentSpecificAnalysis] never throws and never returns [null]:
    every agent type is registered; the answer of the agent is returned as
    it is, and a failure of the agent becomes a response of that agent type
    with confidence 0.1 that carries the message of the failure. *)
Theorem getAgentSpecificAnalysis_always_answers (request : AnalysisRequest)
    (agentType : AgentType) :
  ∃ r, getAgentSpecificAnalysis analyze request agentType = Return (Some r)
       ∧ match analyze agentType (context_of request) with
         | Return answer => r = answer
         | Throw message =>
             agent r = agentType
             ∧ confidence r = 0.1%float
             ∧ response r = "❌ Erro na análise do agente " +:+ agent_name agentType
                            +:+ ": " +:+ message
             ∧ suggestions r = Some ["Revisar manualmente";
                                     "Verificar logs para mais detalhes"]
         end.
Proof.
  unfold getAgentSpecificAnalysis. rewrite agents_get_registered.
  destruct (analyze agentType (context_of request)); by eexists.
Qed.

Lemma consensus_get_set c a a' t :
  consensus_get (consensus_set c a' t) a
  = if bool_decide (a' = a) then Some t else consensus_get c a.
Proof. by destruct a, a'. Qed.

Lemma last_cons_cons {A} (x y : A) l : last (x :: y :: l) = last (y :: l).
Proof. done. Qed.

Lemma consensus_get_foldl responses : ∀ c a,
  consensus_get
    (foldl (λ consensus resp,
              consensus_set consensus (agent resp) (JS.replaceHeader (response resp)))
           c responses) a
  = match last (List.filter (λ r, bool_decide (agent r = a)) responses) with
    | Some r => Some (JS.replaceHeader (response r))
    | None => consensus_get c a
    end.
Proof.
  induction responses as [|r rs IH]; intros c a; simpl; [done|].
  rewrite IH, consensus_get_set.
  destruct (bool_decide (agent r = a)); [|done].
  destruct (List.filter _ rs) as [|r' l]; [done|]. simpl.
  destruct (last (r' :: l)) eqn:E; [done|]. by apply last_None in E.
Qed.

(** X20: the consensus holds, for an agent type, the text of the last
    response of that type with the header removal applied, and nothing for
    a type that did not respond. *)
Theorem generateConsensus_keeps_the_last_response (responses : list AgentResponse)
    (a : AgentType) :
  consensus_get (generateConsensus responses) a
  = (λ r, JS.replaceHeader (response r))
      <$> last (List.filter (λ r, bool_decide (agent r = a)) responses).
Proof.
  unfold generateConsensus. rewrite consensus_get_foldl.
  destruct (last _); [done|by destruct a].
Qed.

Lemma existsb_agent_In (a : AgentType) (l : list AgentType) :
  existsb (λ b, bool_decide (b = a)) l = true ↔ In a l.
Proof.
  rewrite existsb_exists. split.
  - by intros (b & Hb & ->%bool_decide_eq_true).
  - intros H. exists a. by rewrite bool_decide_eq_true.
Qed.

Lemma missingAgents_nil responses :
  missingAgents responses = [] ↔ ∀ t : AgentType, ∃ r, In r responses ∧ agent r = t.
Proof.
  unfold missingAgents, expectedAgents. split.
  - intros H t.
    assert (existsb (λ b, bool_decide (b = t)) (map agent responses) = true) as Ht.
    { destruct (existsb _ _) eqn:E; [done|].
      assert (In t (List.filter
                      (λ a, negb (existsb (λ b, bool_decide (b = a)) (map agent responses)))
                      [architect; developer; dba; qa; business; po])) as Hin.
      { apply filter_In. split; [destruct t; simpl; tauto|by rewrite E]. }
      by rewrite H in Hin. }
    apply existsb_agent_In, in_map_iff in Ht as (r & Hr & Hin). by exists r.
  - intros H.
    assert (∀ t, existsb (λ b, bool_decide (b = t)) (map agent responses) = true) as Hall.
    { intros t. apply existsb_agent_In, in_map_iff. destruct (H t) as (r & ? & ?).
      by exists r. }
    simpl. by rewrite !Hall.
Qed.

(** X21: [validateAnalysisQuality] declares an analysis valid exactly when
    the average confidence is not below 0.6 and each of the six agent types
    has a response in it; it raises at most two issues and gives at most
    four recommendations. *)
Theorem validateAnalysisQuality_valid_iff (analysis : MultiAgentAnalysis) :
  (isValid (validateAnalysisQuality analysis) = true
   ↔ (averageConfidence (responses analysis) <? 0.6)%float = false
     ∧ ∀ t : AgentType, ∃ r, In r (responses analysis) ∧ agent r = t)
  ∧ (length (issues (validateAnalysisQuality analysis)) ≤ 2)%nat
  ∧ (length (advice (validateAnalysisQuality analysis)) ≤ 4)%nat.
Proof.
  rewrite <- missingAgents_nil. unfold validateAnalysisQuality.
  destruct (averageConfidence (responses analysis) <? 0.6)%float;
    destruct (missingAgents (responses analysis)) as [|m ms]; simpl;
    destruct (existsb _ (responses analysis)); simpl;
    (split; [split; [try done; by intros [? ?]|by intros [? ?]]|split; lia]).
Qed.

Hypothesis own_type : ∀ t context r, analyze t context = Return r → agent r = t.

Lemma spec_entry_agent context t : agent (spec_entry analyze context t) = t.
Proof.
  unfold spec_entry. destruct (analyze t context) eqn:E; [by eapply own_type|done].
Qed.

Lemma map_agent_entries context types :
  map agent (map (spec_entry analyze context) types) = types.
Proof.
  rewrite map_map. rewrite <- (map_id types) at 2. apply map_ext.
  intros t. apply spec_entry_agent.
Qed.

(** X22: when every agent answers under its own type, an analysis by all
    agents misses no agent, so it is valid exactly when its average
    confidence is not below 0.6; an analysis by selected agents misses
    exactly the types that were not selected, so it is never valid unless
    all six were selected: the analysis that [handleError] asks of the
    developer, QA and architect agents is never valid. *)
Theorem validateAnalysisQuality_of_fan_outs (request : AnalysisRequest)
    (agentTypes : list AgentType) :
  (∃ a, analyzeWithAllAgents analyze request = Return a
        ∧ missingAgents (responses a) = []
        ∧ isValid (validateAnalysisQuality a)
          = negb (averageConfidence (responses a) <? 0.6)%float)
  ∧ (∃ b, analyzeWithSpecificAgents analyze request agentTypes = Return b
          ∧ missingAgents (responses b)
            = List.filter (λ t, negb (existsb (λ s, bool_decide (s = t)) agentTypes))
                          expectedAgents
          ∧ ((∃ t, ¬ In t agentTypes) → isValid (validateAnalysisQuality b) = false)).
Proof.
  split.
  - eexists. split.
    { unfold analyzeWithAllAgents. rewrite initializeAgents_all.
      by rewrite Promise_all_guarded. }
    assert (Hmissing : missingAgents
              (map (spec_entry analyze (context_of request)) all_types) = []).
    { unfold missingAgents. by rewrite map_agent_entries. }
    split; [exact Hmissing|].
    unfold validateAnalysisQuality. cbn [responses synthesize]. rewrite Hmissing.
    by destruct (_ <? _)%float.
  - eexists. split.
    { unfold analyzeWithSpecificAgents. by rewrite collect_entries. }
    assert (Hmissing : missingAgents
              (map (spec_entry analyze (context_of request)) agentTypes)
            = List.filter (λ t, negb (existsb (λ s, bool_decide (s = t)) agentTypes))
                          expectedAgents).
    { unfold missingAgents. by rewrite map_agent_entries. }
    split; [exact Hmissing|].
    intros (t & Ht). unfold validateAnalysisQuality. cbn [responses synthesize app].
    rewrite Hmissing.
    assert (In t (List.filter
                    (λ t, negb (existsb (λ s, bool_decide (s = t)) agentTypes))
                    expectedAgents)) as Hin.
    { apply filter_In. split; [destruct t; simpl; tauto|].
      apply negb_true_iff, not_true_is_false. by intros ?%existsb_agent_In. }
    destruct (List.filter _ expectedAgents) as [|m ms]; [done|].
    by destruct (_ <? _)%float.
Qed.

End InspectionFacts.

(** The analysis of an error by the developer, QA and architect agents, all
    answering with confidence 0.8, is not valid: three agents are missing. *)
Lemma validateAnalysisQuality_of_fan_outs_witness :
  ∃ b, Orchestrator.analyzeWithSpecificAgents (runtime := JS.lower_ascii_runtime)
         Samples.answering
         {| Orchestrator.req_projectId := "P"; Orchestrator.req_description := "erro";
            Orchestrator.req_type := None; Orchestrator.req_todo := None;
            Orchestrator.req_task := None; Orchestrator.req_codeContext := None;
            Orchestrator.req_businessRules := [];
            Orchestrator.req_previousAnalyses := [] |}
         [Types.developer; Types.qa; Types.architect] = Return b
       ∧ Quality.isValid (Quality.validateAnalysisQuality b) = false
       ∧ Quality.missingAgents (Types.responses b)
         = [Types.dba; Types.business; Types.po].
Proof.
  destruct (validateAnalysisQuality_of_fan_outs (runtime := JS.lower_ascii_runtime)
              Samples.answering
              (λ t context r H,
                 match H in (_ = o) return
                   (match o with Return r => Types.agent r = t | Throw _ => True end)
                 with eq_refl => eq_refl end)
              {| Orchestrator.req_projectId := "P"; Orchestrator.req_description := "erro";
                 Orchestrator.req_type := None; Orchestrator.req_todo := None;
                 Orchestrator.req_task := None; Orchestrator.req_codeContext := None;
                 Orchestrator.req_businessRules := [];
                 Orchestrator.req_previousAnalyses := [] |}
              [Types.developer; Types.qa; Types.architect])
    as (_ & b & Hrun & Hmissing & Hinvalid).
  exists b. split; [exact Hrun|]. split.
  - apply Hinvalid. exists Types.dba. simpl. intros [|[|[|[]]]]; discriminate.
  - rewrite Hmissing. reflexivity.
Defined.

(** ** The header pattern *)

Section HeaderFacts.
Import Header.

Lemma surrogate_not_space (c : N) : (0xD800 <= c <= 0xDFFF)%N → is_space c = false.
Proof.
  intros Hc. unfold is_space. apply orb_false_iff. split.
  - simpl. repeat (rewrite orb_false_iff; split); try apply N.eqb_neq; try done; lia.
  - apply andb_false_iff. right. apply N.leb_gt. lia.
Qed.

(** X23: the header pattern of [generateConsensus] leaves unchanged every
    text that begins with a character outside the Basic Multilingual Plane,
    that is with a high surrogate followed by a low surrogate.  The symbols
    of the six agents are such characters, so the header that
    [formatResponse] puts before a response is never removed. *)
Theorem header_pattern_never_strips_an_agent_symbol (high low : N) (rest : list N) :
  (0xD800 <= high <= 0xDBFF)%N → (0xDC00 <= low <= 0xDFFF)%N →
  replace (high :: low :: rest) = high :: low :: rest.
Proof.
  intros Hhigh Hlow. unfold replace, after_header.
  destruct (existsb (N.eqb high) class); [|done].
  cbn [spaces]. rewrite surrogate_not_space by lia.
  destruct low as [|p]; [done|].
  assert (N.pos p ≠ 42%N) as Hne by lia.
  destruct p as [p|p|]; try done; destruct p as [p|p|]; try done;
    destruct p as [p|p|]; try done; destruct p as [p|p|]; try done;
    destruct p as [p|p|]; try done; destruct p as [p|p|]; try done.
Qed.

End HeaderFacts.

(** The response of the developer agent, [💻 **Desenvolvedor Sênior**: ok],
    keeps its header; with a symbol of one code unit in its place, the
    variation selector U+FE0F that the class also holds, the header goes. *)
Lemma header_pattern_never_strips_an_agent_symbol_witness :
  let header := [42; 42; 68; 101; 118; 42; 42; 58; 32]%N in
  Header.replace ([0xD83D; 0xDCBB; 32]%N ++ header ++ [111; 107]%N)
  = [0xD83D; 0xDCBB; 32]%N ++ header ++ [111; 107]%N
  ∧ Header.replace ([0xFE0F; 32]%N ++ header ++ [111; 107]%N) = [111; 107]%N.
Proof.
  split; [|reflexivity].
  apply (header_pattern_never_strips_an_agent_symbol 0xD83D 0xDCBB); lia.
Defined.

(** ** The log buffer *)

Section LoggerFacts.
Import Logger.
Context {Payload : Type}.
Variable truthy : Payload → bool.
Variable toISOString : nat → string.
Variable new_Error : string → Error.
Variable String_of : option Payload → string.


(** The last [n] elements of a list. *)
Definition latest {A} (n : nat) (l : list A) : list A := drop (length l - n) l.

Lemma slice_from_negative {A} (n : nat) (l : list A) :
  (0 < n)%nat → slice_from (- Z.of_nat n) l = latest n l.
Proof.
  intros Hn. unfold slice_from, latest.
  destruct (Z.ltb_spec (- Z.of_nat n) 0); [|lia]. f_equal. lia.
Qed.

Lemma slice_from_0 {A} (l : list A) : slice_from 0 l = l.
Proof. unfold slice_from. simpl. by rewrite Z.min_l by lia. Qed.

Lemma latest_all {A} (n : nat) (l : list A) : (length l ≤ n)%nat → latest n l = l.
Proof. intros H. unfold latest. by replace (length l - n)%nat with 0%nat by lia. Qed.

Lemma length_latest {A} (n : nat) (l : list A) : (length (latest n l) ≤ n)%nat.
Proof. unfold latest. rewrite length_drop. lia. Qed.

Lemma latest_latest_app {A} (n : nat) (l r : list A) :
  latest n (latest n l ++ r) = latest n (l ++ r).
Proof.
  destruct (decide (length l ≤ n)%nat) as [Hle|Hgt]; [by rewrite (latest_all n l)|].
  unfold latest. rewrite !length_app, !length_drop.
  replace (length l - (length l - n) + length r - n)%nat with (length r) by lia.
  replace (length l + length r - n)%nat with ((length l - n) + length r)%nat by lia.
  rewrite <- drop_drop. f_equal. rewrite drop_app_le by lia. done.
Qed.

(** A call of [log]. *)
Record Call := {
  call_component : string;
  call_level : LogLevel;
  call_message : string;
  call_data : option Payload;
  call_error : option Error;
}.

Definition perform (s : State Payload) (c : Call) : State Payload :=
  log truthy toISOString (call_component c) (call_level c) (call_message c)
      (call_data c) (call_error c) s.

(** A sequence of calls of [log], and those of them that the global level
    lets through. *)
Definition run (calls : list Call) (s : State Payload) : State Payload :=
  foldl perform s calls.

Definition passes (s : State Payload) (c : Call) : bool :=
  (rank (globalLevel s) <=? rank (call_level c))%nat.

(** What identifies an entry: its component, level and message. *)
Definition brief_entry (e : LogEntry Payload) : string * LogLevel * string :=
  (component e, level e, message e).

Definition brief_call (c : Call) : string * LogLevel * string :=
  (call_component c, call_level c, call_message c).

(** What the buffer keeps of a list of entries, for a limit that is not
    negative: its last [maxLogs] entries, or all of them when the limit is
    0, since [slice(-0)] is [slice(0)]. *)
Definition kept {A} (maxLogs : Z) (l : list A) : list A :=
  if (maxLogs =? 0)%Z then l else latest (Z.to_nat maxLogs) l.

Lemma perform_settings s c :
  globalLevel (perform s c) = globalLevel s ∧ maxLogs (perform s c) = maxLogs s.
Proof.
  unfold perform, log. by destruct (rank (call_level c) <? rank (globalLevel s))%nat.
Qed.

Lemma perform_logs s c :
  (0 <= maxLogs s)%Z →
  ∃ entry, brief_entry entry = brief_call c
    ∧ logs (perform s c)
      = if passes s c then kept (maxLogs s) (logs s ++ [entry]) else logs s.
Proof.
  intros Hmax. unfold perform, log, passes.
  set (entry := {| timestamp := now s; level := call_level c;
                   component := call_component c; message := call_message c;
                   data := call_data c; error_object := call_error c |}).
  exists entry. split; [done|]. clearbody entry.
  destruct (Nat.ltb_spec (rank (call_level c)) (rank (globalLevel s))) as [Hlt|Hge].
  - by rewrite (proj2 (Nat.leb_gt _ _)) by lia.
  - rewrite (proj2 (Nat.leb_le _ _)) by lia. cbn [logs]. unfold kept.
    destruct (Z.eqb_spec (maxLogs s) 0) as [->|Hne].
    + destruct (_ <? _)%Z; [|done]. apply slice_from_0.
    + destruct (Z.ltb_spec (maxLogs s) (Z.of_nat (length (logs s ++ [entry]))))
        as [Hlt|Hle].
      * rewrite <- (Z2Nat.id (maxLogs s)) at 1 by lia.
        rewrite slice_from_negative by lia. done.
      * rewrite latest_all by lia. done.
Qed.

Lemma kept_kept_app {A} (m : Z) (l r : list A) :
  kept m (kept m l ++ r) = kept m (l ++ r).
Proof. unfold kept. destruct (m =? 0)%Z; [done|apply latest_latest_app]. Qed.

Lemma kept_id {A} (m : Z) (l : list A) :
  (m = 0 ∨ Z.of_nat (length l) <= m)%Z → kept m l = l.
Proof.
  intros H. unfold kept. destruct (Z.eqb_spec m 0); [done|].
  apply latest_all. lia.
Qed.

Lemma kept_fixed {A} (m : Z) (l : list A) :
  (0 <= m)%Z → (m = 0 ∨ Z.of_nat (length (kept m l)) <= m)%Z.
Proof.
  intros Hm. unfold kept. destruct (Z.eqb_spec m 0); [by left|right].
  pose proof (length_latest (Z.to_nat m) l). lia.
Qed.

(** The buffer after a sequence of calls. *)
Lemma run_logs calls : ∀ s,
  (0 <= maxLogs s)%Z →
  (maxLogs s = 0 ∨ Z.of_nat (length (logs s)) <= maxLogs s)%Z →
  map brief_entry (logs (run calls s))
  = kept (maxLogs s)
      (map brief_entry (logs s) ++ map brief_call (List.filter (passes s) calls)).
Proof.
  induction calls as [|c calls IH]; intros s Hmax Hlen.
  - simpl. rewrite app_nil_r, kept_id; [done|]. by rewrite length_map.
  - cbn [run foldl]. fold (run calls (perform s c)).
    destruct (perform_settings s c) as [Hlevel Hlimit].
    destruct (perform_logs s c Hmax) as (entry & Hentry & Hlogs).
    rewrite IH; rewrite ?Hlimit; [| done |].
    + assert (List.filter (passes (perform s c)) calls = List.filter (passes s) calls)
        as -> by (apply filter_ext; intros x; unfold passes; by rewrite Hlevel).
      rewrite Hlogs. cbn [List.filter]. destruct (passes s c); [|done].
      assert (∀ l : list (LogEntry Payload),
                map brief_entry (kept (maxLogs s) l) = kept (maxLogs s) (map brief_entry l))
        as Hmap.
      { intros l. unfold kept, latest. destruct (_ =? _)%Z; [done|].
        by rewrite length_map, skipn_map. }
      rewrite Hmap, kept_kept_app, map_app. cbn [map]. rewrite Hentry.
      by rewrite <- app_assoc.
    + rewrite Hlogs. destruct (passes s c); [|done]. by apply kept_fixed.
Qed.

(** X24: with a limit of at least one, a buffer that is within the limit
    stays within it, and after any sequence of calls of [log] it holds the
    last entries, up to the limit, of what it held followed by the calls at
    or above the global level, in their order. *)
Theorem log_keeps_the_latest (calls : list Call) (s : State Payload) :
  (1 <= maxLogs s)%Z → (Z.of_nat (length (logs s)) <= maxLogs s)%Z →
  map brief_entry (logs (run calls s))
  = latest (Z.to_nat (maxLogs s))
      (map brief_entry (logs s) ++ map brief_call (List.filter (passes s) calls))
  ∧ (Z.of_nat (length (logs (run calls s))) <= maxLogs s)%Z.
Proof.
  intros Hmax Hlen.
  assert (Heq : map brief_entry (logs (run calls s))
                = latest (Z.to_nat (maxLogs s))
                    (map brief_entry (logs s)
                     ++ map brief_call (List.filter (passes s) calls))).
  { rewrite run_logs by lia. unfold kept. by destruct (Z.eqb_spec (maxLogs s) 0); [lia|]. }
  split; [exact Heq|].
  rewrite <- (length_map brief_entry), Heq.
  pose proof (length_latest (Z.to_nat (maxLogs s))
                (map brief_entry (logs s)
                 ++ map brief_call (List.filter (passes s) calls))). lia.
Qed.

(** X25: with the limit 0 nothing is ever dropped: after any sequence of
    calls of [log] the buffer holds all it held and every call at or above
    the global level. *)
Theorem log_with_limit_zero_drops_nothing (calls : list Call) (s : State Payload) :
  maxLogs s = 0%Z →
  map brief_entry (logs (run calls s))
  = map brief_entry (logs s) ++ map brief_call (List.filter (passes s) calls).
Proof. intros Hmax. rewrite run_logs by lia. unfold kept. by rewrite Hmax. Qed.

Lemma last_latest {A} (n : nat) (l : list A) : (0 < n)%nat → last (latest n l) = last l.
Proof.
  intros Hn. unfold latest. destruct l as [|x l] using rev_ind; [done|].
  rewrite length_app. simpl. rewrite drop_app_le by lia. by rewrite !last_snoc.
Qed.

(** X26: an [error] is recorded whatever the global level: when the limit
    is not negative, the last entry of the buffer after the call is the
    entry of the call. *)
Theorem error_is_always_recorded (this message : string) (thrown : Thrown Payload)
    (s : State Payload) :
  (0 <= maxLogs s)%Z →
  ∃ entry,
    last (logs (error truthy toISOString new_Error String_of this message thrown s))
    = Some entry
    ∧ level entry = ERROR ∧ component entry = this ∧ Logger.message entry = message
    ∧ timestamp entry = now s.
Proof.
  intros Hmax. unfold error, log.
  assert ((rank ERROR <? rank (globalLevel s))%nat = false) as ->
    by (apply Nat.ltb_ge; destruct (globalLevel s); simpl; lia).
  match goal with |- context [logs s ++ [?e]] => exists e end.
  split; [|done]. cbn [logs].
  destruct (_ <? _)%Z; [|by rewrite last_snoc].
  destruct (Z.eqb_spec (maxLogs s) 0) as [Hzero|Hne].
  - rewrite Hzero. change (- 0)%Z with 0%Z. by rewrite slice_from_0, last_snoc.
  - rewrite <- (Z2Nat.id (maxLogs s)) by lia.
    rewrite slice_from_negative, last_latest by lia. by rewrite last_snoc.
Qed.

(** X27: [getLogs] returns the last hundred, at most, of the entries of the
    buffer that pass its filters, in their order; an empty component is no
    filter. *)
Theorem getLogs_returns_the_latest_hundred (component_filter : option string)
    (level_filter : option LogLevel) (s : State Payload) :
  let selected (e : LogEntry Payload) : bool :=
    (if JS.truthy_string component_filter
     then String.eqb (component e) (default "" component_filter) else true)
    && match level_filter with
       | Some l => (rank l <=? rank (level e))%nat
       | None => true
       end in
  getLogs component_filter level_filter s = latest 100 (List.filter selected (logs s))
  ∧ (length (getLogs component_filter level_filter s) ≤ 100)%nat.
Proof.
  simpl.
  assert (Heq : getLogs component_filter level_filter s
                = latest 100
                    (List.filter
                       (λ e, (if JS.truthy_string component_filter
                              then String.eqb (component e) (default "" component_filter)
                              else true)
                             && match level_filter with
                                | Some l => (rank l <=? rank (level e))%nat
                                | None => true
                                end) (logs s))).
  { unfold getLogs. change (-100)%Z with (- Z.of_nat 100)%Z.
    rewrite slice_from_negative by lia. f_equal.
    destruct (JS.truthy_string component_filter), level_filter as [l|];
      rewrite ?filter_filter_andb; try done.
    - apply filter_ext. intros e. by rewrite andb_true_r.
    - induction (logs s) as [|e l' IH]; simpl; [done|]. by f_equal. }
  split; [exact Heq|]. rewrite Heq. apply length_latest.
Qed.

End LoggerFacts.

(** A buffer of two entries with the limit 2: of three further calls the
    debug call is below the level, and the last two entries are kept. *)
Lemma log_keeps_the_latest_witness :
  let entry m := {| Logger.timestamp := 0; Logger.level := Logger.INFO;
                    Logger.component := "db"; Logger.message := m;
                    Logger.data := @None unit; Logger.error_object := None |} in
  let call l m := {| call_component := "cmd"; call_level := l; call_message := m;
                     call_data := @None unit; call_error := None |} in
  let s := {| Logger.globalLevel := Logger.INFO; Logger.logs := [entry "a"; entry "b"];
              Logger.maxLogs := 2; Logger.console := []; Logger.now := 1 |} in
  map brief_entry
    (Logger.logs (run (λ _, true) (λ _, "")
                    [call Logger.INFO "c"; call Logger.DEBUG "d"; call Logger.WARN "e"] s))
  = [("cmd", Logger.INFO, "c"); ("cmd", Logger.WARN, "e")].
Proof.
  cbv zeta.
  match goal with |- map _ (Logger.logs (run ?t ?i ?calls ?s)) = _ =>
    destruct (log_keeps_the_latest t i calls s) as [Heq _]; [simpl; lia..|]
  end.
  rewrite Heq. reflexivity.
Defined.

(** The same calls with the limit 0: the four entries that pass are kept. *)
Lemma log_with_limit_zero_drops_nothing_witness :
  let entry m := {| Logger.timestamp := 0; Logger.level := Logger.INFO;
                    Logger.component := "db"; Logger.message := m;
                    Logger.data := @None unit; Logger.error_object := None |} in
  let call l m := {| call_component := "cmd"; call_level := l; call_message := m;
                     call_data := @None unit; call_error := None |} in
  let s := {| Logger.globalLevel := Logger.INFO; Logger.logs := [entry "a"; entry "b"];
              Logger.maxLogs := 0; Logger.console := []; Logger.now := 1 |} in
  map brief_entry
    (Logger.logs (run (λ _, true) (λ _, "")
                    [call Logger.INFO "c"; call Logger.DEBUG "d"; call Logger.WARN "e"] s))
  = [("db", Logger.INFO, "a"); ("db", Logger.INFO, "b");
     ("cmd", Logger.INFO, "c"); ("cmd", Logger.WARN, "e")].
Proof.
  cbv zeta.
  match goal with |- map _ (Logger.logs (run ?t ?i ?calls ?s)) = _ =>
    exact (log_with_limit_zero_drops_nothing t i calls s eq_refl)
  end.
Defined.

(** An error logged while the global level is [ERROR] and the buffer is
    full. *)
Lemma error_is_always_recorded_witness :
  let s := {| Logger.globalLevel := Logger.ERROR;
              Logger.logs := [{| Logger.timestamp := 0; Logger.level := Logger.ERROR;
                                 Logger.component := "db"; Logger.message := "a";
                                 Logger.data := @None unit;
                                 Logger.error_object := None |}];
              Logger.maxLogs := 1; Logger.console := []; Logger.now := 1 |} in
  (0 <= Logger.maxLogs s)%Z
  ∧ ∃ entry,
      last (Logger.logs
              (Logger.error (λ _, true) (λ _, "")
                 (λ m, {| Logger.error_message := m; Logger.stack := None |})
                 (λ _, "undefined") "cmd" "falhou" (Logger.other unit None) s))
      = Some entry
      ∧ Logger.level entry = Logger.ERROR ∧ Logger.component entry = "cmd"
      ∧ Logger.message entry = "falhou" ∧ Logger.timestamp entry = Logger.now s.
Proof.
  cbv zeta. split; [simpl; lia|].
  apply error_is_always_recorded. simpl. lia.
Defined.

(** ** The progress percentage, on the counts *)

Section PercentageFacts.

(** X28: for 1 to 39 steps, of which any number is completed, the double
    arithmetic of [Math.round((completedTasks / tasks.length) * 100)] gives
    the exactly rounded percentage, a half rounded up, which lies between 0
    and 100. *)
Theorem percentage_exact_up_to_39 (completedTasks total : nat) :
  (1 ≤ total ≤ 39)%nat → (completedTasks ≤ total)%nat →
  percentage completedTasks total = JS.of_Z (spec_percentage completedTasks total)
  ∧ (0 <= spec_percentage completedTasks total <= 100)%Z.
Proof.
  intros Htotal Hcompleted. split.
  - pose proof percentage_exact_table as H.
    apply all_in_In with (x := total) in H; [|apply in_seq; lia].
    apply all_in_In with (x := completedTasks) in H; [done|apply in_seq; lia].
  - unfold spec_percentage. split.
    + apply Z.div_pos; lia.
    + apply Z.lt_succ_r. change (Z.succ 100) with 101%Z.
      apply Z.div_lt_upper_bound; lia.
Qed.

End PercentageFacts.

(** One completed step of three is 33 percent, two are 67. *)
Lemma percentage_exact_up_to_39_witness :
  percentage 1 3 = 33%float ∧ percentage 2 3 = 67%float.
Proof.
  split.
  - by rewrite (proj1 (percentage_exact_up_to_39 1 3 ltac:(lia) ltac:(lia))).
  - by rewrite (proj1 (percentage_exact_up_to_39 2 3 ltac:(lia) ltac:(lia))).
Defined.

(** ** The cache after two pushes *)

Section StaleCacheFacts.
Import Types Context.




End StaleCacheFacts.





(** ** The consensus that [handleCreate] passes to the generator *)

Section CreationPath.
Import Types Orchestrator Quality.
Context {runtime : JS.Runtime}.
Variable analyze : AgentType → Agent.

(** The response of an agent in the fan-out: its own, or the degraded one. *)
Definition fan_out_entry (request : AnalysisRequest) (type : AgentType) : AgentResponse :=
  match analyze type (context_of request) with
  | Return r => r
  | Throw _ => degraded type
  end.

(** When every agent answers under its own type, the developer entry of the
    consensus of an analysis by all agents is the text of the developer's
    response in the fan-out after the header removal.  The agents build
    their responses with [formatResponse], which puts a header before the
    text, so that this entry is not empty, and the generator is given a
    developer entry: the sequence it generates for [handleCreate] is the one
    of the three steps. *)
Lemma analyzeWithAllAgents_developer_entry (request : AnalysisRequest) (todo : Todo) :
  (∀ t context r, analyze t context = Return r → agent r = t) →
  ∃ analysis,
    analyzeWithAllAgents analyze request = Return analysis
    ∧ cons_developer (consensus analysis)
      = Some (JS.replaceHeader (response (fan_out_entry request developer)))
    ∧ (JS.replaceHeader (response (fan_out_entry request developer)) ≠ "" →
       JS.truthy_string (cons_developer (consensus analysis)) = true
       ∧ well_chained (Processor.generateTasksFromAnalysis todo analysis)).
Proof.
  intros own_type.
  exists (synthesize (map (spec_entry analyze (context_of request)) all_types)).
  split.
  { unfold analyzeWithAllAgents. rewrite initializeAgents_all.
    by rewrite Promise_all_guarded. }
  assert (Hentry : cons_developer
                     (consensus (synthesize
                        (map (spec_entry analyze (context_of request)) all_types)))
                   = Some (JS.replaceHeader
                             (response (fan_out_entry request developer)))).
  { change (cons_developer ?c) with (consensus_get c developer).
    cbn [consensus synthesize]. unfold generateConsensus.
    rewrite consensus_get_foldl.
    assert (Hagent : ∀ t, agent (spec_entry analyze (context_of request) t) = t).
    { intros t. unfold spec_entry.
      destruct (analyze t (context_of request)) eqn:E; [by eapply own_type|done]. }
    unfold all_types. cbn [map List.filter]. rewrite !Hagent.
    repeat (rewrite bool_decide_eq_false_2 by done).
    rewrite bool_decide_eq_true_2 by done. done. }
  split; [exact Hentry|].
  intros Hne.
  assert (Htruthy : JS.truthy_string
                      (cons_developer
                         (consensus (synthesize
                            (map (spec_entry analyze (context_of request)) all_types))))
                    = true).
  { rewrite Hentry. simpl.
    by destruct (JS.replaceHeader (response (fan_out_entry request developer))). }
  split; [exact Htruthy|].
  apply generateTasks_chained_with_developer. by left.
Qed.

End CreationPath.
